(** * gopoc: the rule-execution engine of the POC SDK

    A shallow embedding of the Go package [sdk] (config, client, cookie,
    expression evaluator, engine) and the properties of its behaviour.

    Conventions.
    - A Go [string] is a sequence of bytes: Rocq's [string].
    - A Go [int] (on a 64-bit platform) and a [time.Duration] are 64-bit
      two's-complement integers: [Z] with the wrap-around [wrap64] written
      at every arithmetic operation that can leave the range.
    - A Go [(T, error)] result is a value of [res T]; every error return of
      the package carries the zero value of [T], so nothing is lost.
    - A Go map that is only looked up and updated is a [gmap]; a map that
      is ranged over is given together with the order of the iteration. *)

From Stdlib Require Import ZArith Ascii String List Lia Bool DecimalString.
From Stdlib Require DecimalZ DecimalPos.
From stdpp Require Import base option list gmap strings.

Local Open Scope string_scope.
Local Open Scope Z_scope.

(** Concatenation of strings reduces on a constructor, as in the Standard
    Library. *)
#[local] Arguments String.append !s1 s2 : simpl nomatch.

(* ===================================================================== *)
(** ** The Go standard library functions the package calls *)
(* ===================================================================== *)

Module Go.

(** *** 64-bit integers *)

Definition MinInt64 : Z := - 2 ^ 63.
Definition MaxInt64 : Z := 2 ^ 63 - 1.

(** Two's-complement wrap-around of a mathematical integer to int64. *)
Definition wrap64 (z : Z) : Z := (z + 2 ^ 63) mod 2 ^ 64 - 2 ^ 63.

Definition in_int64 (z : Z) : Prop := MinInt64 <= z <= MaxInt64.

(** *** Bytes *)

Definition byte (n : N) : ascii := ascii_of_N n.

Definition isDigit (c : ascii) : bool :=
  let n := N_of_ascii c in ((48 <=? n) && (n <=? 57))%N.

Definition isUpper (c : ascii) : bool :=
  let n := N_of_ascii c in ((65 <=? n) && (n <=? 90))%N.

Definition isLower (c : ascii) : bool :=
  let n := N_of_ascii c in ((97 <=? n) && (n <=? 122))%N.

(** The class [\w] of Go's regexp: ASCII letters, digits and underscore. *)
Definition isWordChar (c : ascii) : bool :=
  isDigit c || isUpper c || isLower c || Ascii.eqb c "_".

(** *** package strings *)

Fixpoint rev_acc (s acc : string) : string :=
  match s with
  | EmptyString => acc
  | String c s' => rev_acc s' (String c acc)
  end.

Definition reverse (s : string) : string := rev_acc s "".

(** [strings.HasPrefix(s, prefix)]. *)
Fixpoint HasPrefix (s prefix : string) {struct prefix} : bool :=
  match prefix, s with
  | EmptyString, _ => true
  | String a p', String b s' => Ascii.eqb a b && HasPrefix s' p'
  | String _ _, EmptyString => false
  end.

(** [strings.HasSuffix(s, suffix)]. *)
Definition HasSuffix (s suffix : string) : bool :=
  HasPrefix (reverse s) (reverse suffix).

(** [strings.Contains(s, substr)]. *)
Fixpoint Contains (s substr : string) : bool :=
  HasPrefix s substr ||
  match s with
  | EmptyString => false
  | String _ s' => Contains s' substr
  end.

(** [strings.Index(s, substr)]: the byte offset of the first occurrence,
    or -1. *)
Fixpoint Index (s substr : string) : Z :=
  if HasPrefix s substr then 0
  else match s with
       | EmptyString => -1
       | String _ s' =>
           let i := Index s' substr in
           if i =? -1 then -1 else i + 1
       end.

(** The slice [s[:n]]. *)
Definition slice_to (s : string) (n : Z) : string :=
  String.substring 0 (Z.to_nat n) s.

Fixpoint drop (n : nat) (s : string) : string :=
  match n, s with
  | O, _ => s
  | S n', String _ s' => drop n' s'
  | S _, EmptyString => EmptyString
  end.

(** [strings.TrimPrefix(s, prefix)]. *)
Definition TrimPrefix (s prefix : string) : string :=
  if HasPrefix s prefix then drop (String.length prefix) s else s.

(** [strings.TrimSuffix(s, suffix)]. *)
Definition TrimSuffix (s suffix : string) : string :=
  if HasSuffix s suffix
  then String.substring 0 (String.length s - String.length suffix) s
  else s.

(** [strings.Split(s, sep)] for a non-empty [sep]: the pieces between
    the non-overlapping occurrences of [sep], found left to right.
    [skip] counts the bytes of a separator still to be jumped over, [cur]
    holds the current piece in reverse.  (With an empty [sep] Go explodes
    the string into characters; the package never does that.) *)
Fixpoint split_go (sep : string) (skip : nat) (cur s : string) : list string :=
  match s with
  | EmptyString => [reverse cur]
  | String c s' =>
      match skip with
      | S k => split_go sep k cur s'
      | O =>
          if HasPrefix s sep
          then reverse cur :: split_go sep (String.length sep - 1) "" s'
          else split_go sep 0 (String c cur) s'
      end
  end.

Definition Split (s sep : string) : list string := split_go sep 0 "" s.

(** [strings.Join(elems, sep)]. *)
Fixpoint Join (elems : list string) (sep : string) : string :=
  match elems with
  | [] => ""
  | [e] => e
  | e :: rest => e ++ sep ++ Join rest sep
  end.

Definition inCutset (cutset : string) (c : ascii) : bool :=
  existsb (Ascii.eqb c) (list_ascii_of_string cutset).

Fixpoint trimLeftCutset (cutset s : string) : string :=
  match s with
  | EmptyString => EmptyString
  | String c s' => if inCutset cutset c then trimLeftCutset cutset s' else s
  end.

(** [strings.Trim(s, cutset)] for a cutset of ASCII characters: every
    leading and trailing byte that belongs to the cutset is removed. *)
Definition Trim (s cutset : string) : string :=
  reverse (trimLeftCutset cutset (reverse (trimLeftCutset cutset s))).

(** The UTF-8 encodings of the code points for which [unicode.IsSpace]
    holds: tab, LF, VT, FF, CR, space, U+0085, U+00A0, U+1680,
    U+2000..U+200A, U+2028, U+2029, U+202F, U+205F, U+3000. *)
Definition bytes (l : list N) : string :=
  string_of_list_ascii (List.map byte l).

Definition spaceEncodings : list string :=
  List.map bytes
    [ [9]; [10]; [11]; [12]; [13]; [32];
      [194; 133]; [194; 160]; [225; 154; 128];
      [226; 128; 128]; [226; 128; 129]; [226; 128; 130]; [226; 128; 131];
      [226; 128; 132]; [226; 128; 133]; [226; 128; 134]; [226; 128; 135];
      [226; 128; 136]; [226; 128; 137]; [226; 128; 138];
      [226; 128; 168]; [226; 128; 169]; [226; 128; 175];
      [226; 129; 159]; [227; 128; 128] ]%N.

(** The number of bytes of the white-space character [s] starts with
    ([encs] in reading order), or 0. *)
Definition spaceWidth (encs : list string) (s : string) : nat :=
  match List.find (HasPrefix s) encs with
  | Some e => String.length e
  | None => O
  end.

(** Leading white space is removed one character at a time; [skip]
    counts the bytes of a multi-byte character still to be dropped. *)
Fixpoint trimLeftSpace (encs : list string) (skip : nat) (s : string) : string :=
  match s with
  | EmptyString => EmptyString
  | String _ s' =>
      match skip with
      | S k => trimLeftSpace encs k s'
      | O =>
          match spaceWidth encs s with
          | O => s
          | S k => trimLeftSpace encs k s'
          end
      end
  end.

(** [strings.TrimSpace(s)]: all leading and trailing Unicode white space
    is removed.  From the right Go decodes the last character, which
    is white space exactly when the string ends in one of the encodings. *)
Definition TrimSpace (s : string) : string :=
  let l := trimLeftSpace spaceEncodings 0 s in
  reverse (trimLeftSpace (List.map reverse spaceEncodings) 0 (reverse l)).

(** A string of bytes below [utf8.RuneSelf] (0x80) only. *)
Fixpoint isASCII (s : string) : bool :=
  match s with
  | EmptyString => true
  | String c s' => (N_of_ascii c <? 128)%N && isASCII s'
  end.

(** [strings.ToLower(s)] as far as it is modelled: the branch the
    function takes for a string of ASCII bytes, where the letters A to
    Z become a to z and every other byte is kept.  For a string with a
    byte from 0x80 on the function maps [unicode.ToLower] over the
    characters instead (the Kelvin sign U+212A becomes k, for one), and
    that mapping is not modelled: the properties of the lookup of a
    header by its name are stated for names with [isASCII]. *)
Definition lowerByte (c : ascii) : ascii :=
  if isUpper c then ascii_of_N (N_of_ascii c + 32) else c.

Fixpoint ToLower (s : string) : string :=
  match s with
  | EmptyString => EmptyString
  | String c s' => String (lowerByte c) (ToLower s')
  end.

(** *** package strconv and fmt *)

Fixpoint digitsValue (s : string) (acc : Z) : option Z :=
  match s with
  | EmptyString => Some acc
  | String c s' =>
      if isDigit c
      then digitsValue s' (acc * 10 + (Z.of_N (N_of_ascii c) - 48))
      else None
  end.

(** [strconv.Atoi(s)]: an optional sign and at least one decimal digit,
    the value within the range of int; [None] stands for the
    [*NumError] (syntax or range). *)
Definition Atoi (s : string) : option Z :=
  match s with
  | EmptyString => None
  | String c s' =>
      let neg := Ascii.eqb c "-" in
      let ds := if neg || Ascii.eqb c "+" then s' else s in
      match ds with
      | EmptyString => None
      | String _ _ =>
          match digitsValue ds 0 with
          | Some n =>
              let v := if neg then - n else n in
              if (MinInt64 <=? v) && (v <=? MaxInt64) then Some v else None
          | None => None
          end
      end
  end.

(** The decimal rendering of an int, as [fmt.Sprintf("%v", n)] prints it. *)
Definition Itoa (n : Z) : string := NilZero.string_of_int (Z.to_int n).

End Go.


Import Go.

(* ===================================================================== *)
(** ** Errors and results *)
(* ===================================================================== *)

(** One constructor per place where the package builds an error; an error
    that wraps another one ([%w]) carries it. *)
Inductive error : Type :=
  (* expression evaluator *)
  | ErrUnsupportedExpression (expr : string)
  | ErrInvalidComparison (expr : string)
  | ErrInvalidNumericComparison (expr : string)
  | ErrUnsupportedOperator (op : string)
  | ErrParseContains (expr : string)
  | ErrParseCookieContains (expr : string)
  | ErrParseHeaderGet (expr : string)
  | ErrAtoi (s : string)
  | ErrNotNumeric (shown : string)
  (* cookie extractor *)
  | ErrNilResponse
  | ErrParseBodyExtract (expr : string)
  | ErrInvalidRegexp (pattern : string)
  | ErrExtractedCookieNeedsContext
  | ErrUnsupportedExtraction (expr : string)
  (* HTTP client *)
  | ErrNewRequest
  | ErrDo
  | ErrReadBody
  | ErrRetriesExhausted (retryCount : Z) (lastErr : error)
  | ErrNil (* the nil [lastErr] wrapped when no attempt was made *)
  (* no error of the source: the retry loop has not ended within the
     passes the model follows, see [ExecuteRequest] *)
  | ErrStillRetrying
  (* engine *)
  | ErrHTTPRequest (cause : error)
  | ErrCookieValidation (cause : error)
  | ErrCookieInvalid
  | ErrExpressionEvaluation (cause : error)
  | ErrExpressionNotSatisfied (expr : string)
  | ErrExecuteRule (ruleName : string) (cause : error)
  (* the recursion bound of the model was reached, see [Evaluate_total] *)
  | ErrRecursionBound.

Inductive res (A : Type) : Type :=
  | Ok (a : A)
  | Err (e : error).
Arguments Ok {A} a.
Arguments Err {A} e.

Definition bind {A B} (r : res A) (k : A -> res B) : res B :=
  match r with
  | Ok a => k a
  | Err e => Err e
  end.

Notation "'let*' x ':=' r 'in' k" := (bind r (fun x => k))
  (at level 10, x name, r at level 100, k at level 200).

Definition is_err {A} (r : res A) : bool :=
  match r with Ok _ => false | Err _ => true end.

(* ===================================================================== *)
(** ** The configuration: rules *)
(* ===================================================================== *)

(** [time.Second], in nanoseconds. *)
Definition Second : Z := 1000000000.

(** [Rule].  The field [ExtractCookie] is [ExtractCookie_expr] here, the
    name without suffix being the method of the extractor; [Headers] lists
    the header map in the order a [range] visits it. *)
Record Rule : Type := {
  Method : string;
  Path : string;
  Timeout : Z;
  RetryCount : Z;
  Headers : list (string * string);
  Body : list string;
  ExtractCookie_expr : string;
  UseCookie : string;
  CookieExpression : string;
  Expression : string
}.

(** [POCConfig], the fields the engine reads.  The rules are a Go map:
    there is no order in the configuration.  The field [Expression] is
    [MainExpression] here, to keep it apart from the one of a rule. *)
Record POCConfig : Type := {
  Rules : gmap string Rule;
  MainExpression : string
}.

(** [Rule.GetTimeout]: seconds to a [time.Duration]; the product is an
    int64 multiplication. *)
Definition GetTimeout (r : Rule) : Z :=
  if Timeout r <=? 0 then wrap64 (60 * Second)
  else
    let timeout := wrap64 (Timeout r * Second) in
    if timeout <? wrap64 (60 * Second) then wrap64 (60 * Second)
    else timeout.

(** [Rule.GetRetryCount]. *)
Definition GetRetryCount (r : Rule) : Z :=
  if RetryCount r <=? 0 then 1 else RetryCount r.

(** [Rule.GetBody]. *)
Definition GetBody (r : Rule) : string :=
  match Body r with
  | [] => ""
  | b :: _ => b
  end.

(* ===================================================================== *)
(** ** Responses and requests *)
(* ===================================================================== *)

(** [Response].  [RespHeaders] lists the entries of the header map in the
    order a [range] visits them; [Cookies] holds each [*http.Cookie] as
    the text its [String] method renders. *)
Record Response : Type := {
  Status : Z;
  RespHeaders : list (string * list string);
  RespBody : string;
  Cookies : list string
}.

Record RequestOptions : Type := {
  optMethod : string;
  optPath : string;
  optHeaders : list (string * string);
  optBody : string;
  optUseCookie : string;
  optTimeout : Z;
  optRetryCount : Z
}.

(** The request handed to the transport. *)
Record Request : Type := {
  reqMethod : string;
  reqURL : string;
  reqHeader : list (string * string);
  reqBody : string;
  reqTimeout : Z
}.

(* ===================================================================== *)
(** ** The expression evaluator *)
(* ===================================================================== *)

(** The dynamically typed values ([interface{}]) of the evaluator. *)
Inductive value : Type :=
  | VString (s : string)
  | VInt (n : Z)
  | VBool (b : bool).

(** [fmt.Sprintf("%v", v)]. *)
Definition Sprintf_v (v : value) : string :=
  match v with
  | VString s => s
  | VInt n => Itoa n
  | VBool b => if b then "true" else "false"
  end.

Definition squote : ascii := byte 39.
Definition dquote : ascii := byte 34.

Definition isQuote (c : ascii) : bool :=
  Ascii.eqb c squote || Ascii.eqb c dquote.

(** The longest prefix without a quote character, and what follows it. *)
Fixpoint spanNonQuote (s : string) : string * string :=
  match s with
  | EmptyString => ("", "")
  | String c s' =>
      if isQuote c then ("", s)
      else let (a, r) := spanNonQuote s' in (String c a, r)
  end.

(** A match of the regular expression [fname\(Q([^Q]+)Q\)], where the
    class [Q] holds the single and the double quote, that starts at the
    first byte of [s]; the result is the capture group.
    The group is greedy and cannot contain a quote, so it is the longest
    quote-free run: a shorter one is followed by a byte that is no quote. *)
Definition matchCallAt (fname s : string) : option string :=
  if HasPrefix s (fname ++ "(") then
    match drop (String.length fname + 1) s with
    | String q rest =>
        if isQuote q then
          match spanNonQuote rest with
          | (EmptyString, _) => None
          | (arg, String q' (String c _)) =>
              if isQuote q' && Ascii.eqb c ")" then Some arg else None
          | (_, _) => None
          end
        else None
    | EmptyString => None
    end
  else None.

(** [regexp.FindStringSubmatch] for that expression: the leftmost match,
    [None] when Go returns nil. *)
Fixpoint findCall (fname s : string) : option string :=
  match matchCallAt fname s with
  | Some arg => Some arg
  | None =>
      match s with
      | EmptyString => None
      | String _ s' => findCall fname s'
      end
  end.

(** [removeComments]. *)
Definition removeComments (s : string) : string :=
  let idx := Index s "#" in
  if negb (idx =? -1) then slice_to s idx else s.

Section Evaluator.

(** The fields [e.response] (nil when absent) and [e.cookie]. *)
Variable response : option Response.
Variable cookie : string.

(** [evaluateContains]. *)
Definition evaluateContains (expr : string) : res bool :=
  match findCall "response.body.contains" expr with
  | None => Err (ErrParseContains expr)
  | Some text =>
      match response with
      | None => Ok false
      | Some r => Ok (Contains (RespBody r) text)
      end
  end.

(** [evaluateCookieContains]. *)
Definition evaluateCookieContains (expr : string) : res bool :=
  match findCall "cookie.contains" expr with
  | None => Err (ErrParseCookieContains expr)
  | Some text => Ok (Contains cookie text)
  end.

(** The loop of [evaluateHeaderGet] over the header map. *)
Fixpoint firstHeaderValue (headerNameLower : string)
    (hs : list (string * list string)) : string :=
  match hs with
  | [] => ""
  | (k, v) :: rest =>
      if String.eqb (ToLower k) headerNameLower then
        match v with
        | v0 :: _ => v0
        | [] => firstHeaderValue headerNameLower rest
        end
      else firstHeaderValue headerNameLower rest
  end.

(** [evaluateHeaderGet]. *)
Definition evaluateHeaderGet (expr : string) : res string :=
  match findCall "response.headers.get" expr with
  | None => Err (ErrParseHeaderGet expr)
  | Some headerName =>
      match response with
      | None => Ok ""
      | Some r => Ok (firstHeaderValue (ToLower headerName) (RespHeaders r))
      end
  end.

(** [evaluateValue]. *)
Definition evaluateValue (expr : string) : res value :=
  let expr := TrimSpace expr in
  if HasPrefix expr (String squote "") && HasSuffix expr (String squote "")
  then Ok (VString (Trim expr (String squote "")))
  else if HasPrefix expr (String dquote "") && HasSuffix expr (String dquote "")
  then Ok (VString (Trim expr (String dquote "")))
  else if String.eqb expr "response.status" then
    match response with
    | None => Ok (VInt 0)
    | Some r => Ok (VInt (Status r))
    end
  else if Contains expr "response.body.contains" then
    let* b := evaluateContains expr in Ok (VBool b)
  else if Contains expr "cookie.contains" then
    let* b := evaluateCookieContains expr in Ok (VBool b)
  else if Contains expr "response.headers.get" then
    let* s := evaluateHeaderGet expr in Ok (VString s)
  else
    match Atoi expr with
    | Some num => Ok (VInt num)
    | None => Ok (VString expr)
    end.

(** [evaluateNumericValue]. *)
Definition evaluateNumericValue (expr : string) : res Z :=
  let* val := evaluateValue expr in
  match val with
  | VInt v => Ok v
  | VString v =>
      match Atoi v with
      | Some n => Ok n
      | None => Err (ErrAtoi v)
      end
  | VBool _ => Err (ErrNotNumeric (Sprintf_v val))
  end.

(** [evaluateComparison]. *)
Definition evaluateComparison (expr op : string)
    (compare : value -> value -> bool) : res bool :=
  match Split expr op with
  | [p0; p1] =>
      let left := TrimSpace p0 in
      let right := TrimSpace p1 in
      let* leftVal := evaluateValue left in
      let* rightVal := evaluateValue right in
      Ok (compare leftVal rightVal)
  | _ => Err (ErrInvalidComparison expr)
  end.

(** [evaluateNumericComparison]. *)
Definition evaluateNumericComparison (expr op : string) : res bool :=
  match Split expr op with
  | [p0; p1] =>
      let left := TrimSpace p0 in
      let right := TrimSpace p1 in
      let* leftVal := evaluateNumericValue left in
      let* rightVal := evaluateNumericValue right in
      if String.eqb op ">=" then Ok (leftVal >=? rightVal)
      else if String.eqb op "<=" then Ok (leftVal <=? rightVal)
      else if String.eqb op ">" then Ok (leftVal >? rightVal)
      else if String.eqb op "<" then Ok (leftVal <? rightVal)
      else Err (ErrUnsupportedOperator op)
  | _ => Err (ErrInvalidNumericComparison expr)
  end.

(** The two closures [evaluateSingle] passes for [==] and [!=]. *)
Definition compareEq (a b : value) : bool :=
  String.eqb (Sprintf_v a) (Sprintf_v b).
Definition compareNe (a b : value) : bool :=
  negb (String.eqb (Sprintf_v a) (Sprintf_v b)).

(** [evaluateSingle], over the [Evaluate] it calls for a parenthesized
    expression. *)
Definition evaluateSingle_with (Evaluate : string -> res bool)
    (expr : string) : res bool :=
  let expr := TrimSpace expr in
  if HasPrefix expr "(" && HasSuffix expr ")" then
    Evaluate (Trim expr "()")
  else if Contains expr "response.body.contains" then evaluateContains expr
  else if Contains expr "cookie.contains" then evaluateCookieContains expr
  else if Contains expr "==" then evaluateComparison expr "==" compareEq
  else if Contains expr "!=" then evaluateComparison expr "!=" compareNe
  else if Contains expr ">=" then evaluateNumericComparison expr ">="
  else if Contains expr "<=" then evaluateNumericComparison expr "<="
  else if Contains expr ">" && negb (Contains expr ">=")
  then evaluateNumericComparison expr ">"
  else if Contains expr "<" && negb (Contains expr "<=")
  then evaluateNumericComparison expr "<"
  else Err (ErrUnsupportedExpression expr).

(** The loop of [evaluateAnd]: every part is evaluated, the first error
    ends it. *)
Fixpoint andLoop (single : string -> res bool) (parts : list string)
    (result : bool) : res bool :=
  match parts with
  | [] => Ok result
  | part :: rest =>
      let* val := single (TrimSpace part) in
      andLoop single rest (result && val)
  end.

(** The loop of [evaluateOr]: it breaks at the first true part. *)
Fixpoint orLoop (single : string -> res bool) (parts : list string)
    (result : bool) : res bool :=
  match parts with
  | [] => Ok result
  | part :: rest =>
      let* val := single (TrimSpace part) in
      let result := result || val in
      if result then Ok result else orLoop single rest result
  end.

Definition evaluateAnd_with (single : string -> res bool) (expr : string) : res bool :=
  andLoop single (Split expr "&&") true.

Definition evaluateOr_with (single : string -> res bool) (expr : string) : res bool :=
  orLoop single (Split expr "||") false.

(** [Evaluate] with a bound on the depth of the recursion through
    parentheses. *)
Fixpoint Evaluate_bounded (depth : nat) (expr : string) : res bool :=
  match depth with
  | O => Err ErrRecursionBound
  | S depth' =>
      let single := evaluateSingle_with (Evaluate_bounded depth') in
      let expr := removeComments expr in
      let expr := TrimSpace expr in
      if Contains expr "||" then evaluateOr_with single expr
      else if Contains expr "&&" then evaluateAnd_with single expr
      else single expr
  end.

(** Each level of parentheses removes at least two bytes, so the length
    of the expression bounds the depth. *)
Definition Evaluate (expr : string) : res bool :=
  Evaluate_bounded (S (String.length expr)) expr.

Definition evaluateSingle (expr : string) : res bool :=
  evaluateSingle_with (Evaluate_bounded (String.length expr)) expr.

End Evaluator.

(* ===================================================================== *)
(** ** The cookie extractor *)
(* ===================================================================== *)

(** [convertRustRegex]. *)
Definition convertRustRegex (pattern : string) : string :=
  let pattern := TrimPrefix pattern (String "r" (String squote "")) in
  let pattern := TrimPrefix pattern (String "r" (String dquote "")) in
  let pattern := TrimSuffix pattern (String squote "") in
  let pattern := TrimSuffix pattern (String dquote "") in
  pattern.

(** [CookieExtractor.ValidateCookie]: the expression is evaluated against
    a dummy response with status 200. *)
Definition dummyResponse : Response :=
  {| Status := 200; RespHeaders := []; RespBody := ""; Cookies := [] |}.

Definition ValidateCookie (expr cookie : string) : res bool :=
  if String.eqb expr "" then Ok true
  else Evaluate (Some dummyResponse) cookie expr.

Section Extraction.

(** Go's regexp package, for the patterns that come from the
    configuration: compilation ([None] for an error) and
    [FindStringSubmatch] (the empty list for nil). *)
Variable Regexp : Type.
Variable regexpCompile : string -> option Regexp.
Variable FindStringSubmatch : Regexp -> string -> list string.

(** The loop of [ExtractCookie] over the header map. *)
Fixpoint joinedHeaderValue (headerNameLower : string)
    (hs : list (string * list string)) : option string :=
  match hs with
  | [] => None
  | (k, v) :: rest =>
      if String.eqb (ToLower k) headerNameLower then
        match v with
        | _ :: _ => Some (Join v "; ")
        | [] => joinedHeaderValue headerNameLower rest
        end
      else joinedHeaderValue headerNameLower rest
  end.

(** [CookieExtractor.ExtractCookie]. *)
Definition ExtractCookie (expr : string) (response : option Response) : res string :=
  match response with
  | None => Err ErrNilResponse
  | Some response =>
      if Contains expr "response.headers.get" then
        match findCall "response.headers.get" expr with
        | None => Err (ErrParseHeaderGet expr)
        | Some headerName =>
            match joinedHeaderValue (ToLower headerName) (RespHeaders response) with
            | Some joined => Ok joined
            | None =>
                match Cookies response with
                | _ :: _ => Ok (Join (Cookies response) "; ")
                | [] => Ok ""
                end
            end
        end
      else if Contains expr "response.body.extract" then
        match findCall "response.body.extract" expr with
        | None => Err (ErrParseBodyExtract expr)
        | Some pattern =>
            let pattern := convertRustRegex pattern in
            match regexpCompile pattern with
            | None => Err (ErrInvalidRegexp pattern)
            | Some regex =>
                match FindStringSubmatch regex (RespBody response) with
                | _ :: m1 :: _ => Ok m1
                | _ => Ok ""
                end
            end
        end
      else if String.eqb expr "response.extracted_cookie" then
        Err ErrExtractedCookieNeedsContext
      else Err (ErrUnsupportedExtraction expr)
  end.

End Extraction.

(* ===================================================================== *)
(** ** The HTTP client *)
(* ===================================================================== *)

(** What one pass through the body of the retry loop ends in: the three
    places that set [lastErr] and [continue], or a response that was read. *)
Inductive attempt_outcome : Type :=
  | NewRequestFailed
  | DoFailed
  | ReadAllFailed
  | Readable (r : Response).

Definition outcome_error (o : attempt_outcome) : option error :=
  match o with
  | NewRequestFailed => Some ErrNewRequest
  | DoFailed => Some ErrDo
  | ReadAllFailed => Some ErrReadBody
  | Readable _ => None
  end.

(** [HTTPClient.StoreCookie] and [HTTPClient.GetStoredCookie] on the field
    [cookies]. *)
Definition StoreCookie (cookies : gmap string string) (cookieStr : string)
    : gmap string string :=
  <["extracted" := cookieStr]> cookies.

Definition GetStoredCookie (cookies : gmap string string) : string :=
  default "" (cookies !! "extracted").

(** [req.Header.Set(k, v)], on keys already in canonical form. *)
Fixpoint headerSet (k v : string) (h : list (string * string)) : list (string * string) :=
  match h with
  | [] => [(k, v)]
  | (k', v') :: rest =>
      if String.eqb k' k then (k, v) :: rest else (k', v') :: headerSet k v rest
  end.

(** The delay before attempt [i]: [time.Second * time.Duration(i*2)]. *)
Definition retryDelay (i : Z) : Z := wrap64 (Second * wrap64 (i * 2)).

(** The floor [ExecuteRequest] puts under [opts.Timeout]. *)
Definition floorTimeout (timeout : Z) : Z :=
  if timeout <? wrap64 (60 * Second) then wrap64 (60 * Second) else timeout.

Section Client.

(** The network and net/http: [World] is everything outside the
    process, [transport] sends one request (with the client's timeout)
    and reads the response, [canonicalKey] is
    [textproto.CanonicalMIMEHeaderKey]. *)
Variable World : Type.
Variable transport : Request -> World -> attempt_outcome * World.
Variable canonicalKey : string -> string.

Variable baseURL : string.

(** What a call leaves behind: the arguments of the calls of
    [time.Sleep] in order, the number of passes through the body of the
    retry loop (a ghost counter), and the world. *)
Record effects : Type := {
  slept : list Z;
  attempts : Z;
  world : World
}.

Definition buildURL (path : string) : string :=
  let url := TrimSuffix baseURL "/" in
  let path := if negb (HasPrefix path "/") then "/" ++ path else path in
  url ++ path.

(** The request every attempt sends: headers, then the cookie. *)
Definition buildRequest (cookies : gmap string string) (opts : RequestOptions) : Request :=
  let header :=
    fold_left (fun h kv => headerSet (canonicalKey (fst kv)) (snd kv) h)
              (optHeaders opts) [] in
  let header :=
    if negb (String.eqb (optUseCookie opts) "") then
      if String.eqb (optUseCookie opts) "response.extracted_cookie" then
        let cookieStr := GetStoredCookie cookies in
        if negb (String.eqb cookieStr "") then headerSet "Cookie" cookieStr header
        else header
      else headerSet "Cookie" (optUseCookie opts) header
    else header in
  {| reqMethod := optMethod opts;
     reqURL := buildURL (optPath opts);
     reqHeader := header;
     reqBody := optBody opts;
     reqTimeout := floorTimeout (optTimeout opts) |}.

(** The loop [for i := 0; i <= opts.RetryCount; i++] from the counter
    [i] on.  The counter is an int: [i++] wraps from MaxInt64 to
    MinInt64, so that for the count MaxInt64 the condition never fails
    and the loop ends with a readable response only.  [passes] bounds
    the passes the model follows; when they are used up and the
    condition still holds, the source is still in its loop and the model
    answers [ErrStillRetrying]. *)
Fixpoint retryLoop (req : Request) (retryCount : Z) (passes : nat) (i : Z)
    (lastErr : error) (eff : effects) : res Response * effects :=
  if i <=? retryCount then
    match passes with
    | O => (Err ErrStillRetrying, eff)
    | S passes' =>
        let eff :=
          if 0 <? i
          then {| slept := slept eff ++ [retryDelay i];
                  attempts := attempts eff; world := world eff |}
          else eff in
        let (outcome, w) := transport req (world eff) in
        let eff := {| slept := slept eff; attempts := attempts eff + 1; world := w |} in
        match outcome with
        | Readable r => (Ok r, eff)
        | NewRequestFailed =>
            retryLoop req retryCount passes' (wrap64 (i + 1)) ErrNewRequest eff
        | DoFailed =>
            retryLoop req retryCount passes' (wrap64 (i + 1)) ErrDo eff
        | ReadAllFailed =>
            retryLoop req retryCount passes' (wrap64 (i + 1)) ErrReadBody eff
        end
    end
  else (Err (ErrRetriesExhausted retryCount lastErr), eff).

(** [HTTPClient.ExecuteRequest].  The model follows the loop for
    [RetryCount + 1] passes.  For a count below MaxInt64 these are all
    the passes there can be: after them the counter is above the count
    and the loop is left with the error (and a negative count leaves it
    at once).  For the count MaxInt64 the counter has wrapped to
    MinInt64 after that many failed attempts and the source goes on
    retrying; there the model stops with [ErrStillRetrying]. *)
Definition ExecuteRequest (cookies : gmap string string) (opts : RequestOptions)
    (eff : effects) : res Response * effects :=
  retryLoop (buildRequest cookies opts) (optRetryCount opts)
            (Z.to_nat (optRetryCount opts + 1)) 0 ErrNil eff.

End Client.

(* ===================================================================== *)
(** ** The engine *)
(* ===================================================================== *)

(** The text [evaluateMainExpression] puts in the place of a rule. *)
Definition ruleResultText (ruleResults : gmap string bool) (ruleName : string) : string :=
  match (ruleResults !! ruleName : option bool) with
  | Some result => if result then "true" else "false"
  | None => "false"
  end.

(** The callback of the first replacement: [match] is a rule call. *)
Definition callReplacement (ruleResults : gmap string bool) (match_ : string) : string :=
  let ruleName := TrimSuffix match_ "()" in
  ruleResultText ruleResults ruleName.

(** The callback of the second replacement. *)
Definition nameReplacement (ruleResults : gmap string bool) (match_ : string) : string :=
  ruleResultText ruleResults match_.

(** [re1.ReplaceAllStringFunc(expr, f)] for [re1 = (\w+)\(\)].  A match is
    a run of word characters followed by the two parentheses; the
    leftmost one begins where a maximal run begins, and the greedy run
    takes all of it.  [cur] is the run read so far, in reverse. *)
Fixpoint replaceAllCalls (f : string -> string) (cur s : string) : string :=
  match s with
  | EmptyString => reverse cur
  | String c s' =>
      if isWordChar c then replaceAllCalls f (String c cur) s'
      else
        match s' with
        | String c' s'' =>
            if negb (String.eqb cur "") && Ascii.eqb c "(" && Ascii.eqb c' ")"
            then f (reverse cur ++ "()") ++ replaceAllCalls f "" s''
            else reverse cur ++ String c (replaceAllCalls f "" s')
        | EmptyString => reverse cur ++ String c ""
        end
  end.

Fixpoint allWordChars (s : string) : bool :=
  match s with
  | EmptyString => true
  | String c s' => isWordChar c && allWordChars s'
  end.

Fixpoint allDigits (s : string) : bool :=
  match s with
  | EmptyString => true
  | String c s' => isDigit c && allDigits s'
  end.

(** The words [r\d+]. *)
Definition isRuleName (w : string) : bool :=
  match w with
  | String c ds => Ascii.eqb c "r" && negb (String.eqb ds "") && allDigits ds
  | EmptyString => false
  end.

Definition replaceWord (f : string -> string) (cur : string) : string :=
  let w := reverse cur in
  if isRuleName w then f w else w.

(** [re2.ReplaceAllStringFunc(expr, f)] for [re2 = \b(r\d+)\b].  A match
    begins and ends at a word boundary and holds word characters only:
    it is a maximal run of word characters that reads [r] and digits. *)
Fixpoint replaceAllNames (f : string -> string) (cur s : string) : string :=
  match s with
  | EmptyString => replaceWord f cur
  | String c s' =>
      if isWordChar c then replaceAllNames f (String c cur) s'
      else replaceWord f cur ++ String c (replaceAllNames f "" s')
  end.

(** The text of the main expression after both replacements. *)
Definition substituteRules (ruleResults : gmap string bool) (expr : string) : string :=
  let expr := removeComments expr in
  let expr := TrimSpace expr in
  let expr := replaceAllCalls (callReplacement ruleResults) "" expr in
  replaceAllNames (nameReplacement ruleResults) "" expr.

(** The loop over the parts of a conjunction. *)
Fixpoint mainAndLoop (parts : list string) : bool :=
  match parts with
  | [] => true
  | part :: rest =>
      if String.eqb (TrimSpace part) "false" then false else mainAndLoop rest
  end.

(** The loop over the parts of a disjunction. *)
Fixpoint mainOrLoop (parts : list string) : bool :=
  match parts with
  | [] => false
  | part :: rest =>
      if String.eqb (TrimSpace part) "true" then true else mainOrLoop rest
  end.

(** [Engine.evaluateMainExpression]. *)
Definition evaluateMainExpression (ruleResults : gmap string bool) (expr : string) : res bool :=
  let expr := substituteRules ruleResults expr in
  if Contains expr "&&" then Ok (mainAndLoop (Split expr "&&"))
  else if Contains expr "||" then Ok (mainOrLoop (Split expr "||"))
  else Ok (String.eqb expr "true").

Section Engine.

Variable Regexp : Type.
Variable regexpCompile : string -> option Regexp.
Variable FindStringSubmatch : Regexp -> string -> list string.
Variable World : Type.
Variable transport : Request -> World -> attempt_outcome * World.
Variable canonicalKey : string -> string.
Variable baseURL : string.

(** The mutable part of [Engine] and of its [HTTPClient]. *)
Record Engine : Type := {
  ruleResults : gmap string bool;
  cookies : gmap string string;
  eff : effects World
}.

(** [NewEngine], in a given world. *)
Definition NewEngine (w : World) : Engine :=
  {| ruleResults := ∅; cookies := ∅;
     eff := {| slept := []; attempts := 0; world := w |} |}.

Definition ruleOptions (rule : Rule) : RequestOptions :=
  {| optMethod := Method rule;
     optPath := Path rule;
     optHeaders := Headers rule;
     optBody := GetBody rule;
     optUseCookie := UseCookie rule;
     optTimeout := GetTimeout rule;
     optRetryCount := GetRetryCount rule |}.

(** The block that extracts the cookie: an error of [ExtractCookie] and
    an empty cookie leave the store alone. *)
Definition extractStep (rule : Rule) (response : Response)
    (cookies : gmap string string) : gmap string string :=
  if negb (String.eqb (ExtractCookie_expr rule) "") then
    match ExtractCookie Regexp regexpCompile FindStringSubmatch
            (ExtractCookie_expr rule) (Some response) with
    | Ok cookie =>
        if negb (String.eqb cookie "") then StoreCookie cookies cookie
        else cookies
    | Err _ => cookies
    end
  else cookies.

(** The cookie the validation looks at. *)
Definition cookieToValidate (rule : Rule) (cookies : gmap string string) : string :=
  if negb (String.eqb (UseCookie rule) "") then
    if negb (String.eqb (UseCookie rule) "response.extracted_cookie")
    then UseCookie rule
    else GetStoredCookie cookies
  else GetStoredCookie cookies.

(** The block that validates the cookie. *)
Definition validateStep (rule : Rule) (cookies : gmap string string) : res unit :=
  if negb (String.eqb (CookieExpression rule) "") then
    match ValidateCookie (CookieExpression rule) (cookieToValidate rule cookies) with
    | Err err => Err (ErrCookieValidation err)
    | Ok valid => if negb valid then Err ErrCookieInvalid else Ok tt
    end
  else Ok tt.

(** The block that evaluates the expression of the rule. *)
Definition expressionStep (rule : Rule) (response : Response)
    (cookies : gmap string string) : res unit :=
  if negb (String.eqb (Expression rule) "") then
    let cookieStr := GetStoredCookie cookies in
    match Evaluate (Some response) cookieStr (Expression rule) with
    | Err err => Err (ErrExpressionEvaluation err)
    | Ok valid =>
        if negb valid then Err (ErrExpressionNotSatisfied (Expression rule))
        else Ok tt
    end
  else Ok tt.

(** [Engine.executeRule]. *)
Definition executeRule (ruleName : string) (rule : Rule) (e : Engine)
    : res bool * Engine :=
  let opts := ruleOptions rule in
  let (r, eff') :=
    ExecuteRequest World transport canonicalKey baseURL (cookies e) opts (eff e) in
  match r with
  | Err err =>
      (Err (ErrHTTPRequest err),
       {| ruleResults := ruleResults e; cookies := cookies e; eff := eff' |})
  | Ok response =>
      let cookies' := extractStep rule response (cookies e) in
      let e' := {| ruleResults := ruleResults e; cookies := cookies'; eff := eff' |} in
      match validateStep rule cookies' with
      | Err err => (Err err, e')
      | Ok _ =>
          match expressionStep rule response cookies' with
          | Err err => (Err err, e')
          | Ok _ => (Ok true, e')
          end
      end
  end.

(** The first loop of [Execute], over the rules in the order [range]
    yields them. *)
Fixpoint runRules (order : list (string * Rule)) (e : Engine) : res unit * Engine :=
  match order with
  | [] => (Ok tt, e)
  | (ruleName, rule) :: rest =>
      match executeRule ruleName rule e with
      | (Err err, e') => (Err (ErrExecuteRule ruleName err), e')
      | (Ok success, e') =>
          runRules rest
            {| ruleResults := <[ruleName := success]> (ruleResults e');
               cookies := cookies e'; eff := eff e' |}
      end
  end.

(** The last loop of [Execute]: no recorded result is false. *)
Definition allSucceeded (ruleResults : gmap string bool) : bool :=
  forallb snd (map_to_list ruleResults).

(** [Engine.Execute]; [order] lists [config.Rules] the way the
    [range] of this run goes through the map. *)
Definition Execute (config : POCConfig) (order : list (string * Rule)) (e : Engine)
    : res bool * Engine :=
  match runRules order e with
  | (Err err, e') => (Err err, e')
  | (Ok _, e') =>
      if negb (String.eqb (MainExpression config) "") then
        (evaluateMainExpression (ruleResults e') (MainExpression config), e')
      else (Ok (allSucceeded (ruleResults e')), e')
  end.

(** The language specification leaves the order of a [range] over a map
    open: every enumeration of the entries can occur. *)
Definition rangeOrder (config : POCConfig) (order : list (string * Rule)) : Prop :=
  order ≡ₚ map_to_list (Rules config).

End Engine.


(* ===================================================================== *)
(** ** Inputs used below *)
(* ===================================================================== *)

(** The recorded results [{r0: true, r1: false}]. *)
Definition results_r0_r1 : gmap string bool :=
  <["r0" := true]> (<["r1" := false]> ∅).

(** A rule named [login] that failed, next to [r0]. *)
Definition results_login : gmap string bool :=
  <["login" := false]> (<["r0" := true]> ∅).

(** A rule that only says how long to wait and how often to retry. *)
Definition plainRule (timeout retryCount : Z) : Rule :=
  {| Method := "GET"; Path := "/"; Timeout := timeout; RetryCount := retryCount;
     Headers := []; Body := []; ExtractCookie_expr := ""; UseCookie := "";
     CookieExpression := ""; Expression := "" |}.

Definition plainOptions (retryCount : Z) : RequestOptions :=
  {| optMethod := "GET"; optPath := "/"; optHeaders := []; optBody := "";
     optUseCookie := ""; optTimeout := 60 * Second; optRetryCount := retryCount |}.

Definition okResponse : Response :=
  {| Status := 200; RespHeaders := []; RespBody := ""; Cookies := [] |}.

(** A target that never answers. *)
Definition deadTransport (_ : Request) (w : unit) : attempt_outcome * unit :=
  (DoFailed, w).

(** A target that answers from the attempt with index [n] on; the world
    is the number of attempts made so far. *)
Definition answersFrom (n : Z) (_ : Request) (w : Z) : attempt_outcome * Z :=
  (if w <? n then DoFailed else Readable okResponse, w + 1).



(** *** The comparison of two values, in the words of the specification *)

(** The comparison operators in the order a single clause is searched
    for them. *)
Definition comparisonOperators : list string :=
  ["=="; "!="; ">="; "<="; ">"; "<"].

Definition firstOperator (e : string) : option string :=
  List.find (Contains e) comparisonOperators.

(** A clause that is neither parenthesized nor a containment test. *)
Definition isPlainClause (e : string) : bool :=
  negb (HasPrefix e "(" && HasSuffix e ")") &&
  negb (Contains e "response.body.contains") &&
  negb (Contains e "cookie.contains").

(** The integer an operand stands for: an integer value, or text that
    parses as one. *)
Definition asInteger (v : value) : option Z :=
  match v with
  | VInt n => Some n
  | VString s => Atoi s
  | VBool _ => None
  end.

(** Two values with the same textual representation: two strings with
    the same text, two integers that are equal, an integer and the string
    that is its decimal numeral, two equal booleans, a boolean and the
    string that is its word. *)
Definition sameText (a b : value) : Prop :=
  match a, b with
  | VString s, VString t => s = t
  | VInt m, VInt n => m = n
  | VInt n, VString t | VString t, VInt n => t = Itoa n
  | VBool x, VBool y => x = y
  | VBool x, VString t | VString t, VBool x => t = if x then "true" else "false"
  | VInt _, VBool _ | VBool _, VInt _ => False
  end.

(** What an ordering operator says of two integers. *)
Definition ordered (op : string) (x y : Z) : Prop :=
  (op = ">=" /\ x >= y) \/ (op = "<=" /\ x <= y) \/
  (op = ">" /\ x > y) \/ (op = "<" /\ x < y).

(** *** A target, two rules that hand a cookie over, and their orders *)

(** No pattern compiles: the rules below do not extract from the body. *)
Definition noRegexp : string -> option unit := fun _ => None.
Definition noSubmatch : unit -> string -> list string := fun _ _ => [].

Definition loginResponse : Response :=
  {| Status := 200;
     RespHeaders := [("Set-Cookie", ["sid=42; Path=/"])];
     RespBody := "welcome";
     Cookies := [] |}.

(** The target sets a session cookie at [/login] and answers 200
    everywhere; the world counts the requests. *)
Definition siteTransport (req : Request) (w : Z) : attempt_outcome * Z :=
  (Readable (if String.eqb (reqURL req) "http://target/login"
             then loginResponse else okResponse),
   w + 1).

Definition loginRule : Rule :=
  {| Method := "POST"; Path := "/login"; Timeout := 10; RetryCount := 3;
     Headers := []; Body := ["username=admin&password=admin"];
     ExtractCookie_expr := "response.headers.get('Set-Cookie')";
     UseCookie := ""; CookieExpression := "";
     Expression := "response.status==200" |}.

Definition adminRule : Rule :=
  {| Method := "GET"; Path := "/admin"; Timeout := 10; RetryCount := 3;
     Headers := []; Body := [];
     ExtractCookie_expr := "";
     UseCookie := "response.extracted_cookie";
     CookieExpression := "cookie.contains('sid')";
     Expression := "response.status==200" |}.

Definition chainConfig : POCConfig :=
  {| Rules := <["r0" := loginRule]> (<["r1" := adminRule]> ∅);
     MainExpression := "r0() && r1()" |}.

Definition declaredOrder : list (string * Rule) :=
  [("r0", loginRule); ("r1", adminRule)].

Definition reversedOrder : list (string * Rule) :=
  [("r1", adminRule); ("r0", loginRule)].

(** A rule whose cookie has to hold a session that nobody stored. *)
Definition sessionRule : Rule :=
  {| Method := "GET"; Path := "/admin"; Timeout := 10; RetryCount := 3;
     Headers := []; Body := []; ExtractCookie_expr := ""; UseCookie := "";
     CookieExpression := "cookie.contains('sid')"; Expression := "" |}.

(** A rule that expects a status the target does not send. *)
Definition notFoundRule : Rule :=
  {| Method := "GET"; Path := "/missing"; Timeout := 10; RetryCount := 3;
     Headers := []; Body := []; ExtractCookie_expr := ""; UseCookie := "";
     CookieExpression := ""; Expression := "response.status==404" |}.

(** A rule whose extraction expression has no supported form. *)
Definition badExtractionRule : Rule :=
  {| Method := "GET"; Path := "/"; Timeout := 10; RetryCount := 3;
     Headers := []; Body := []; ExtractCookie_expr := "response.cookie";
     UseCookie := ""; CookieExpression := "";
     Expression := "response.status==200" |}.

(** Two rules of which either is enough for the verdict: [first], and a
    rule that only asks for the front page; and the two orders in which
    the rules of this map can be met. *)
Definition eitherConfig (first : Rule) : POCConfig :=
  {| Rules := <["r0" := first]> (<["r1" := plainRule 10 3]> ∅);
     MainExpression := "r0() || r1()" |}.

Definition eitherOrder (first : Rule) : list (string * Rule) :=
  [("r0", first); ("r1", plainRule 10 3)].

Definition eitherOrderReversed (first : Rule) : list (string * Rule) :=
  [("r1", plainRule 10 3); ("r0", first)].

Definition oneRuleConfig (ruleName : string) (rule : Rule) (expr : string) : POCConfig :=
  {| Rules := <[ruleName := rule]> ∅; MainExpression := expr |}.

(** The rule without its extraction expression. *)
Definition withoutExtraction (rule : Rule) : Rule :=
  {| Method := Method rule; Path := Path rule; Timeout := Timeout rule;
     RetryCount := RetryCount rule; Headers := Headers rule; Body := Body rule;
     ExtractCookie_expr := ""; UseCookie := UseCookie rule;
     CookieExpression := CookieExpression rule; Expression := Expression rule |}.

(** A result that is not the bound of the recursion of the model. *)
Definition unbounded {A : Type} (r : res A) : Prop := r <> Err ErrRecursionBound.

(* ===================================================================== *)
(** ** The accessors of the engine, and vocabulary for further properties *)
(* ===================================================================== *)

(** [Engine.GetRuleResult]: the recorded result and whether there is one. *)
Definition GetRuleResult (ruleResults : gmap string bool) (ruleName : string)
    : bool * bool :=
  match (ruleResults !! ruleName : option bool) with
  | Some result => (result, true)
  | None => (false, false)
  end.

(** [Engine.GetAllRuleResults]. *)
Definition GetAllRuleResults (ruleResults : gmap string bool) : gmap string bool :=
  ruleResults.

(** The results after the rules of [order] all succeeded. *)
Definition recordAll (order : list (string * Rule)) (ruleResults : gmap string bool)
    : gmap string bool :=
  fold_left (fun m nr => <[fst nr := true]> m) order ruleResults.

(** [n] attempts with [req] from the world [w] on all fail; [lastErr]
    becomes [e], the error of the last of them (or stays, for no attempt),
    and the world becomes [w']. *)
Inductive attemptsFail {World : Type}
    (transport : Request -> World -> attempt_outcome * World) (req : Request)
    : nat -> World -> error -> error -> World -> Prop :=
  | fail_none (w : World) (e : error) :
      attemptsFail transport req O w e e w
  | fail_more (n : nat) (w w1 w' : World) (o : attempt_outcome) (e0 e1 e : error) :
      transport req w = (o, w1) ->
      outcome_error o = Some e1 ->
      attemptsFail transport req n w1 e1 e w' ->
      attemptsFail transport req (S n) w e0 e w'.

(** The waits of [n] passes through the retry loop from counter [i] on:
    one before every pass with a positive counter. *)
Definition waitsOver (i : Z) (n : nat) : list Z :=
  flat_map (fun k => if 0 <? i + Z.of_nat k then [retryDelay (i + Z.of_nat k)] else [])
           (seq 0 n).

(** The value of a header of a request. *)
Fixpoint headerGet (k : string) (h : list (string * string)) : option string :=
  match h with
  | [] => None
  | (k', v) :: rest => if String.eqb k' k then Some v else headerGet k rest
  end.

(** The headers of a request before the cookie directive is looked at. *)
Definition ruleHeaders (canonicalKey : string -> string)
    (headers : list (string * string)) : list (string * string) :=
  fold_left (fun h kv => headerSet (canonicalKey (fst kv)) (snd kv) h) headers [].

(** No byte of the string is a quote. *)
Fixpoint quoteFree (s : string) : bool :=
  match s with
  | EmptyString => true
  | String c s' => negb (isQuote c) && quoteFree s'
  end.

(** Every header name of the response is a string of ASCII bytes. *)
Definition asciiKeys (hs : list (string * list string)) : bool :=
  forallb (fun kv => isASCII (fst kv)) hs.

(** The header map with every key in lower case. *)
Definition lowerKeys (hs : list (string * list string)) : list (string * list string) :=
  List.map (fun kv => (ToLower (fst kv), snd kv)) hs.

(** A target that fails to answer in three different ways, then goes on
    failing; the world is the number of attempts made so far. *)
Definition flakyTransport (_ : Request) (w : Z) : attempt_outcome * Z :=
  (if w =? 0 then NewRequestFailed
   else if w =? 1 then DoFailed
   else ReadAllFailed,
   w + 1).

(** The text of a call [fname(Q text Q)] with the two quotes [q] and [q']. *)
Definition callText (fname : string) (q : ascii) (text : string) (q' : ascii) : string :=
  (fname ++ "(" ++ String q (text ++ String q' ")"))%string.

(** A response with other headers. *)
Definition withHeaders (r : Response) (hs : list (string * list string)) : Response :=
  {| Status := Status r; RespHeaders := hs; RespBody := RespBody r;
     Cookies := Cookies r |}.

(** A target whose header names are in lower case. *)
Definition lowerResponse : Response :=
  {| Status := 200;
     RespHeaders := [("content-type", ["text/html"]);
                     ("set-cookie", ["sid=42"; "lang=en"])];
     RespBody := "<h1>admin</h1>";
     Cookies := ["theme=dark"] |}.

(** A stand-in for the regexp package that knows one pattern, a session
    number, and finds it in one body. *)
Definition sessionCompile (pattern : string) : option unit :=
  if String.eqb pattern "sid=(\d+)" then Some tt else None.

Definition sessionSubmatch (_ : unit) (body : string) : list string :=
  if Contains body "sid=42" then ["sid=42"; "42"] else [].

(* ===================================================================== *)
(** ** Properties of the main expression *)
(* ===================================================================== *)

Lemma ruleResultText_known (results : gmap string bool) name (b : bool) :
  results !! name = Some b ->
  ruleResultText results name = if b then "true" else "false".
Proof. intros H. unfold ruleResultText. rewrite H. reflexivity. Qed.

Lemma ruleResultText_unknown (results : gmap string bool) name :
  results !! name = None -> ruleResultText results name = "false".
Proof. intros H. unfold ruleResultText. rewrite H. reflexivity. Qed.

(** Evaluation in stages: the replacement callbacks are kept abstract, and
    each pass is computed once the text it reads is known. *)
Ltac compute_trim :=
  match goal with
  | |- context [TrimSpace ?s] =>
      let t := eval vm_compute in (TrimSpace s) in
      change (TrimSpace s) with t
  end.

Ltac compute_calls :=
  match goal with
  | |- context [replaceAllCalls ?g ?c ?s] =>
      let t := eval cbv in (replaceAllCalls g c s) in
      change (replaceAllCalls g c s) with t
  end.

Ltac compute_names :=
  match goal with
  | |- context [replaceAllNames ?g ?c ?s] =>
      let t := eval cbv in (replaceAllNames g c s) in
      change (replaceAllNames g c s) with t
  end.

Ltac abstract_results results :=
  unfold substituteRules, callReplacement, nameReplacement;
  generalize dependent (ruleResultText results); intro.

(** C1: with r0 recorded true and r1 recorded false, [r0 && r1] becomes
    [true && false] and evaluates to false, [r0() || r1()] becomes
    [true || false] and evaluates to true; an identifier [r2] without a
    recorded result becomes [false] and evaluates to false. *)
Theorem C1_aggregate_expression (results : gmap string bool) :
  results !! "r0" = Some true ->
  results !! "r1" = Some false ->
  results !! "r2" = None ->
  (substituteRules results "r0 && r1" = "true && false" /\
   evaluateMainExpression results "r0 && r1" = Ok false) /\
  (substituteRules results "r0() || r1()" = "true || false" /\
   evaluateMainExpression results "r0() || r1()" = Ok true) /\
  (substituteRules results "r2" = "false" /\
   evaluateMainExpression results "r2" = Ok false).
Proof.
  intros H0 H1 H2.
  apply ruleResultText_known in H0, H1. apply ruleResultText_unknown in H2.
  assert (E1 : substituteRules results "r0 && r1" = "true && false").
  { clear H2. abstract_results results. intros H0 H1.
    compute_trim. compute_calls. compute_names. rewrite H0, H1. reflexivity. }
  assert (E2 : substituteRules results "r0() || r1()" = "true || false").
  { clear H2 E1. abstract_results results. intros H0 H1.
    compute_trim. compute_calls. rewrite H0, H1. compute_names. reflexivity. }
  assert (E3 : substituteRules results "r2" = "false").
  { clear H0 H1 E1 E2. abstract_results results. intros H2.
    compute_trim. compute_calls. compute_names. rewrite H2. reflexivity. }
  unfold evaluateMainExpression. rewrite E1, E2, E3.
  repeat split; reflexivity.
Qed.

Lemma C1_aggregate_expression_witness :
  (substituteRules results_r0_r1 "r0 && r1" = "true && false" /\
   evaluateMainExpression results_r0_r1 "r0 && r1" = Ok false) /\
  (substituteRules results_r0_r1 "r0() || r1()" = "true || false" /\
   evaluateMainExpression results_r0_r1 "r0() || r1()" = Ok true) /\
  (substituteRules results_r0_r1 "r2" = "false" /\
   evaluateMainExpression results_r0_r1 "r2" = Ok false).
Proof.
  apply (C1_aggregate_expression results_r0_r1); vm_compute; reflexivity.
Defined.

(** *** Strings of word characters pass through the preparation *)

Lemma append_assoc (s t u : string) :
  (s ++ (t ++ u))%string = ((s ++ t) ++ u)%string.
Proof. induction s; simpl; congruence. Qed.

Lemma rev_acc_app (s acc : string) :
  rev_acc s acc = (reverse s ++ acc)%string.
Proof.
  unfold reverse. revert acc.
  induction s as [|c s IH]; intros acc; simpl; [reflexivity|].
  rewrite IH, (IH (String c "")), <- append_assoc. reflexivity.
Qed.

Lemma append_empty_r (s : string) : (s ++ "")%string = s.
Proof. induction s; simpl; congruence. Qed.

Lemma reverse_app (s t : string) :
  reverse (s ++ t) = (reverse t ++ reverse s)%string.
Proof.
  induction s as [|c s IH]; simpl.
  - symmetry. apply append_empty_r.
  - unfold reverse at 1. simpl. rewrite rev_acc_app, IH.
    unfold reverse at 4. simpl. rewrite (rev_acc_app s (String c "")).
    rewrite append_assoc. reflexivity.
Qed.

Lemma reverse_involutive (s : string) : reverse (reverse s) = s.
Proof.
  induction s as [|c s IH]; [reflexivity|].
  unfold reverse at 2. simpl. rewrite rev_acc_app, reverse_app, IH.
  reflexivity.
Qed.

Lemma allWordChars_app (s t : string) :
  allWordChars (s ++ t) = allWordChars s && allWordChars t.
Proof.
  induction s as [|c s IH]; simpl; [reflexivity|].
  rewrite IH. apply andb_assoc.
Qed.

Lemma allWordChars_reverse (s : string) :
  allWordChars (reverse s) = allWordChars s.
Proof.
  induction s as [|c s IH]; [reflexivity|].
  unfold reverse. simpl. rewrite rev_acc_app, allWordChars_app, IH. simpl.
  rewrite andb_true_r. apply andb_comm.
Qed.

(** A word character is neither [#] nor the first or the last byte of an
    encoding of white space. *)
Lemma wordChar_not_hash (c : ascii) :
  isWordChar c = true -> Ascii.eqb "#" c = false.
Proof.
  destruct c as [[] [] [] [] [] [] [] []]; vm_compute; congruence.
Qed.

Lemma wordChar_spaceWidth (c : ascii) (s : string) :
  isWordChar c = true ->
  spaceWidth spaceEncodings (String c s) = O /\
  spaceWidth (List.map reverse spaceEncodings) (String c s) = O.
Proof.
  destruct c as [[] [] [] [] [] [] [] []]; vm_compute; intros H;
    first [discriminate H | split; reflexivity].
Qed.

Lemma removeComments_word (w : string) :
  allWordChars w = true -> removeComments w = w.
Proof.
  intros Hw.
  assert (Hi : Index w "#" = -1).
  { induction w as [|c w IH]; [reflexivity|].
    simpl in Hw. apply andb_true_iff in Hw as [Hc Hw].
    cbn [Index HasPrefix]. rewrite (wordChar_not_hash c Hc). simpl.
    rewrite (IH Hw). reflexivity. }
  unfold removeComments. rewrite Hi. reflexivity.
Qed.

Lemma trimLeftSpace_word (w : string) :
  allWordChars w = true ->
  trimLeftSpace spaceEncodings 0 w = w /\
  trimLeftSpace (List.map reverse spaceEncodings) 0 w = w.
Proof.
  destruct w as [|c w]; [split; reflexivity|].
  intros Hw. simpl in Hw. apply andb_true_iff in Hw as [Hc _].
  destruct (wordChar_spaceWidth c w Hc) as [H1 H2].
  cbn [trimLeftSpace]. rewrite H1, H2. split; reflexivity.
Qed.

Lemma TrimSpace_word (w : string) :
  allWordChars w = true -> TrimSpace w = w.
Proof.
  intros Hw. unfold TrimSpace.
  rewrite (proj1 (trimLeftSpace_word w Hw)).
  rewrite (proj2 (trimLeftSpace_word (reverse w)
                    (eq_trans (allWordChars_reverse w) Hw))).
  apply reverse_involutive.
Qed.

Lemma replaceAllCalls_word (f : string -> string) (cur w : string) :
  allWordChars w = true ->
  replaceAllCalls f cur w = reverse (rev_acc w cur).
Proof.
  revert cur. induction w as [|c w IH]; intros cur Hw; [reflexivity|].
  simpl in Hw. apply andb_true_iff in Hw as [Hc Hw].
  simpl. rewrite Hc. apply IH, Hw.
Qed.

Lemma replaceAllNames_word (f : string -> string) (cur w : string) :
  allWordChars w = true ->
  replaceAllNames f cur w = replaceWord f (rev_acc w cur).
Proof.
  revert cur. induction w as [|c w IH]; intros cur Hw; [reflexivity|].
  simpl in Hw. apply andb_true_iff in Hw as [Hc Hw].
  simpl. rewrite Hc. apply IH, Hw.
Qed.

(** A bare word is replaced exactly when it reads [r] and digits. *)
Lemma substituteRules_word (results : gmap string bool) (w : string) :
  allWordChars w = true ->
  substituteRules results w =
    if isRuleName w then ruleResultText results w else w.
Proof.
  intros Hw. unfold substituteRules.
  rewrite (removeComments_word w Hw), (TrimSpace_word w Hw).
  rewrite (replaceAllCalls_word _ "" w Hw).
  fold (reverse w). rewrite reverse_involutive.
  rewrite (replaceAllNames_word _ "" w Hw).
  fold (reverse w). unfold replaceWord, nameReplacement.
  rewrite reverse_involutive. reflexivity.
Qed.

Lemma mainAndLoop_false (parts : list string) :
  mainAndLoop parts = false <->
  exists part, In part parts /\ TrimSpace part = "false".
Proof.
  induction parts as [|p parts IH]; simpl.
  - split; [discriminate | intros (? & [] & _)].
  - destruct (String.eqb (TrimSpace p) "false") eqn:E.
    + apply String.eqb_eq in E. split; [|reflexivity].
      intros _. exists p. split; [left; reflexivity | exact E].
    + apply String.eqb_neq in E. rewrite IH. split.
      * intros (q & Hq & Hf). exists q. split; [right; exact Hq | exact Hf].
      * intros (q & [Hq | Hq] & Hf); [subst q; contradiction|].
        exists q. split; assumption.
Qed.

(** C10: a bare word of word characters is replaced only when it reads
    [r] and digits; when the text after the replacements contains [&&],
    the result is false exactly when some part between the [&&], once
    trimmed, is the text [false], and true otherwise; so the bare name
    [login] of a rule recorded as false stays in the text and the
    conjunction [login && r0] is true, while the call [login()] makes it
    false. *)
Theorem C10_conjunction_residue (results : gmap string bool) :
  (forall w : string,
     allWordChars w = true -> isRuleName w = false ->
     substituteRules results w = w) /\
  (forall expr : string,
     Contains (substituteRules results expr) "&&" = true ->
     (evaluateMainExpression results expr = Ok false <->
      exists part,
        In part (Split (substituteRules results expr) "&&") /\
        TrimSpace part = "false") /\
     ((forall part,
        In part (Split (substituteRules results expr) "&&") ->
        TrimSpace part <> "false") ->
      evaluateMainExpression results expr = Ok true)) /\
  (results !! "login" = Some false ->
   results !! "r0" = Some true ->
   isRuleName "login" = false /\
   substituteRules results "login && r0" = "login && true" /\
   evaluateMainExpression results "login && r0" = Ok true /\
   evaluateMainExpression results "login() && r0" = Ok false).
Proof.
  split; [|split].
  - intros w Hw Hr. rewrite (substituteRules_word results w Hw), Hr.
    reflexivity.
  - intros expr Hc. unfold evaluateMainExpression. rewrite Hc.
    rewrite <- mainAndLoop_false. split.
    + split; [congruence | intros ->; reflexivity].
    + intros Hall.
      destruct (mainAndLoop _) eqn:E; [reflexivity|].
      apply mainAndLoop_false in E as (part & Hin & Hf).
      destruct (Hall part Hin Hf).
  - intros Hl H0.
    apply ruleResultText_known in Hl, H0.
    assert (E1 : substituteRules results "login && r0" = "login && true").
    { clear Hl. abstract_results results. intros H0.
      compute_trim. compute_calls. compute_names. rewrite H0. reflexivity. }
    assert (E2 : substituteRules results "login() && r0" = "false && true").
    { clear E1. abstract_results results. intros Hl H0.
      compute_trim. compute_calls. rewrite Hl. compute_names.
      rewrite H0. reflexivity. }
    unfold evaluateMainExpression. rewrite E1, E2.
    repeat split; reflexivity.
Qed.

Lemma C10_conjunction_residue_witness :
  substituteRules results_login "login" = "login" /\
  (evaluateMainExpression results_login "login && r0" = Ok true /\
   evaluateMainExpression results_login "r0 && login" = Ok true) /\
  evaluateMainExpression results_login "login() && r0" = Ok false.
Proof.
  destruct (C10_conjunction_residue results_login) as (Hword & Hand & Hex).
  split; [|split].
  - apply Hword; reflexivity.
  - split.
    + apply (Hex ltac:(reflexivity) ltac:(reflexivity)).
    + apply (Hand "r0 && login"); [vm_compute; reflexivity|].
      vm_compute. intros part [<- | [<- | []]]; discriminate.
  - apply (Hex ltac:(reflexivity) ltac:(reflexivity)).
Defined.

(* ===================================================================== *)
(** ** Properties of the request executor *)
(* ===================================================================== *)

Lemma wrap64_small (z : Z) : MinInt64 <= z <= MaxInt64 -> wrap64 z = z.
Proof.
  unfold MinInt64, MaxInt64, wrap64. intros H.
  rewrite Z.mod_small; lia.
Qed.

Lemma sixty_seconds : wrap64 (60 * Second) = 60000000000.
Proof. reflexivity. Qed.

Lemma GetTimeout_floor (rule : Rule) : 60 * Second <= GetTimeout rule.
Proof.
  unfold GetTimeout. rewrite sixty_seconds. unfold Second.
  destruct (Z.leb_spec (Timeout rule) 0); [lia|].
  destruct (Z.ltb_spec (wrap64 (Timeout rule * 1000000000)) 60000000000); lia.
Qed.

Lemma GetTimeout_max (rule : Rule) :
  Timeout rule <= 9223372036 ->
  GetTimeout rule = Z.max (Timeout rule) 60 * Second.
Proof.
  intros Hmax. unfold GetTimeout. rewrite sixty_seconds. unfold Second.
  destruct (Z.leb_spec (Timeout rule) 0); [lia|].
  rewrite wrap64_small by (unfold MinInt64, MaxInt64; lia).
  destruct (Z.ltb_spec (Timeout rule * 1000000000) 60000000000); lia.
Qed.

Lemma floorTimeout_GetTimeout (rule : Rule) :
  floorTimeout (GetTimeout rule) = GetTimeout rule.
Proof.
  unfold floorTimeout. pose proof (GetTimeout_floor rule) as H.
  rewrite sixty_seconds. unfold Second in H.
  destruct (Z.ltb_spec (GetTimeout rule) 60000000000); [lia | reflexivity].
Qed.

(** C5, amended: for a declared timeout of at most 9223372036 seconds
    (the whole seconds a [time.Duration] can hold) the timeout of the
    request is max(t, 60) seconds, so 60 seconds for t = 0 and t = 30 and
    90 seconds for t = 90; for every declared timeout the floor of
    [ExecuteRequest] leaves the value of [GetTimeout] as it is: the two
    floors do not add up, and the result is never under 60 seconds. *)
Theorem C5_timeout_floor (canonicalKey : string -> string) (baseURL : string)
    (cookies : gmap string string) (rule : Rule) :
  let effective :=
    reqTimeout (buildRequest canonicalKey baseURL cookies (ruleOptions rule)) in
  (Timeout rule <= 9223372036 ->
   effective = Z.max (Timeout rule) 60 * Second) /\
  (Timeout rule = 0 \/ Timeout rule = 30 -> effective = 60 * Second) /\
  (Timeout rule = 90 -> effective = 90 * Second) /\
  effective = GetTimeout rule /\
  floorTimeout (floorTimeout (GetTimeout rule)) = GetTimeout rule /\
  60 * Second <= effective.
Proof.
  cbn zeta. cbn [buildRequest reqTimeout ruleOptions optTimeout].
  rewrite !floorTimeout_GetTimeout.
  repeat split.
  - apply GetTimeout_max.
  - intros H. rewrite GetTimeout_max by lia. destruct H as [-> | ->]; reflexivity.
  - intros H. rewrite GetTimeout_max by lia. rewrite H. reflexivity.
  - apply GetTimeout_floor.
Qed.

Lemma C5_timeout_floor_witness :
  reqTimeout (buildRequest id "http://target" ∅ (ruleOptions (plainRule 3600 0)))
    = 3600 * Second /\
  reqTimeout (buildRequest id "http://target" ∅ (ruleOptions (plainRule 30 0)))
    = 60 * Second /\
  reqTimeout (buildRequest id "http://target" ∅ (ruleOptions (plainRule 90 0)))
    = 90 * Second.
Proof.
  split; [|split].
  - destruct (C5_timeout_floor id "http://target" ∅ (plainRule 3600 0))
      as (Hmax & _).
    apply Hmax. simpl. lia.
  - destruct (C5_timeout_floor id "http://target" ∅ (plainRule 30 0))
      as (_ & H30 & _).
    apply H30. right. reflexivity.
  - destruct (C5_timeout_floor id "http://target" ∅ (plainRule 90 0))
      as (_ & _ & H90 & _).
    apply H90. reflexivity.
Defined.

(** C5 as stated fails: 9223372037 seconds do not fit a [time.Duration],
    the product wraps to a negative number and the floor answers 60
    seconds, not max(t, 60) seconds. *)
Lemma C5_counterexample :
  let rule := plainRule 9223372037 0 in
  let effective :=
    reqTimeout (buildRequest id "http://target" ∅ (ruleOptions rule)) in
  in_int64 (Timeout rule) /\
  wrap64 (Timeout rule * Second) = -9223372036709551616 /\
  effective = 60 * Second /\
  effective <> Z.max (Timeout rule) 60 * Second.
Proof.
  cbn zeta. split; [|split; [|split]].
  - unfold in_int64, MinInt64, MaxInt64. simpl. lia.
  - reflexivity.
  - reflexivity.
  - vm_compute. discriminate.
Qed.

(** *** The retry loop *)

Section RetryLoop.

Variable World : Type.
Variable transport : Request -> World -> attempt_outcome * World.



End RetryLoop.

Lemma GetRetryCount_nonpositive (rule : Rule) :
  RetryCount rule <= 0 -> GetRetryCount rule = 1.
Proof.
  intros H. unfold GetRetryCount.
  destruct (Z.leb_spec (RetryCount rule) 0); [reflexivity | lia].
Qed.

(** C4, amended: a declared retry count of zero or less becomes the
    count 1, and with it the loop makes one attempt when that attempt
    yields a readable response and otherwise a second one, after a wait of
    two seconds: at least one attempt, at most two. *)
Theorem C4_retry_count_floor (World : Type)
    (transport : Request -> World -> attempt_outcome * World)
    (canonicalKey : string -> string) (baseURL : string)
    (cookies : gmap string string) (rule : Rule) (eff : effects World) :
  RetryCount rule <= 0 ->
  let req := buildRequest canonicalKey baseURL cookies (ruleOptions rule) in
  let run :=
    ExecuteRequest World transport canonicalKey baseURL cookies
      (ruleOptions rule) eff in
  optRetryCount (ruleOptions rule) = 1 /\
  (attempts World (snd run) = attempts World eff + 1 \/
   attempts World (snd run) = attempts World eff + 2) /\
  (forall r w,
     transport req (world World eff) = (Readable r, w) ->
     run = (Ok r, {| slept := slept World eff;
                     attempts := attempts World eff + 1;
                     world := w |})) /\
  (forall o w,
     transport req (world World eff) = (o, w) ->
     outcome_error o <> None ->
     attempts World (snd run) = attempts World eff + 2 /\
     slept World (snd run) = (slept World eff ++ [2 * Second])%list).
Proof.
  intros Hle req run.
  assert (Hone : optRetryCount (ruleOptions rule) = 1)
    by (apply GetRetryCount_nonpositive, Hle).
  assert (Hrun : run = retryLoop World transport req 1 2 0 ErrNil eff).
  { subst run. unfold ExecuteRequest. rewrite Hone. reflexivity. }
  split; [exact Hone|].
  rewrite Hrun. cbn [retryLoop].
  change (wrap64 (0 + 1)) with 1. change (wrap64 (1 + 1)) with 2.
  change (0 <=? 1) with true. change (1 <=? 1) with true.
  change (2 <=? 1) with false. change (0 <? 0) with false.
  change (0 <? 1) with true. cbv iota.
  destruct (transport req (world World eff)) as [o w] eqn:Ho.
  cbn [slept attempts world].
  destruct (transport req w) as [o' w''] eqn:Ho'.
  split; [|split].
  - destruct o; destruct o'; cbn [snd attempts]; lia.
  - intros r w0 [= -> ->]. reflexivity.
  - intros o0 w0 [= -> ->] Hfail.
    destruct o0; try (exfalso; apply Hfail; reflexivity);
      destruct o'; cbn [snd attempts slept]; (split; [lia | reflexivity]).
Qed.

Lemma C4_retry_count_floor_witness :
  attempts Z
    (snd (ExecuteRequest Z (answersFrom 0) id "http://target" ∅
            (ruleOptions (plainRule 60 0))
            {| slept := []; attempts := 0; world := 0 |})) = 1 /\
  attempts Z
    (snd (ExecuteRequest Z (answersFrom 1) id "http://target" ∅
            (ruleOptions (plainRule 60 (-3)))
            {| slept := []; attempts := 0; world := 0 |})) = 2.
Proof.
  split.
  - destruct (C4_retry_count_floor Z (answersFrom 0) id "http://target" ∅
                (plainRule 60 0) {| slept := []; attempts := 0; world := 0 |})
      as (_ & _ & Hfirst & _); [simpl; lia|].
    rewrite (Hfirst okResponse 1); reflexivity.
  - destruct (C4_retry_count_floor Z (answersFrom 1) id "http://target" ∅
                (plainRule 60 (-3)) {| slept := []; attempts := 0; world := 0 |})
      as (_ & _ & _ & Hsecond); [simpl; lia|].
    apply (Hsecond DoFailed 1); [reflexivity | discriminate].
Defined.

(** C4 as stated fails: with a declared retry count of 0 and a target that
    does not answer, the executor makes two attempts and waits two seconds
    between them. *)
Lemma C4_counterexample :
  let rule := plainRule 60 0 in
  let run :=
    ExecuteRequest unit deadTransport id "http://target" ∅ (ruleOptions rule)
      {| slept := []; attempts := 0; world := tt |} in
  RetryCount rule <= 0 /\
  run = (Err (ErrRetriesExhausted 1 ErrDo),
         {| slept := [2 * Second]; attempts := 2; world := tt |}) /\
  attempts unit (snd run) <> 1.
Proof.
  cbn zeta. split; [simpl; lia|]. split; [reflexivity|].
  vm_compute. discriminate.
Qed.






(* ===================================================================== *)
(** ** Properties of the expression evaluator *)
(* ===================================================================== *)

(** *** The bound on the recursion is never reached *)

Lemma length_rev_acc (s acc : string) :
  String.length (rev_acc s acc) = (String.length s + String.length acc)%nat.
Proof.
  revert acc. induction s as [|c s IH]; intros acc; simpl; [reflexivity|].
  rewrite IH. simpl. lia.
Qed.

Lemma length_reverse (s : string) : String.length (reverse s) = String.length s.
Proof. unfold reverse. rewrite length_rev_acc. simpl. lia. Qed.

Lemma length_trimLeftSpace (encs : list string) (skip : nat) (s : string) :
  (String.length (trimLeftSpace encs skip s) <= String.length s)%nat.
Proof.
  revert skip. induction s as [|c s IH]; intros skip; [simpl; lia|].
  cbn [trimLeftSpace]. destruct skip as [|k].
  - destruct (spaceWidth encs (String c s)) as [|k]; [lia|].
    specialize (IH k). simpl. lia.
  - specialize (IH k). simpl. lia.
Qed.

Lemma length_TrimSpace (s : string) :
  (String.length (TrimSpace s) <= String.length s)%nat.
Proof.
  unfold TrimSpace. rewrite length_reverse.
  etransitivity; [apply length_trimLeftSpace|].
  rewrite length_reverse. apply length_trimLeftSpace.
Qed.

Lemma length_substring_0 (n : nat) (s : string) :
  (String.length (String.substring 0 n s) <= String.length s)%nat.
Proof.
  revert n. induction s as [|c s IH]; intros [|n]; simpl; try lia.
  specialize (IH n). lia.
Qed.

Lemma length_removeComments (s : string) :
  (String.length (removeComments s) <= String.length s)%nat.
Proof.
  unfold removeComments, slice_to.
  destruct (negb (Index s "#" =? -1)); [apply length_substring_0 | lia].
Qed.

Lemma length_split_go (sep : string) (s : string) :
  forall (skip : nat) (cur part : string),
    In part (split_go sep skip cur s) ->
    (String.length part <= String.length cur + String.length s)%nat.
Proof.
  induction s as [|c s IH]; intros skip cur part Hin.
  - simpl in Hin. destruct Hin as [<- | []]. rewrite length_reverse. lia.
  - cbn [split_go] in Hin. destruct skip as [|k].
    + destruct (HasPrefix (String c s) sep).
      * destruct Hin as [<- | Hin].
        -- rewrite length_reverse. lia.
        -- apply IH in Hin. simpl in *. lia.
      * apply IH in Hin. simpl in *. lia.
    + apply IH in Hin. simpl. lia.
Qed.

Lemma length_Split (s sep part : string) :
  In part (Split s sep) -> (String.length part <= String.length s)%nat.
Proof. intros Hin. apply length_split_go in Hin. simpl in Hin. exact Hin. Qed.

Lemma length_trimLeftCutset (cutset s : string) :
  (String.length (trimLeftCutset cutset s) <= String.length s)%nat.
Proof.
  induction s as [|c s IH]; simpl; [lia|].
  destruct (inCutset cutset c); simpl; lia.
Qed.

Lemma length_Trim_parenthesized (s : string) :
  HasPrefix s "(" = true ->
  (String.length (Trim s "()") < String.length s)%nat.
Proof.
  destruct s as [|c s]; [discriminate|].
  cbn [HasPrefix]. rewrite andb_true_r. intros Hc.
  apply Ascii.eqb_eq in Hc. subst c.
  unfold Trim. rewrite length_reverse.
  eapply Nat.le_lt_trans; [apply length_trimLeftCutset|].
  rewrite length_reverse.
  change (trimLeftCutset "()" (String "(" s)) with (trimLeftCutset "()" s).
  pose proof (length_trimLeftCutset "()" s). simpl. lia.
Qed.

Section Totality.

Variable response : option Response.
Variable cookie : string.

Lemma unbounded_bind {A B : Type} (r : res A) (k : A -> res B) :
  unbounded r -> (forall a, unbounded (k a)) -> unbounded (bind r k).
Proof.
  intros Hr Hk. destruct r as [a | e]; simpl; [apply Hk|].
  intros [= ->]. apply Hr. reflexivity.
Qed.

Lemma evaluateContains_unbounded (expr : string) :
  unbounded (evaluateContains response expr).
Proof.
  unfold evaluateContains.
  destruct (findCall _ _); [destruct response|]; discriminate.
Qed.

Lemma evaluateCookieContains_unbounded (expr : string) :
  unbounded (evaluateCookieContains cookie expr).
Proof. unfold evaluateCookieContains. destruct (findCall _ _); discriminate. Qed.

Lemma evaluateHeaderGet_unbounded (expr : string) :
  unbounded (evaluateHeaderGet response expr).
Proof.
  unfold evaluateHeaderGet.
  destruct (findCall _ _); [destruct response|]; discriminate.
Qed.

Lemma evaluateValue_unbounded (expr : string) :
  unbounded (evaluateValue response cookie expr).
Proof.
  unfold evaluateValue.
  repeat match goal with
         | |- unbounded (if ?c then _ else _) => destruct c
         | |- unbounded (match ?o with Some _ => _ | None => _ end) => destruct o
         end;
    try discriminate;
    apply unbounded_bind;
    first [ apply evaluateContains_unbounded
          | apply evaluateCookieContains_unbounded
          | apply evaluateHeaderGet_unbounded
          | intros; discriminate ].
Qed.

Lemma evaluateNumericValue_unbounded (expr : string) :
  unbounded (evaluateNumericValue response cookie expr).
Proof.
  unfold evaluateNumericValue. apply unbounded_bind.
  - apply evaluateValue_unbounded.
  - intros [s | n | b]; [destruct (Atoi s)| |]; discriminate.
Qed.

Lemma evaluateComparison_unbounded (expr op : string)
    (compare : value -> value -> bool) :
  unbounded (evaluateComparison response cookie expr op compare).
Proof.
  unfold evaluateComparison.
  destruct (Split expr op) as [|p0 [|p1 [|p2 ps]]]; try discriminate.
  apply unbounded_bind; [apply evaluateValue_unbounded|]. intros a.
  apply unbounded_bind; [apply evaluateValue_unbounded|]. intros b.
  discriminate.
Qed.

Lemma evaluateNumericComparison_unbounded (expr op : string) :
  unbounded (evaluateNumericComparison response cookie expr op).
Proof.
  unfold evaluateNumericComparison.
  destruct (Split expr op) as [|p0 [|p1 [|p2 ps]]]; try discriminate.
  apply unbounded_bind; [apply evaluateNumericValue_unbounded|]. intros a.
  apply unbounded_bind; [apply evaluateNumericValue_unbounded|]. intros b.
  repeat match goal with
         | |- unbounded (if ?c then _ else _) => destruct c
         end; discriminate.
Qed.

Lemma evaluateSingle_with_unbounded (Evaluate : string -> res bool)
    (bound : nat) (expr : string) :
  (forall e, (String.length e < bound)%nat -> unbounded (Evaluate e)) ->
  (String.length expr <= bound)%nat ->
  unbounded (evaluateSingle_with response cookie Evaluate expr).
Proof.
  intros HE Hlen. unfold evaluateSingle_with.
  pose proof (length_TrimSpace expr) as Htrim.
  destruct (HasPrefix (TrimSpace expr) "(" && HasSuffix (TrimSpace expr) ")")
    eqn:Hparen.
  { apply andb_true_iff in Hparen as [Hp _].
    apply HE. pose proof (length_Trim_parenthesized _ Hp). lia. }
  repeat match goal with
         | |- unbounded (if ?c then _ else _) => destruct c
         end;
    first [ apply evaluateContains_unbounded
          | apply evaluateCookieContains_unbounded
          | apply evaluateComparison_unbounded
          | apply evaluateNumericComparison_unbounded
          | discriminate ].
Qed.

Lemma andLoop_unbounded (single : string -> res bool) (bound : nat)
    (parts : list string) (result : bool) :
  (forall p, (String.length p <= bound)%nat -> unbounded (single p)) ->
  (forall p, In p parts -> (String.length p <= bound)%nat) ->
  unbounded (andLoop single parts result).
Proof.
  intros Hs. revert result.
  induction parts as [|p parts IH]; intros result Hparts; [discriminate|].
  cbn [andLoop]. apply unbounded_bind.
  - apply Hs. pose proof (length_TrimSpace p).
    pose proof (Hparts p (or_introl eq_refl)). lia.
  - intros val. apply IH. intros q Hq. apply Hparts. right. exact Hq.
Qed.

Lemma orLoop_unbounded (single : string -> res bool) (bound : nat)
    (parts : list string) (result : bool) :
  (forall p, (String.length p <= bound)%nat -> unbounded (single p)) ->
  (forall p, In p parts -> (String.length p <= bound)%nat) ->
  unbounded (orLoop single parts result).
Proof.
  intros Hs. revert result.
  induction parts as [|p parts IH]; intros result Hparts; [discriminate|].
  cbn [orLoop]. apply unbounded_bind.
  - apply Hs. pose proof (length_TrimSpace p).
    pose proof (Hparts p (or_introl eq_refl)). lia.
  - intros val. destruct (result || val); [discriminate|].
    apply IH. intros q Hq. apply Hparts. right. exact Hq.
Qed.

Lemma Evaluate_bounded_unbounded (depth : nat) :
  forall expr : string,
    (String.length expr < depth)%nat ->
    unbounded (Evaluate_bounded response cookie depth expr).
Proof.
  induction depth as [|depth IH]; intros expr Hlen; [lia|].
  cbn [Evaluate_bounded].
  set (e := TrimSpace (removeComments expr)).
  assert (He : (String.length e <= depth)%nat).
  { subst e. pose proof (length_TrimSpace (removeComments expr)).
    pose proof (length_removeComments expr). lia. }
  assert (Hsingle : forall p, (String.length p <= depth)%nat ->
            unbounded (evaluateSingle_with response cookie
                         (Evaluate_bounded response cookie depth) p)).
  { intros p Hp. apply (evaluateSingle_with_unbounded _ depth); [exact IH | exact Hp]. }
  destruct (Contains e "||").
  { unfold evaluateOr_with. apply (orLoop_unbounded _ depth); [exact Hsingle|].
    intros p Hp. apply length_Split in Hp. lia. }
  destruct (Contains e "&&").
  { unfold evaluateAnd_with. apply (andLoop_unbounded _ depth); [exact Hsingle|].
    intros p Hp. apply length_Split in Hp. lia. }
  apply Hsingle, He.
Qed.

(** [Evaluate] and [evaluateSingle] return what the code returns: the
    bound of the model does not show. *)
Lemma Evaluate_total (expr : string) :
  Evaluate response cookie expr <> Err ErrRecursionBound.
Proof. apply Evaluate_bounded_unbounded. lia. Qed.

Lemma evaluateSingle_total (expr : string) :
  evaluateSingle response cookie expr <> Err ErrRecursionBound.
Proof.
  apply (evaluateSingle_with_unbounded _ (String.length expr)); [|lia].
  apply Evaluate_bounded_unbounded.
Qed.

End Totality.

(** *** Comparisons *)

(** The decimal numeral of an integer parses back to it, so two integers
    with the same numeral are equal, and no numeral is a word. *)
Lemma Itoa_parses (n : Z) : NilZero.int_of_string (Itoa n) = Some (Z.to_int n).
Proof.
  unfold Itoa. apply NilZero.isi; destruct n; cbn [Z.to_int]; try discriminate;
    intros [= H]; revert H; apply DecimalPos.Unsigned.to_uint_nonnil.
Qed.

Lemma Itoa_injective (m n : Z) : Itoa m = Itoa n -> m = n.
Proof.
  intros H. pose proof (Itoa_parses m) as Hm. rewrite H, Itoa_parses in Hm.
  injection Hm as Hm. rewrite <- (DecimalZ.of_to m), <- (DecimalZ.of_to n), Hm.
  reflexivity.
Qed.

Lemma Itoa_not_a_word (n : Z) (b : bool) :
  Itoa n <> if b then "true" else "false".
Proof.
  intros H. pose proof (Itoa_parses n) as Hn. rewrite H in Hn.
  destruct b; vm_compute in Hn; discriminate Hn.
Qed.

(** The closure of [==] answers true exactly for two values with the
    same textual representation. *)
Lemma compareEq_sameText (a b : value) : compareEq a b = true <-> sameText a b.
Proof.
  unfold compareEq. rewrite String.eqb_eq.
  destruct a as [s | m | x], b as [t | n | y]; cbn [Sprintf_v sameText].
  - reflexivity.
  - reflexivity.
  - reflexivity.
  - split; intros H; symmetry; exact H.
  - split; [apply Itoa_injective | intros ->; reflexivity].
  - split; [intros H; exact (Itoa_not_a_word _ _ H) | intros []].
  - split; intros H; symmetry; exact H.
  - split; [intros H; symmetry in H; exact (Itoa_not_a_word _ _ H) | intros []].
  - destruct x, y; split; intros H; try reflexivity; discriminate H.
Qed.

Lemma evaluateNumericValue_asInteger (response : option Response)
    (cookie s : string) (v : value) :
  evaluateValue response cookie s = Ok v ->
  match asInteger v with
  | Some n => evaluateNumericValue response cookie s = Ok n
  | None => is_err (evaluateNumericValue response cookie s) = true
  end.
Proof.
  intros Hv. unfold evaluateNumericValue. rewrite Hv. cbn [bind].
  destruct v as [t | n | b]; cbn [asInteger]; [|reflexivity|reflexivity].
  destruct (Atoi t); reflexivity.
Qed.

Lemma evaluateNumericComparison_ordered (response : option Response)
    (cookie e op l r : string) (a b : value) :
  In op [">="; "<="; ">"; "<"] ->
  Split e op = [l; r] ->
  evaluateValue response cookie (TrimSpace l) = Ok a ->
  evaluateValue response cookie (TrimSpace r) = Ok b ->
  match asInteger a, asInteger b with
  | Some x, Some y =>
      exists v, evaluateNumericComparison response cookie e op = Ok v /\
                (v = true <-> ordered op x y)
  | _, _ => is_err (evaluateNumericComparison response cookie e op) = true
  end.
Proof.
  intros Hop Hsplit Ha Hb. unfold evaluateNumericComparison. rewrite Hsplit.
  pose proof (evaluateNumericValue_asInteger _ _ _ _ Ha) as Ha'.
  pose proof (evaluateNumericValue_asInteger _ _ _ _ Hb) as Hb'.
  destruct (asInteger a) as [x|].
  - rewrite Ha'. cbn [bind].
    destruct (asInteger b) as [y|].
    + rewrite Hb'. cbn [bind]. unfold ordered.
      destruct Hop as [<- | [<- | [<- | [<- | []]]]];
        cbn [String.eqb Ascii.eqb Bool.eqb]; eexists; (split; [reflexivity|]).
      * rewrite Z.geb_le. split.
        -- intros H. left. split; [reflexivity | lia].
        -- intros [[_ H] | [[[=] _] | [[[=] _] | [[=] _]]]]. lia.
      * rewrite Z.leb_le. split.
        -- intros H. right. left. split; [reflexivity | lia].
        -- intros [[[=] _] | [[_ H] | [[[=] _] | [[=] _]]]]. lia.
      * rewrite Z.gtb_lt. split.
        -- intros H. right. right. left. split; [reflexivity | lia].
        -- intros [[[=] _] | [[[=] _] | [[_ H] | [[=] _]]]]. lia.
      * rewrite Z.ltb_lt. split.
        -- intros H. right. right. right. split; [reflexivity | lia].
        -- intros [[[=] _] | [[[=] _] | [[[=] _] | [_ H]]]]. lia.
    + destruct (evaluateNumericValue response cookie (TrimSpace r));
        [discriminate Hb' | reflexivity].
  - destruct (evaluateNumericValue response cookie (TrimSpace l));
      [discriminate Ha' | reflexivity].
Qed.

Lemma evaluateSingle_plain (response : option Response) (cookie expr : string) :
  isPlainClause (TrimSpace expr) = true ->
  evaluateSingle response cookie expr =
    let e := TrimSpace expr in
    if Contains e "==" then evaluateComparison response cookie e "==" compareEq
    else if Contains e "!=" then evaluateComparison response cookie e "!=" compareNe
    else if Contains e ">=" then evaluateNumericComparison response cookie e ">="
    else if Contains e "<=" then evaluateNumericComparison response cookie e "<="
    else if Contains e ">" && negb (Contains e ">=")
    then evaluateNumericComparison response cookie e ">"
    else if Contains e "<" && negb (Contains e "<=")
    then evaluateNumericComparison response cookie e "<"
    else Err (ErrUnsupportedExpression e).
Proof.
  intros Hplain. unfold isPlainClause in Hplain.
  apply andb_true_iff in Hplain as [Hplain Hc].
  apply andb_true_iff in Hplain as [Hp Hb].
  apply negb_true_iff in Hp, Hb, Hc.
  unfold evaluateSingle, evaluateSingle_with.
  rewrite Hp, Hb, Hc. reflexivity.
Qed.

(** A plain clause is the comparison with its first operator. *)
Lemma evaluateSingle_firstOperator (response : option Response)
    (cookie expr op : string) :
  isPlainClause (TrimSpace expr) = true ->
  firstOperator (TrimSpace expr) = Some op ->
  evaluateSingle response cookie expr =
    if String.eqb op "==" then
      evaluateComparison response cookie (TrimSpace expr) "==" compareEq
    else if String.eqb op "!=" then
      evaluateComparison response cookie (TrimSpace expr) "!=" compareNe
    else evaluateNumericComparison response cookie (TrimSpace expr) op.
Proof.
  intros Hplain Hop.
  rewrite (evaluateSingle_plain _ _ _ Hplain). cbv zeta.
  unfold firstOperator, comparisonOperators in Hop. cbn [List.find] in Hop.
  destruct (Contains (TrimSpace expr) "==") eqn:E1;
    [injection Hop as <-; reflexivity|].
  destruct (Contains (TrimSpace expr) "!=") eqn:E2;
    [injection Hop as <-; reflexivity|].
  destruct (Contains (TrimSpace expr) ">=") eqn:E3;
    [injection Hop as <-; reflexivity|].
  destruct (Contains (TrimSpace expr) "<=") eqn:E4;
    [injection Hop as <-; reflexivity|].
  destruct (Contains (TrimSpace expr) ">") eqn:E5;
    [injection Hop as <-; reflexivity|].
  destruct (Contains (TrimSpace expr) "<") eqn:E6;
    [injection Hop as <-; reflexivity | discriminate Hop].
Qed.

Lemma firstOperator_cases (e op : string) :
  firstOperator e = Some op ->
  op = "==" \/ op = "!=" \/ In op [">="; "<="; ">"; "<"].
Proof.
  unfold firstOperator. intros H. apply List.find_some in H as [H _].
  unfold comparisonOperators in H. cbn [In] in *.
  destruct H as [<- | [<- | [<- | [<- | [<- | [<- | []]]]]]]; auto 10.
Qed.

Lemma same_truth (v b : bool) (P : Prop) :
  (v = true <-> P) -> (b = true <-> P) -> v = b.
Proof.
  intros Hv Hb. destruct v, b; try reflexivity.
  - symmetry. apply Hb, Hv. reflexivity.
  - apply Hv, Hb. reflexivity.
Qed.

(** C8, amended: a single clause that is neither parenthesized nor a
    containment test is read as the comparison with the first of the
    operators ==, !=, >=, <=, >, < (in this order) that occurs anywhere
    in its text, and has to split at that operator into exactly two
    operands: it is an error when it does not.  When it does and both
    operands have values, [==] is true exactly when the two values have
    the same textual representation (two strings the same text, two
    integers the same number, an integer and a string when the string is
    the decimal numeral of the integer) and [!=] exactly when they do
    not; an ordering needs both operands to be integers, or strings that
    parse as integers, is true exactly when the two integers are in that
    order, and is an error otherwise.  So for every response
    [response.status==200] is true exactly for the status 200,
    [response.status>=200] exactly for a status from 200 on (404 for
    one), and [response.status<200] exactly for a status below 200 (so
    not for 200). *)
Theorem C8_comparison_at_first_operator :
  (forall (response : option Response) (cookie expr op : string),
     isPlainClause (TrimSpace expr) = true ->
     firstOperator (TrimSpace expr) = Some op ->
     (forall l r, Split (TrimSpace expr) op <> [l; r]) ->
     is_err (evaluateSingle response cookie expr) = true) /\
  (forall (response : option Response) (cookie expr op l r : string)
          (a b : value),
     isPlainClause (TrimSpace expr) = true ->
     firstOperator (TrimSpace expr) = Some op ->
     Split (TrimSpace expr) op = [l; r] ->
     evaluateValue response cookie (TrimSpace l) = Ok a ->
     evaluateValue response cookie (TrimSpace r) = Ok b ->
     (op = "==" ->
      exists v, evaluateSingle response cookie expr = Ok v /\
                (v = true <-> sameText a b)) /\
     (op = "!=" ->
      exists v, evaluateSingle response cookie expr = Ok v /\
                (v = true <-> ~ sameText a b)) /\
     (In op [">="; "<="; ">"; "<"] ->
      match asInteger a, asInteger b with
      | Some x, Some y =>
          exists v, evaluateSingle response cookie expr = Ok v /\
                    (v = true <-> ordered op x y)
      | _, _ => is_err (evaluateSingle response cookie expr) = true
      end)) /\
  (forall (resp : Response) (cookie : string),
     evaluateSingle (Some resp) cookie "response.status==200"
       = Ok (Status resp =? 200) /\
     evaluateSingle (Some resp) cookie "response.status>=200"
       = Ok (200 <=? Status resp) /\
     evaluateSingle (Some resp) cookie "response.status<200"
       = Ok (Status resp <? 200)).
Proof.
  assert (Hgen : forall (response : option Response) (cookie expr op l r : string)
          (a b : value),
     isPlainClause (TrimSpace expr) = true ->
     firstOperator (TrimSpace expr) = Some op ->
     Split (TrimSpace expr) op = [l; r] ->
     evaluateValue response cookie (TrimSpace l) = Ok a ->
     evaluateValue response cookie (TrimSpace r) = Ok b ->
     (op = "==" ->
      exists v, evaluateSingle response cookie expr = Ok v /\
                (v = true <-> sameText a b)) /\
     (op = "!=" ->
      exists v, evaluateSingle response cookie expr = Ok v /\
                (v = true <-> ~ sameText a b)) /\
     (In op [">="; "<="; ">"; "<"] ->
      match asInteger a, asInteger b with
      | Some x, Some y =>
          exists v, evaluateSingle response cookie expr = Ok v /\
                    (v = true <-> ordered op x y)
      | _, _ => is_err (evaluateSingle response cookie expr) = true
      end)).
  { intros response cookie expr op l r a b Hplain Hop Hsplit Ha Hb.
    rewrite (evaluateSingle_firstOperator _ _ _ _ Hplain Hop).
    split; [|split].
    - intros ->. cbn [String.eqb Ascii.eqb Bool.eqb].
      unfold evaluateComparison. rewrite Hsplit, Ha, Hb. cbn [bind].
      eexists. split; [reflexivity | apply compareEq_sameText].
    - intros ->. cbn [String.eqb Ascii.eqb Bool.eqb].
      unfold evaluateComparison. rewrite Hsplit, Ha, Hb. cbn [bind].
      eexists. split; [reflexivity|].
      unfold compareNe. rewrite negb_true_iff, <- not_true_iff_false.
      fold (compareEq a b). rewrite compareEq_sameText. reflexivity.
    - intros Hin.
      assert (Hneq : String.eqb op "==" = false /\ String.eqb op "!=" = false).
      { destruct Hin as [<- | [<- | [<- | [<- | []]]]]; split; reflexivity. }
      destruct Hneq as [-> ->].
      apply (evaluateNumericComparison_ordered _ _ _ op l r a b); assumption. }
  split; [|split; [exact Hgen|]].
  - intros response cookie expr op Hplain Hop Hsplit.
    rewrite (evaluateSingle_firstOperator _ _ _ _ Hplain Hop).
    assert (Hparts : match Split (TrimSpace expr) op with
                     | [p0; p1] => False
                     | _ => True
                     end).
    { destruct (Split (TrimSpace expr) op) as [|p0 [|p1 [|p2 rest]]] eqn:E;
        try exact I. exact (Hsplit p0 p1 eq_refl). }
    destruct (firstOperator_cases _ _ Hop) as [-> | [-> | Hin]].
    + cbn [String.eqb Ascii.eqb Bool.eqb]. unfold evaluateComparison.
      destruct (Split (TrimSpace expr) "==") as [|p0 [|p1 [|p2 rest]]];
        first [reflexivity | destruct Hparts].
    + cbn [String.eqb Ascii.eqb Bool.eqb]. unfold evaluateComparison.
      destruct (Split (TrimSpace expr) "!=") as [|p0 [|p1 [|p2 rest]]];
        first [reflexivity | destruct Hparts].
    + assert (Hneq : String.eqb op "==" = false /\ String.eqb op "!=" = false).
      { destruct Hin as [<- | [<- | [<- | [<- | []]]]]; split; reflexivity. }
      destruct Hneq as [-> ->]. unfold evaluateNumericComparison.
      destruct (Split (TrimSpace expr) op) as [|p0 [|p1 [|p2 rest]]];
        first [reflexivity | destruct Hparts].
  - intros resp cookie. split; [|split].
    + destruct (Hgen (Some resp) cookie "response.status==200" "=="
                  "response.status" "200" (VInt (Status resp)) (VInt 200)
                  eq_refl eq_refl eq_refl eq_refl eq_refl)
        as ((v & -> & Hv) & _); [reflexivity|].
      f_equal. apply (same_truth _ _ _ Hv). cbn [sameText]. apply Z.eqb_eq.
    + destruct (Hgen (Some resp) cookie "response.status>=200" ">="
                  "response.status" "200" (VInt (Status resp)) (VInt 200)
                  eq_refl eq_refl eq_refl eq_refl eq_refl)
        as (_ & _ & Hord).
      cbn [asInteger] in Hord.
      destruct Hord as (v & -> & Hv); [simpl; auto|]. f_equal.
      apply (same_truth _ _ _ Hv). rewrite Z.leb_le. unfold ordered. split.
      * intros H. left. split; [reflexivity | lia].
      * intros [[_ H] | [[[=] _] | [[[=] _] | [[=] _]]]]. lia.
    + destruct (Hgen (Some resp) cookie "response.status<200" "<"
                  "response.status" "200" (VInt (Status resp)) (VInt 200)
                  eq_refl eq_refl eq_refl eq_refl eq_refl)
        as (_ & _ & Hord).
      cbn [asInteger] in Hord.
      destruct Hord as (v & -> & Hv); [simpl; auto 10|]. f_equal.
      apply (same_truth _ _ _ Hv). rewrite Z.ltb_lt. unfold ordered. split.
      * intros H. right. right. right. split; [reflexivity | lia].
      * intros [[[=] _] | [[[=] _] | [[[=] _] | [_ H]]]]. lia.
Qed.

Lemma C8_comparison_at_first_operator_witness :
  evaluateSingle (Some okResponse) "" "response.status == 404" = Ok false /\
  evaluateSingle (Some okResponse) "" "response.status != 404" = Ok true /\
  evaluateSingle (Some okResponse) "" "'0200' == response.status" = Ok false /\
  evaluateSingle (Some okResponse) "" "response.status <= '199'" = Ok false /\
  is_err (evaluateSingle (Some okResponse) "" "response.status > abc") = true /\
  is_err (evaluateSingle (Some okResponse) "" "200 == 200 == 200") = true /\
  evaluateSingle (Some okResponse) "" "response.status==200" = Ok true.
Proof.
  destruct C8_comparison_at_first_operator as (Hparts & Hgen & Hstatus).
  split; [|split; [|split; [|split; [|split; [|split]]]]].
  - destruct (Hgen (Some okResponse) "" "response.status == 404" "=="
                "response.status " " 404" (VInt 200) (VInt 404)
                eq_refl eq_refl eq_refl eq_refl eq_refl)
      as ((v & -> & Hv) & _); [reflexivity|].
    destruct v; [|reflexivity]. cbn [sameText] in Hv.
    discriminate (proj1 Hv eq_refl).
  - destruct (Hgen (Some okResponse) "" "response.status != 404" "!="
                "response.status " " 404" (VInt 200) (VInt 404)
                eq_refl eq_refl eq_refl eq_refl eq_refl)
      as (_ & (v & -> & Hv) & _); [reflexivity|].
    destruct v; [reflexivity|]. f_equal. apply Hv.
    cbn [sameText]. discriminate.
  - destruct (Hgen (Some okResponse) "" "'0200' == response.status" "=="
                "'0200' " " response.status" (VString "0200") (VInt 200)
                eq_refl eq_refl eq_refl eq_refl eq_refl)
      as ((v & -> & Hv) & _); [reflexivity|].
    destruct v; [|reflexivity]. cbn [sameText] in Hv.
    discriminate (proj1 Hv eq_refl).
  - destruct (Hgen (Some okResponse) "" "response.status <= '199'" "<="
                "response.status " " '199'" (VInt 200) (VString "199")
                eq_refl eq_refl eq_refl eq_refl eq_refl)
      as (_ & _ & Hord).
    change (asInteger (VString "199")) with (Some 199) in Hord.
    destruct Hord as (v & -> & Hv); [simpl; auto|].
    destruct v; [|reflexivity]. exfalso.
    destruct (proj1 Hv eq_refl)
      as [[[=] _] | [[_ H] | [[[=] _] | [[=] _]]]]. lia.
  - destruct (Hgen (Some okResponse) "" "response.status > abc" ">"
                "response.status " " abc" (VInt 200) (VString "abc")
                eq_refl eq_refl eq_refl eq_refl eq_refl)
      as (_ & _ & Hord).
    apply Hord. simpl; auto.
  - apply (Hparts (Some okResponse) "" "200 == 200 == 200" "==" eq_refl eq_refl).
    intros l r. vm_compute. discriminate.
  - exact (proj1 (Hstatus okResponse "")).
Defined.

(** C8 as stated fails: the operator of a clause is looked for in its
    whole text, inside the quotes of a literal as well.  The clause
    ['a==b' != 'c'] compares two string literals with different texts
    with [!=], and is read as an [==] between the two texts around the
    [==] inside the first literal: the result is false.  The clause
    ['a==b' == 'a==b'] compares a literal with itself and is an error,
    because of its three parts at [==]. *)
Lemma C8_counterexample :
  isPlainClause "'a==b' != 'c'" = true /\
  evaluateValue None "" "'a==b'" = Ok (VString "a==b") /\
  evaluateValue None "" "'c'" = Ok (VString "c") /\
  ~ sameText (VString "a==b") (VString "c") /\
  evaluateSingle None "" "'a==b' != 'c'" = Ok false /\
  Evaluate None "" "'a==b' != 'c'" = Ok false /\
  sameText (VString "a==b") (VString "a==b") /\
  evaluateSingle None "" "'a==b' == 'a==b'"
    = Err (ErrInvalidComparison "'a==b' == 'a==b'").
Proof.
  repeat split; try (vm_compute; reflexivity).
  cbn [sameText]. discriminate.
Qed.

(* ===================================================================== *)
(** ** Properties of the engine *)
(* ===================================================================== *)

Section EngineProperties.

Variable Regexp : Type.
Variable regexpCompile : string -> option Regexp.
Variable FindStringSubmatch : Regexp -> string -> list string.
Variable World : Type.
Variable transport : Request -> World -> attempt_outcome * World.
Variable canonicalKey : string -> string.
Variable baseURL : string.

Abbreviation Engine' := (Engine World).
Abbreviation executeRule' :=
  (executeRule Regexp regexpCompile FindStringSubmatch World transport
     canonicalKey baseURL).
Abbreviation runRules' :=
  (runRules Regexp regexpCompile FindStringSubmatch World transport
     canonicalKey baseURL).
Abbreviation Execute' :=
  (Execute Regexp regexpCompile FindStringSubmatch World transport
     canonicalKey baseURL).
Abbreviation extractStep' :=
  (extractStep Regexp regexpCompile FindStringSubmatch).
Abbreviation ExecuteRequest' :=
  (ExecuteRequest World transport canonicalKey baseURL).

Lemma runRules_app (pre rest : list (string * Rule)) (e : Engine') :
  runRules' (pre ++ rest) e =
    match runRules' pre e with
    | (Err err, e') => (Err err, e')
    | (Ok _, e') => runRules' rest e'
    end.
Proof.
  revert e. induction pre as [|[ruleName rule] pre IH]; intros e.
  - reflexivity.
  - cbn [app runRules].
    destruct (executeRule' ruleName rule e) as [[success | err] e'];
      [apply IH | reflexivity].
Qed.

(** A rule that fails stops the run where it stands. *)
Lemma Execute_stops (config : POCConfig) (pre rest : list (string * Rule))
    (ruleName : string) (rule : Rule) (e e1 e2 : Engine') (err : error) :
  runRules' pre e = (Ok tt, e1) ->
  executeRule' ruleName rule e1 = (Err err, e2) ->
  Execute' config (pre ++ (ruleName, rule) :: rest) e =
    (Err (ErrExecuteRule ruleName err), e2).
Proof.
  intros Hpre Hrule. unfold Execute.
  rewrite runRules_app, Hpre. cbn [runRules].
  rewrite Hrule. reflexivity.
Qed.

Lemma executeRule_after_response (ruleName : string) (rule : Rule)
    (e : Engine') (response : Response) (eff' : effects World) :
  ExecuteRequest' (cookies World e) (ruleOptions rule) (eff World e)
    = (Ok response, eff') ->
  executeRule' ruleName rule e =
    let cookies' := extractStep' rule response (cookies World e) in
    let e' := {| ruleResults := ruleResults World e;
                 cookies := cookies'; eff := eff' |} in
    match validateStep rule cookies' with
    | Err err => (Err err, e')
    | Ok _ =>
        match expressionStep rule response cookies' with
        | Err err => (Err err, e')
        | Ok _ => (Ok true, e')
        end
    end.
Proof.
  intros Hreq. unfold executeRule. rewrite Hreq. reflexivity.
Qed.

(** What [executeRule] and [Execute] do with a cookie validation: an
    error of [ValidateCookie] ends the run with an error that wraps it,
    and the result false ends the run as well, with an error of its
    own; in both cases the state of the run is the one after the
    extraction of the rule, with nothing recorded for the rule, and the
    rules after it are not executed. *)
Lemma cookie_validation_stops_run (config : POCConfig)
    (pre rest : list (string * Rule)) (ruleName : string) (rule : Rule)
    (e e1 : Engine') (response : Response) (eff' : effects World) :
  CookieExpression rule <> "" ->
  runRules' pre e = (Ok tt, e1) ->
  ExecuteRequest' (cookies World e1) (ruleOptions rule) (eff World e1)
    = (Ok response, eff') ->
  let cookies' := extractStep' rule response (cookies World e1) in
  let validation :=
    ValidateCookie (CookieExpression rule) (cookieToValidate rule cookies') in
  let stopped := {| ruleResults := ruleResults World e1;
                    cookies := cookies'; eff := eff' |} in
  (forall err,
     validation = Err err ->
     Execute' config (pre ++ (ruleName, rule) :: rest) e =
       (Err (ErrExecuteRule ruleName (ErrCookieValidation err)), stopped)) /\
  (validation = Ok false ->
   Execute' config (pre ++ (ruleName, rule) :: rest) e =
     (Err (ErrExecuteRule ruleName ErrCookieInvalid), stopped)).
Proof.
  intros Hexpr Hpre Hreq cookies' validation stopped.
  apply String.eqb_neq in Hexpr.
  split.
  - intros err Hval. apply (Execute_stops config pre rest _ _ e e1); [exact Hpre|].
    rewrite (executeRule_after_response _ _ _ _ _ Hreq). cbv zeta.
    unfold validateStep. rewrite Hexpr. cbn [negb].
    fold cookies'. fold validation. rewrite Hval. reflexivity.
  - intros Hval. apply (Execute_stops config pre rest _ _ e e1); [exact Hpre|].
    rewrite (executeRule_after_response _ _ _ _ _ Hreq). cbv zeta.
    unfold validateStep. rewrite Hexpr. cbn [negb].
    fold cookies'. fold validation. rewrite Hval. reflexivity.
Qed.

(** The same for the expression of a rule whose cookie validation, if
    any, passed: an evaluation error ends the run with an error that
    wraps it, and the result false ends the run as well, with an error
    that names the expression; nothing is recorded for the rule and the
    rules after it are not executed. *)
Lemma expression_failure_stops_run (config : POCConfig)
    (pre rest : list (string * Rule)) (ruleName : string) (rule : Rule)
    (e e1 : Engine') (response : Response) (eff' : effects World) :
  Expression rule <> "" ->
  runRules' pre e = (Ok tt, e1) ->
  ExecuteRequest' (cookies World e1) (ruleOptions rule) (eff World e1)
    = (Ok response, eff') ->
  let cookies' := extractStep' rule response (cookies World e1) in
  validateStep rule cookies' = Ok tt ->
  let evaluation :=
    Evaluate (Some response) (GetStoredCookie cookies') (Expression rule) in
  let stopped := {| ruleResults := ruleResults World e1;
                    cookies := cookies'; eff := eff' |} in
  (forall err,
     evaluation = Err err ->
     Execute' config (pre ++ (ruleName, rule) :: rest) e =
       (Err (ErrExecuteRule ruleName (ErrExpressionEvaluation err)), stopped)) /\
  (evaluation = Ok false ->
   Execute' config (pre ++ (ruleName, rule) :: rest) e =
     (Err (ErrExecuteRule ruleName
             (ErrExpressionNotSatisfied (Expression rule))), stopped)).
Proof.
  intros Hexpr Hpre Hreq cookies' Hvalid evaluation stopped.
  apply String.eqb_neq in Hexpr.
  split.
  - intros err Hev. apply (Execute_stops config pre rest _ _ e e1); [exact Hpre|].
    rewrite (executeRule_after_response _ _ _ _ _ Hreq). cbv zeta.
    fold cookies'. rewrite Hvalid.
    unfold expressionStep. rewrite Hexpr. cbn [negb].
    fold evaluation. rewrite Hev. reflexivity.
  - intros Hev. apply (Execute_stops config pre rest _ _ e e1); [exact Hpre|].
    rewrite (executeRule_after_response _ _ _ _ _ Hreq). cbv zeta.
    fold cookies'. rewrite Hvalid.
    unfold expressionStep. rewrite Hexpr. cbn [negb].
    fold evaluation. rewrite Hev. reflexivity.
Qed.

(** C9: for a rule with an extraction expression, when [ExtractCookie]
    fails on the response, the rule goes on as the same rule without
    the expression does: same result, same state; the stored cookies
    are the ones from before the rule, and the run is the run with the
    rule without the expression, so the failure does not end it. *)
Theorem C9_extraction_failure_is_swallowed
    (rest : list (string * Rule)) (ruleName : string) (rule : Rule)
    (e : Engine') (response : Response) (eff' : effects World) (err : error) :
  ExtractCookie_expr rule <> "" ->
  ExecuteRequest' (cookies World e) (ruleOptions rule) (eff World e)
    = (Ok response, eff') ->
  ExtractCookie Regexp regexpCompile FindStringSubmatch
    (ExtractCookie_expr rule) (Some response) = Err err ->
  executeRule' ruleName rule e = executeRule' ruleName (withoutExtraction rule) e /\
  cookies World (snd (executeRule' ruleName rule e)) = cookies World e /\
  GetStoredCookie (cookies World (snd (executeRule' ruleName rule e)))
    = GetStoredCookie (cookies World e) /\
  runRules' ((ruleName, rule) :: rest) e
    = runRules' ((ruleName, withoutExtraction rule) :: rest) e /\
  (CookieExpression rule = "" -> Expression rule = "" ->
   executeRule' ruleName rule e =
     (Ok true, {| ruleResults := ruleResults World e;
                  cookies := cookies World e; eff := eff' |})).
Proof.
  intros Hexpr Hreq Hfail.
  assert (Hstep : extractStep' rule response (cookies World e) = cookies World e).
  { unfold extractStep. rewrite Hfail.
    destruct (negb (String.eqb (ExtractCookie_expr rule) "")); reflexivity. }
  assert (Hrule :
    executeRule' ruleName rule e =
      match validateStep rule (cookies World e) with
      | Err err => (Err err, {| ruleResults := ruleResults World e;
                                cookies := cookies World e; eff := eff' |})
      | Ok _ =>
          match expressionStep rule response (cookies World e) with
          | Err err => (Err err, {| ruleResults := ruleResults World e;
                                    cookies := cookies World e; eff := eff' |})
          | Ok _ => (Ok true, {| ruleResults := ruleResults World e;
                                 cookies := cookies World e; eff := eff' |})
          end
      end).
  { rewrite (executeRule_after_response _ _ _ _ _ Hreq). cbv zeta.
    rewrite Hstep. reflexivity. }
  assert (Hsame :
    executeRule' ruleName rule e = executeRule' ruleName (withoutExtraction rule) e).
  { rewrite Hrule.
    rewrite (executeRule_after_response ruleName (withoutExtraction rule)
               e response eff' Hreq).
    reflexivity. }
  split; [exact Hsame|].
  split.
  { rewrite Hrule.
    destruct (validateStep rule (cookies World e)); [|reflexivity].
    destruct (expressionStep rule response (cookies World e)); reflexivity. }
  split.
  { rewrite Hrule.
    destruct (validateStep rule (cookies World e)); [|reflexivity].
    destruct (expressionStep rule response (cookies World e)); reflexivity. }
  split.
  { cbn [runRules]. rewrite Hsame. reflexivity. }
  intros Hc He. rewrite Hrule.
  unfold validateStep, expressionStep. rewrite Hc, He. reflexivity.
Qed.

End EngineProperties.

(** C2, on the code: a cookie validation whose result is false is not
    recorded as a false result of the rule; it ends the run.  The two
    rules of [eitherConfig sessionRule] are asked for [r0() || r1()];
    the validation of [r0] looks for a session in a cookie that nobody
    stored and is false, [r1] has nothing to fail on.  Both orders are
    orders of the rule map.  In the order of the declaration the run
    ends at [r0] with the error of the validation after one request, with
    no result recorded and [r1] never requested; in the other order [r1]
    is recorded as true and the run ends at [r0] all the same, without a
    result for [r0] and without a verdict.  With the result false
    recorded for [r0], the main expression of the same configuration
    evaluates to true, and the loop over the results that [Execute] ends
    with for a configuration without main expression answers false
    without an error. *)
Theorem C2_false_validation_ends_run :
  let config := eitherConfig sessionRule in
  let run order :=
    Execute unit noRegexp noSubmatch Z siteTransport id "http://target"
      config order (NewEngine Z 0) in
  rangeOrder config (eitherOrder sessionRule) /\
  rangeOrder config (eitherOrderReversed sessionRule) /\
  CookieExpression sessionRule <> "" /\
  ValidateCookie (CookieExpression sessionRule) "" = Ok false /\
  run (eitherOrder sessionRule) =
    (Err (ErrExecuteRule "r0" ErrCookieInvalid),
     {| ruleResults := ∅; cookies := ∅;
        eff := {| slept := []; attempts := 1; world := 1 |} |}) /\
  fst (run (eitherOrderReversed sessionRule)) =
    Err (ErrExecuteRule "r0" ErrCookieInvalid) /\
  ruleResults Z (snd (run (eitherOrderReversed sessionRule))) !! "r1" = Some true /\
  ruleResults Z (snd (run (eitherOrderReversed sessionRule))) !! "r0" = None /\
  evaluateMainExpression (<["r0" := false]> (<["r1" := true]> ∅))
    (MainExpression config) = Ok true /\
  allSucceeded (<["r0" := false]> (<["r1" := true]> ∅)) = false.
Proof.
  cbn zeta. split; [|split; [|split]].
  - unfold rangeOrder. vm_compute. first [reflexivity | apply perm_swap].
  - unfold rangeOrder. vm_compute. first [reflexivity | apply perm_swap].
  - discriminate.
  - repeat split; vm_compute; reflexivity.
Qed.

(** C3, on the code: an expression of a rule that evaluates to false is
    not reported as a failed rule; it ends the run.  The two rules of
    [eitherConfig notFoundRule] are asked for [r0() || r1()]; [r0]
    expects the status 404 from a target that answers 200, so its
    expression is false, without an error of the evaluation; [r1] has
    nothing to fail on.  Both orders are orders of the rule map.  In the
    order of the declaration the run ends at [r0] with the error that
    names the expression after one request, with no result recorded and
    [r1] never requested; in the other order [r1] is recorded as true
    and the run ends at [r0] all the same, without a result for [r0] and
    without a verdict.  With the result false recorded for [r0], the
    main expression of the same configuration evaluates to true, and the
    loop over the results that [Execute] ends with for a configuration
    without main expression answers false without an error. *)
Theorem C3_false_expression_ends_run :
  let config := eitherConfig notFoundRule in
  let run order :=
    Execute unit noRegexp noSubmatch Z siteTransport id "http://target"
      config order (NewEngine Z 0) in
  rangeOrder config (eitherOrder notFoundRule) /\
  rangeOrder config (eitherOrderReversed notFoundRule) /\
  Expression notFoundRule <> "" /\
  Evaluate (Some okResponse) "" (Expression notFoundRule) = Ok false /\
  run (eitherOrder notFoundRule) =
    (Err (ErrExecuteRule "r0" (ErrExpressionNotSatisfied "response.status==404")),
     {| ruleResults := ∅; cookies := ∅;
        eff := {| slept := []; attempts := 1; world := 1 |} |}) /\
  fst (run (eitherOrderReversed notFoundRule)) =
    Err (ErrExecuteRule "r0" (ErrExpressionNotSatisfied "response.status==404")) /\
  ruleResults Z (snd (run (eitherOrderReversed notFoundRule))) !! "r1" = Some true /\
  ruleResults Z (snd (run (eitherOrderReversed notFoundRule))) !! "r0" = None /\
  evaluateMainExpression (<["r0" := false]> (<["r1" := true]> ∅))
    (MainExpression config) = Ok true /\
  allSucceeded (<["r0" := false]> (<["r1" := true]> ∅)) = false.
Proof.
  cbn zeta. split; [|split; [|split]].
  - unfold rangeOrder. vm_compute. first [reflexivity | apply perm_swap].
  - unfold rangeOrder. vm_compute. first [reflexivity | apply perm_swap].
  - discriminate.
  - repeat split; vm_compute; reflexivity.
Qed.

Lemma C9_extraction_failure_is_swallowed_witness :
  executeRule unit noRegexp noSubmatch Z siteTransport id "http://target"
    "r0" badExtractionRule (NewEngine Z 0) =
  executeRule unit noRegexp noSubmatch Z siteTransport id "http://target"
    "r0" (withoutExtraction badExtractionRule) (NewEngine Z 0).
Proof.
  apply (proj1 (C9_extraction_failure_is_swallowed unit noRegexp noSubmatch Z
                  siteTransport id "http://target" [] "r0" badExtractionRule
                  (NewEngine Z 0) okResponse
                  {| slept := []; attempts := 1; world := 1 |}
                  (ErrUnsupportedExtraction "response.cookie")
                  ltac:(discriminate) ltac:(reflexivity) ltac:(reflexivity))).
Defined.

(** C7, on the code: the rules are a map, and the order in which the
    loop of [Execute] meets them is the order of the [range].  For the two
    rules of [chainConfig] both orders are orders of that map; in the
    order of the declaration the second rule sees the cookie of the first
    and the run succeeds, in the other order the second rule runs first,
    sees no cookie, and the run ends with an error. *)
Theorem C7_range_order_decides :
  let run order :=
    Execute unit noRegexp noSubmatch Z siteTransport id "http://target"
      chainConfig order (NewEngine Z 0) in
  rangeOrder chainConfig declaredOrder /\
  rangeOrder chainConfig reversedOrder /\
  fst (run declaredOrder) = Ok true /\
  GetStoredCookie (cookies Z (snd (run declaredOrder))) = "sid=42; Path=/" /\
  fst (run reversedOrder) = Err (ErrExecuteRule "r1" ErrCookieInvalid) /\
  ruleResults Z (snd (run reversedOrder)) = ∅.
Proof.
  cbn zeta. split; [|split].
  - unfold rangeOrder. vm_compute. first [reflexivity | apply perm_swap].
  - unfold rangeOrder. vm_compute. first [reflexivity | apply perm_swap].
  - repeat split; vm_compute; reflexivity.
Qed.

(* ===================================================================== *)
(** ** Further properties: the retry loop *)
(* ===================================================================== *)

Section RetryLoopMore.

Variable World : Type.
Variable transport : Request -> World -> attempt_outcome * World.

Lemma waitsOver_step (i : Z) (n : nat) :
  waitsOver i (S n) =
    ((if 0 <? i then [retryDelay i] else []) ++ waitsOver (i + 1) n)%list.
Proof.
  unfold waitsOver. cbn [seq flat_map].
  replace (i + Z.of_nat 0) with i by lia. f_equal.
  rewrite <- seq_shift, flat_map_concat_map, List.map_map,
    <- flat_map_concat_map.
  apply flat_map_ext. intros k.
  replace (i + 1 + Z.of_nat k) with (i + Z.of_nat (S k)) by lia.
  reflexivity.
Qed.

Lemma retryLoop_attemptsFail (req : Request) (retryCount : Z) (n : nat) :
  forall (passes : nat) (i : Z) (e0 e : error) (eff : effects World)
         (w' : World),
    attemptsFail transport req n (world World eff) e0 e w' ->
    (n <= passes)%nat ->
    0 <= i ->
    i + Z.of_nat n = retryCount + 1 ->
    retryCount < MaxInt64 ->
    retryLoop World transport req retryCount passes i e0 eff =
      (Err (ErrRetriesExhausted retryCount e),
       {| slept := slept World eff ++ waitsOver i n;
          attempts := attempts World eff + Z.of_nat n;
          world := w' |}).
Proof.
  induction n as [|n IH]; intros passes i e0 e eff w' Hrun Hle Hi Hend Hmax;
    inversion Hrun as [w0 e' | n0 w0 w1 w0' o e0' e1 e' Htr Hfail Hrest];
    subst.
  - assert (Hgt : (i <=? retryCount) = false) by (apply Z.leb_gt; lia).
    destruct passes; cbn [retryLoop]; rewrite Hgt;
      unfold waitsOver; cbn [seq flat_map]; rewrite app_nil_r;
      destruct eff as [sl at_ wo]; cbn [slept attempts world];
      do 2 f_equal; lia.
  - destruct passes as [|passes]; [lia|]. cbn [retryLoop].
    destruct (Z.leb_spec i retryCount) as [_ | Hgt]; [|lia].
    assert (Hw : world World
              (if 0 <? i
               then {| slept := slept World eff ++ [retryDelay i];
                       attempts := attempts World eff;
                       world := world World eff |}
               else eff) = world World eff)
      by (destruct (0 <? i); reflexivity).
    rewrite Hw, Htr, waitsOver_step.
    rewrite (wrap64_small (i + 1)) by (unfold MinInt64, MaxInt64 in *; lia).
    destruct o; cbn [outcome_error] in Hfail; try discriminate Hfail;
      injection Hfail as <-;
      (rewrite (IH passes (i + 1) _ e _ w');
       [ | exact Hrest | lia | lia | lia | exact Hmax ]);
      destruct (0 <? i); cbn [slept attempts world];
      do 2 f_equal;
      first [lia | rewrite <- ?List.app_assoc; reflexivity].
Qed.

Lemma waitsOver_zero (n : nat) :
  waitsOver 0 (S n) = List.map (fun k => retryDelay (Z.of_nat k)) (seq 1 n).
Proof.
  rewrite waitsOver_step. change (0 <? 0) with false. cbn [app].
  unfold waitsOver. rewrite flat_map_concat_map.
  rewrite <- seq_shift, !List.map_map.
  induction (seq 0 n) as [|k l IH]; [reflexivity|].
  cbn [List.map concat]. rewrite IH.
  destruct (Z.ltb_spec 0 (0 + 1 + Z.of_nat k)); [|lia].
  cbn [app]. f_equal. f_equal. lia.
Qed.

(** What one run of the loop adds, for a count below MaxInt64 and from
    a counter [i] that the passes of the model cover: between one pass
    (if the condition holds at all) and all that are left, one wait
    less than passes when the counter starts at zero; an error only
    after all passes, and then the error of the exhausted retries. *)
Lemma retryLoop_bounds (req : Request) (retryCount : Z) (passes : nat) :
  forall (i : Z) (lastErr : error) (eff : effects World),
    0 <= i ->
    i <= retryCount + 1 ->
    retryCount < MaxInt64 ->
    retryCount + 1 - i <= Z.of_nat passes ->
    let run := retryLoop World transport req retryCount passes i lastErr eff in
    let made := attempts World (snd run) - attempts World eff in
    (i <= retryCount -> 1 <= made) /\
    made <= retryCount + 1 - i /\
    Z.of_nat (length (slept World (snd run))) =
      Z.of_nat (length (slept World eff)) +
      (if (i =? 0) && (0 <? made) then made - 1 else made) /\
    (is_err (fst run) = true ->
     made = retryCount + 1 - i /\
     exists e, fst run = Err (ErrRetriesExhausted retryCount e)).
Proof.
  assert (Hdone : forall (passes : nat) (i : Z) (lastErr : error)
                         (eff : effects World),
            retryCount < i ->
            retryLoop World transport req retryCount passes i lastErr eff =
              (Err (ErrRetriesExhausted retryCount lastErr), eff)).
  { intros p i lastErr eff Hgt.
    assert (Hc : (i <=? retryCount) = false) by (apply Z.leb_gt; lia).
    destruct p; cbn [retryLoop]; rewrite Hc; reflexivity. }
  induction passes as [|passes IH]; intros i lastErr eff Hi Hle Hmax Hfuel.
  - rewrite Hdone by lia. cbn [snd fst]. cbv zeta.
    replace (attempts World eff - attempts World eff) with 0 by lia.
    rewrite andb_false_r. repeat split; try lia. eexists; reflexivity.
  - destruct (Z.leb_spec i retryCount) as [Hin | Hout].
    2:{ rewrite Hdone by lia. cbn [snd fst]. cbv zeta.
        replace (attempts World eff - attempts World eff) with 0 by lia.
        rewrite andb_false_r. repeat split; try lia. eexists; reflexivity. }
    cbn [retryLoop].
    destruct (Z.leb_spec i retryCount) as [_ | Hgt]; [|lia].
    rewrite (wrap64_small (i + 1)) by (unfold MinInt64, MaxInt64 in *; lia).
    set (eff1 := if 0 <? i
                 then {| slept := slept World eff ++ [retryDelay i];
                         attempts := attempts World eff;
                         world := world World eff |}
                 else eff).
    assert (Hat : attempts World eff1 = attempts World eff)
      by (subst eff1; destruct (0 <? i); reflexivity).
    assert (Hsl : Z.of_nat (length (slept World eff1)) =
                  Z.of_nat (length (slept World eff)) + (if 0 <? i then 1 else 0)).
    { subst eff1. destruct (0 <? i); cbn [slept]; [|lia].
      rewrite length_app. cbn [length]. lia. }
    destruct (transport req (world World eff1)) as [o w].
    assert (Hcont : forall e,
      let run := retryLoop World transport req retryCount passes (i + 1) e
                   {| slept := slept World eff1;
                      attempts := attempts World eff1 + 1; world := w |} in
      let made := attempts World (snd run) - attempts World eff in
      (1 <= made) /\ made <= retryCount + 1 - i /\
      Z.of_nat (length (slept World (snd run))) =
        Z.of_nat (length (slept World eff)) +
        (if (i =? 0) && (0 <? made) then made - 1 else made) /\
      (is_err (fst run) = true ->
       made = retryCount + 1 - i /\
       exists e', fst run = Err (ErrRetriesExhausted retryCount e'))).
    { intros e.
      specialize (IH (i + 1) e
                    {| slept := slept World eff1;
                       attempts := attempts World eff1 + 1; world := w |}
                    ltac:(lia) ltac:(lia) Hmax ltac:(lia)).
      cbv zeta in IH |- *. cbn [attempts slept] in IH.
      destruct IH as (IH1 & IH2 & IH3 & IH4).
      destruct (Z.eqb_spec (i + 1) 0) as [Hz|_]; [lia|].
      cbn [andb] in IH3. rewrite Hat in *.
      set (run := retryLoop World transport req retryCount passes (i + 1) e _) in *.
      assert (Hge : 1 <= attempts World (snd run) - attempts World eff).
      { destruct (Z.leb_spec (i + 1) retryCount) as [Hmore | Hlast].
        - specialize (IH1 Hmore). lia.
        - subst run. rewrite Hdone by lia. cbn [snd attempts]. lia. }
      split; [exact Hge|]. split; [lia|]. split.
      - rewrite IH3, Hsl.
        destruct (Z.ltb_spec 0 (attempts World (snd run) - attempts World eff)); [|lia].
        destruct (Z.eqb_spec i 0) as [-> | Hne]; cbn [andb].
        + change (0 <? 0) with false. lia.
        + destruct (Z.ltb_spec 0 i); lia.
      - intros Herr. destruct (IH4 Herr) as [Hm He]. split; [lia | exact He]. }
    destruct o;
      [ specialize (Hcont ErrNewRequest) | specialize (Hcont ErrDo)
      | specialize (Hcont ErrReadBody) | clear Hcont ];
      try (cbv zeta in Hcont; destruct Hcont as (H1 & H2 & H3 & H4);
           cbv zeta; split; [intros _; exact H1|];
           split; [exact H2|]; split; [exact H3 | exact H4]).
    cbn [snd fst attempts slept is_err]. rewrite Hat.
    replace (attempts World eff + 1 - attempts World eff) with 1 by lia.
    split; [lia|]. split; [lia|]. split; [|discriminate].
    rewrite Hsl. change (0 <? 1) with true. rewrite andb_true_r.
    destruct (Z.eqb_spec i 0) as [-> | Hne].
    + change (0 <? 0) with false. lia.
    + destruct (Z.ltb_spec 0 i); lia.
Qed.

(** The count MaxInt64: every counter is at most the count, so the loop
    is never left with the error of the exhausted retries; it ends
    with a readable response or not at all. *)
Lemma retryLoop_never_exhausted (req : Request) (passes : nat) :
  forall (i : Z) (lastErr : error) (eff : effects World),
    i <= MaxInt64 ->
    let run := retryLoop World transport req MaxInt64 passes i lastErr eff in
    (exists r, fst run = Ok r) \/ fst run = Err ErrStillRetrying.
Proof.
  assert (Hwrap : forall z, wrap64 z <= MaxInt64).
  { intros z. unfold wrap64, MaxInt64.
    pose proof (Z.mod_pos_bound (z + 2 ^ 63) (2 ^ 64) ltac:(lia)). lia. }
  induction passes as [|passes IH]; intros i lastErr eff Hi; cbv zeta;
    cbn [retryLoop];
    (destruct (Z.leb_spec i MaxInt64) as [_ | Hgt]; [|lia]).
  - right. reflexivity.
  - destruct (transport req _) as [o w].
    destruct o; try (apply IH; apply Hwrap).
    left. eexists. reflexivity.
Qed.

End RetryLoopMore.

(** X1: when the retry count is n, not negative and below MaxInt64 (the
    loop counter is an int, and for the count MaxInt64 the loop does not
    end with an error), and all n + 1 attempts fail, [ExecuteRequest]
    returns the error that reports n retries and wraps the error of the
    last attempt, after n + 1 attempts and the n waits of the loop, one
    before every attempt but the first. *)
Theorem X1_retries_exhausted (World : Type)
    (transport : Request -> World -> attempt_outcome * World)
    (canonicalKey : string -> string) (baseURL : string)
    (cookies : gmap string string) (opts : RequestOptions)
    (eff : effects World) (n : nat) (e : error) (w' : World) :
  optRetryCount opts = Z.of_nat n ->
  Z.of_nat n < MaxInt64 ->
  attemptsFail transport (buildRequest canonicalKey baseURL cookies opts)
    (S n) (world World eff) ErrNil e w' ->
  ExecuteRequest World transport canonicalKey baseURL cookies opts eff =
    (Err (ErrRetriesExhausted (Z.of_nat n) e),
     {| slept :=
          slept World eff ++
          List.map (fun k => retryDelay (Z.of_nat k)) (seq 1 n);
        attempts := attempts World eff + Z.of_nat n + 1;
        world := w' |}).
Proof.
  intros Hcount Hmax Hrun. unfold ExecuteRequest. rewrite Hcount.
  replace (Z.to_nat (Z.of_nat n + 1)) with (S n) by lia.
  rewrite (retryLoop_attemptsFail World transport _ _ (S n) (S n) 0 ErrNil e
             eff w' Hrun); [| lia | lia | lia | exact Hmax].
  rewrite waitsOver_zero. do 2 f_equal. lia.
Qed.

Lemma X1_retries_exhausted_witness :
  ExecuteRequest Z flakyTransport id "http://target" ∅ (plainOptions 2)
    {| slept := []; attempts := 0; world := 0 |} =
  (Err (ErrRetriesExhausted 2 ErrReadBody),
   {| slept := [2 * Second; 4 * Second]; attempts := 3; world := 3 |}).
Proof.
  apply (X1_retries_exhausted Z flakyTransport id "http://target" ∅
           (plainOptions 2) {| slept := []; attempts := 0; world := 0 |}
           2 ErrReadBody 3).
  - reflexivity.
  - unfold MaxInt64. simpl. lia.
  - repeat (eapply fail_more; [reflexivity | reflexivity |]).
    apply fail_none.
Defined.

(** X2: with a retry count that is not negative and below MaxInt64,
    whatever the target does, [ExecuteRequest] makes at least one attempt
    and at most one more than the count, sleeps exactly once less than it
    makes attempts, and returns an error only after it made all of them,
    the error of the exhausted retries; with a negative count it makes no
    attempt, does not sleep, and returns the error that wraps the nil
    error; with the count MaxInt64 the loop counter wraps around before
    it exceeds the count, and the call never returns the error of the
    exhausted retries. *)
Theorem X2_attempts_bounds (World : Type)
    (transport : Request -> World -> attempt_outcome * World)
    (canonicalKey : string -> string) (baseURL : string)
    (cookies : gmap string string) (opts : RequestOptions) (eff : effects World) :
  let run := ExecuteRequest World transport canonicalKey baseURL cookies opts eff in
  let made := attempts World (snd run) - attempts World eff in
  (0 <= optRetryCount opts < MaxInt64 ->
   1 <= made <= optRetryCount opts + 1 /\
   Z.of_nat (length (slept World (snd run))) =
     Z.of_nat (length (slept World eff)) + made - 1 /\
   (is_err (fst run) = true ->
    made = optRetryCount opts + 1 /\
    exists e, fst run = Err (ErrRetriesExhausted (optRetryCount opts) e))) /\
  (optRetryCount opts < 0 ->
   run = (Err (ErrRetriesExhausted (optRetryCount opts) ErrNil), eff)) /\
  (optRetryCount opts = MaxInt64 ->
   forall count e, fst run <> Err (ErrRetriesExhausted count e)).
Proof.
  cbv zeta. split; [|split].
  - intros Hn. unfold ExecuteRequest.
    pose proof (retryLoop_bounds World transport
                  (buildRequest canonicalKey baseURL cookies opts)
                  (optRetryCount opts) (Z.to_nat (optRetryCount opts + 1))
                  0 ErrNil eff ltac:(lia) ltac:(lia) ltac:(lia) ltac:(lia)) as H.
    cbv zeta in H. destruct H as (H1 & H2 & H3 & H4).
    specialize (H1 ltac:(lia)).
    split; [lia|]. split.
    + rewrite H3. change (0 =? 0) with true. cbn [andb].
      match goal with |- context [0 <? ?m] => destruct (Z.ltb_spec 0 m) end; lia.
    + intros Herr. destruct (H4 Herr) as [Hm He]. split; [lia | exact He].
  - intros Hneg. unfold ExecuteRequest.
    assert (Hc : (0 <=? optRetryCount opts) = false) by (apply Z.leb_gt; lia).
    destruct (Z.to_nat (optRetryCount opts + 1)); cbn [retryLoop];
      rewrite Hc; reflexivity.
  - intros Hmax count e. unfold ExecuteRequest. rewrite Hmax.
    pose proof (retryLoop_never_exhausted World transport
                  (buildRequest canonicalKey baseURL cookies opts)
                  (Z.to_nat (MaxInt64 + 1)) 0 ErrNil eff
                  ltac:(unfold MaxInt64; lia)) as H.
    cbv zeta in H. destruct H as [[r ->] | ->]; discriminate.
Qed.

Lemma X2_attempts_bounds_witness :
  let run :=
    ExecuteRequest Z (answersFrom 1) id "http://target" ∅ (plainOptions 5)
      {| slept := []; attempts := 0; world := 0 |} in
  1 <= attempts Z (snd run) - 0 <= 5 + 1 /\
  ExecuteRequest Z (answersFrom 0) id "http://target" ∅ (plainOptions (-1))
    {| slept := []; attempts := 0; world := 0 |} =
  (Err (ErrRetriesExhausted (-1) ErrNil),
   {| slept := []; attempts := 0; world := 0 |}) /\
  fst (ExecuteRequest unit deadTransport id "http://target" ∅
         (plainOptions MaxInt64)
         {| slept := []; attempts := 0; world := tt |}) <>
  Err (ErrRetriesExhausted MaxInt64 ErrDo).
Proof.
  cbv zeta. split; [|split].
  - apply (proj1 (X2_attempts_bounds Z (answersFrom 1) id "http://target" ∅
                    (plainOptions 5) {| slept := []; attempts := 0; world := 0 |})).
    unfold MaxInt64. simpl. lia.
  - apply (proj1 (proj2 (X2_attempts_bounds Z (answersFrom 0) id "http://target" ∅
                    (plainOptions (-1)) {| slept := []; attempts := 0; world := 0 |}))).
    simpl. lia.
  - apply (proj2 (proj2 (X2_attempts_bounds unit deadTransport id "http://target" ∅
                    (plainOptions MaxInt64)
                    {| slept := []; attempts := 0; world := tt |}))).
    reflexivity.
Defined.

(* ===================================================================== *)
(** ** Further properties: the request *)
(* ===================================================================== *)

Lemma length_append (s t : string) :
  String.length (s ++ t) = (String.length s + String.length t)%nat.
Proof. induction s as [|c s IH]; simpl; [reflexivity | rewrite IH; reflexivity]. Qed.

Lemma substring_prefix (s t : string) :
  String.substring 0 (String.length s) (s ++ t) = s.
Proof.
  induction s as [|c s IH]; simpl.
  - destruct t; reflexivity.
  - rewrite IH. reflexivity.
Qed.

Lemma HasPrefix_app (s t : string) : HasPrefix (s ++ t) s = true.
Proof.
  induction s as [|c s IH]; simpl; [reflexivity|].
  rewrite Ascii.eqb_refl. exact IH.
Qed.

Lemma HasSuffix_app (s t : string) : HasSuffix (s ++ t) t = true.
Proof. unfold HasSuffix. rewrite reverse_app. apply HasPrefix_app. Qed.

Lemma TrimSuffix_app (s t : string) : TrimSuffix (s ++ t) t = s.
Proof.
  unfold TrimSuffix. rewrite HasSuffix_app, length_append.
  replace (String.length s + String.length t - String.length t)%nat
    with (String.length s) by lia.
  apply substring_prefix.
Qed.

Lemma TrimSuffix_absent (s t : string) :
  HasSuffix s t = false -> TrimSuffix s t = s.
Proof. intros H. unfold TrimSuffix. rewrite H. reflexivity. Qed.

(** X3: the URL of a request has the base, one slash and the path: a
    slash at the end of the base and a slash at the start of the path are
    each optional and change nothing.  Only one slash is taken from the
    end of the base. *)
Theorem X3_buildURL_one_slash (base path : string) :
  HasPrefix path "/" = false ->
  buildURL (base ++ "/") path = (base ++ "/" ++ path)%string /\
  buildURL (base ++ "/") ("/" ++ path) = (base ++ "/" ++ path)%string /\
  (HasSuffix base "/" = false ->
   buildURL base path = (base ++ "/" ++ path)%string /\
   buildURL base ("/" ++ path) = (base ++ "/" ++ path)%string).
Proof.
  intros Hp. unfold buildURL.
  rewrite TrimSuffix_app, Hp.
  change (HasPrefix ("/" ++ path) "/") with true. cbn [negb].
  split; [reflexivity|]. split; [reflexivity|].
  intros Hb. rewrite (TrimSuffix_absent _ _ Hb). split; reflexivity.
Qed.

Lemma X3_buildURL_one_slash_witness :
  buildURL "http://target/" "admin" = "http://target/admin" /\
  buildURL "http://target" "/admin" = "http://target/admin" /\
  buildURL "http://target//" "admin" = "http://target//admin".
Proof.
  destruct (X3_buildURL_one_slash "http://target" "admin" eq_refl)
    as (H1 & _ & H2).
  destruct (X3_buildURL_one_slash "http://target/" "admin" eq_refl)
    as (H3 & _).
  split; [exact H1|]. split; [apply (H2 eq_refl) | exact H3].
Defined.

Lemma headerGet_headerSet_eq (k v : string) (h : list (string * string)) :
  headerGet k (headerSet k v h) = Some v.
Proof.
  induction h as [|[k' v'] h IH]; simpl.
  - rewrite String.eqb_refl. reflexivity.
  - destruct (String.eqb k' k) eqn:E; simpl.
    + rewrite String.eqb_refl. reflexivity.
    + rewrite E. exact IH.
Qed.

Lemma headerGet_headerSet_ne (k k0 v : string) (h : list (string * string)) :
  k0 <> k -> headerGet k0 (headerSet k v h) = headerGet k0 h.
Proof.
  intros Hne. induction h as [|[k' v'] h IH]; simpl.
  - destruct (String.eqb_spec k k0); [congruence | reflexivity].
  - destruct (String.eqb_spec k' k) as [-> | Hk]; simpl.
    + destruct (String.eqb_spec k k0); [congruence | reflexivity].
    + rewrite IH. reflexivity.
Qed.

(** X4: the cookie of a request.  Without a directive the headers are the
    ones of the rule.  With the directive [response.extracted_cookie] the
    header [Cookie] carries the stored cookie, and when nothing is stored
    the headers are again the ones of the rule (a [Cookie] header among
    them is left in place).  Any other directive is sent as it is.  The
    directive replaces a [Cookie] header of the rule and touches no other
    header. *)
Theorem X4_cookie_directive (canonicalKey : string -> string) (baseURL : string)
    (cookies : gmap string string) (opts : RequestOptions) :
  let header := reqHeader (buildRequest canonicalKey baseURL cookies opts) in
  let own := ruleHeaders canonicalKey (optHeaders opts) in
  (optUseCookie opts = "" -> header = own) /\
  (optUseCookie opts = "response.extracted_cookie" ->
   (GetStoredCookie cookies = "" -> header = own) /\
   (GetStoredCookie cookies <> "" ->
    headerGet "Cookie" header = Some (GetStoredCookie cookies) /\
    forall k, k <> "Cookie" -> headerGet k header = headerGet k own)) /\
  (optUseCookie opts <> "" ->
   optUseCookie opts <> "response.extracted_cookie" ->
   headerGet "Cookie" header = Some (optUseCookie opts) /\
   forall k, k <> "Cookie" -> headerGet k header = headerGet k own).
Proof.
  cbv zeta. unfold buildRequest. cbn [reqHeader]. fold (ruleHeaders canonicalKey (optHeaders opts)).
  split; [|split].
  - intros ->. reflexivity.
  - intros ->. cbn [negb]. change ("response.extracted_cookie" =? "")%string with false.
    cbn [negb]. rewrite String.eqb_refl. split.
    + intros ->. reflexivity.
    + intros Hne. apply String.eqb_neq in Hne. rewrite Hne. cbn [negb].
      split; [apply headerGet_headerSet_eq|].
      intros k Hk. apply headerGet_headerSet_ne. exact Hk.
  - intros Hne Hs. apply String.eqb_neq in Hne, Hs. rewrite Hne, Hs. cbn [negb].
    split; [apply headerGet_headerSet_eq|].
    intros k Hk. apply headerGet_headerSet_ne. exact Hk.
Qed.

Lemma X4_cookie_directive_witness :
  headerGet "Cookie"
    (reqHeader (buildRequest id "http://target" (StoreCookie ∅ "sid=42")
                  (ruleOptions adminRule))) = Some "sid=42" /\
  reqHeader (buildRequest id "http://target" ∅ (ruleOptions adminRule)) = [] /\
  reqHeader (buildRequest id "http://target" ∅ (ruleOptions loginRule)) = [].
Proof.
  destruct (X4_cookie_directive id "http://target" (StoreCookie ∅ "sid=42")
              (ruleOptions adminRule)) as (_ & Hs & _).
  destruct (X4_cookie_directive id "http://target" ∅ (ruleOptions adminRule))
    as (_ & Hs' & _).
  destruct (X4_cookie_directive id "http://target" ∅ (ruleOptions loginRule))
    as (Hnone & _).
  split; [|split].
  - apply (proj2 (Hs eq_refl)). vm_compute. discriminate.
  - apply (proj1 (Hs' eq_refl)). reflexivity.
  - apply Hnone. reflexivity.
Defined.

(* ===================================================================== *)
(** ** Further properties: the engine *)
(* ===================================================================== *)

Lemma allSucceeded_insert_true (m : gmap string bool) (k : string) :
  allSucceeded m = true -> allSucceeded (<[k := true]> m) = true.
Proof.
  unfold allSucceeded. rewrite !forallb_forall. intros Hm [k' b] Hin.
  apply list_elem_of_In, elem_of_map_to_list in Hin.
  apply lookup_insert_Some in Hin as [[_ <-] | [_ Hin]]; [reflexivity|].
  apply (Hm (k', b)). apply list_elem_of_In, elem_of_map_to_list. exact Hin.
Qed.

Lemma recordAll_lookup (order : list (string * Rule)) :
  forall (m : gmap string bool) (k : string),
    recordAll order m !! k =
      if existsb (String.eqb k) (List.map fst order) then Some true else m !! k.
Proof.
  induction order as [|[n r] order IH]; intros m k; [reflexivity|].
  cbn [recordAll fold_left List.map existsb fst].
  fold (recordAll order (<[n := true]> m)). rewrite IH.
  destruct (existsb (String.eqb k) (List.map fst order)).
  - rewrite orb_true_r. reflexivity.
  - rewrite orb_false_r. destruct (String.eqb_spec k n) as [-> | Hne].
    + apply lookup_insert_eq.
    + apply lookup_insert_ne. congruence.
Qed.

Section EngineMore.

Variable Regexp : Type.
Variable regexpCompile : string -> option Regexp.
Variable FindStringSubmatch : Regexp -> string -> list string.
Variable World : Type.
Variable transport : Request -> World -> attempt_outcome * World.
Variable canonicalKey : string -> string.
Variable baseURL : string.

Abbreviation Engine' := (Engine World).
Abbreviation executeRule' :=
  (executeRule Regexp regexpCompile FindStringSubmatch World transport
     canonicalKey baseURL).
Abbreviation runRules' :=
  (runRules Regexp regexpCompile FindStringSubmatch World transport
     canonicalKey baseURL).
Abbreviation Execute' :=
  (Execute Regexp regexpCompile FindStringSubmatch World transport
     canonicalKey baseURL).
Abbreviation extractStep' :=
  (extractStep Regexp regexpCompile FindStringSubmatch).
Abbreviation ExecuteRequest' :=
  (ExecuteRequest World transport canonicalKey baseURL).

(** A rule succeeds or fails with an error; it never answers false
    without one, and it leaves the recorded results alone. *)
Lemma executeRule_outcome (ruleName : string) (rule : Rule) (e : Engine') :
  (fst (executeRule' ruleName rule e) = Ok true \/
   exists err, fst (executeRule' ruleName rule e) = Err err) /\
  ruleResults World (snd (executeRule' ruleName rule e)) = ruleResults World e.
Proof.
  unfold executeRule.
  destruct (ExecuteRequest' (cookies World e) (ruleOptions rule) (eff World e))
    as [[response | err] eff'].
  - destruct (validateStep rule _) as [u | err];
      [|split; [right; exists err|]; reflexivity].
    destruct (expressionStep rule response _) as [u' | err];
      [split; [left|] | split; [right; exists err|]]; reflexivity.
  - split; [right; exists (ErrHTTPRequest err)|]; reflexivity.
Qed.

(** What the first loop of [Execute] leaves: after success, the results
    of before with every rule of the order recorded as true; after an
    error, the order splits at the rule the error names, and the rules
    before it are the ones recorded. *)
Lemma runRules_records (order : list (string * Rule)) :
  forall e : Engine',
    match runRules' order e with
    | (Ok _, e') =>
        ruleResults World e' = recordAll order (ruleResults World e)
    | (Err err, e') =>
        exists pre ruleName rule rest cause,
          order = (pre ++ (ruleName, rule) :: rest)%list /\
          err = ErrExecuteRule ruleName cause /\
          fst (runRules' pre e) = Ok tt /\
          fst (executeRule' ruleName rule (snd (runRules' pre e))) = Err cause /\
          ruleResults World e' = recordAll pre (ruleResults World e)
    end.
Proof.
  induction order as [|[ruleName rule] order IH]; intros e; [reflexivity|].
  cbn [runRules].
  destruct (executeRule_outcome ruleName rule e) as [Hres Hkeep].
  destruct (executeRule' ruleName rule e) as [[success | cause] e1] eqn:Hrule.
  - cbn [fst snd] in Hres, Hkeep.
    destruct Hres as [[= ->] | [err [=]]].
    specialize (IH {| ruleResults := <[ruleName := true]> (ruleResults World e1);
                      cookies := cookies World e1; eff := eff World e1 |}).
    destruct (runRules' order _) as [[u | err] e'] eqn:Hrest.
    + rewrite IH. cbn [ruleResults recordAll fold_left fst]. rewrite Hkeep.
      reflexivity.
    + destruct IH as (pre & n & r & rest & c & -> & -> & Hpre & Hfail & Hrec).
      exists ((ruleName, rule) :: pre), n, r, rest, c.
      split; [reflexivity|]. split; [reflexivity|].
      cbn [runRules]. rewrite Hrule.
      split; [exact Hpre|]. split; [exact Hfail|].
      rewrite Hrec. cbn [ruleResults recordAll fold_left fst]. rewrite Hkeep.
        reflexivity.
  - cbn [snd] in Hkeep.
    exists [], ruleName, rule, order, cause.
    split; [reflexivity|]. split; [reflexivity|].
    cbn [runRules fst snd]. rewrite Hrule.
    split; [reflexivity|]. split; [reflexivity | exact Hkeep].
Qed.

(** X5: a rule succeeds or fails with an error, it never answers false
    without one; so when no recorded result is false before a run, none
    is after it, and a run without main expression, if it returns at all
    without error, returns true: the verdict false of the last loop of
    [Execute] cannot come from a rule of this run. *)
Theorem X5_no_false_outcome (config : POCConfig)
    (order : list (string * Rule)) (e : Engine') :
  allSucceeded (ruleResults World e) = true ->
  allSucceeded (ruleResults World (snd (runRules' order e))) = true /\
  (forall ruleName rule e0,
     fst (executeRule' ruleName rule e0) <> Ok false) /\
  (MainExpression config = "" ->
   fst (Execute' config order e) = Ok true \/
   exists ruleName cause,
     fst (Execute' config order e) = Err (ErrExecuteRule ruleName cause)).
Proof.
  intros Hall.
  assert (Hrec : forall order m,
            allSucceeded m = true -> allSucceeded (recordAll order m) = true).
  { intros o. induction o as [|[n r] o IH]; intros m Hm; [exact Hm|].
    cbn [recordAll fold_left fst]. apply IH, allSucceeded_insert_true, Hm. }
  pose proof (runRules_records order e) as Hrun.
  destruct (runRules' order e) as [[u | err] e'] eqn:Hrules.
  - split; [|split].
    + cbn [snd]. rewrite Hrun. apply Hrec, Hall.
    + intros n r e0. destruct (executeRule_outcome n r e0) as [[-> | [c ->]] _];
        discriminate.
    + intros Hmain. left. unfold Execute. rewrite Hrules, Hmain.
      cbn [negb String.eqb fst]. rewrite Hrun. f_equal. apply Hrec, Hall.
  - destruct Hrun as (pre & n & r & rest & c & -> & -> & _ & _ & Hres).
    split; [|split].
    + cbn [snd]. rewrite Hres. apply Hrec, Hall.
    + intros n0 r0 e0.
      destruct (executeRule_outcome n0 r0 e0) as [[-> | [c0 ->]] _];
        discriminate.
    + intros _. right. exists n, c. unfold Execute. rewrite Hrules. reflexivity.
Qed.

(** X6: the results after the first loop of [Execute].  After success
    every rule of the order is recorded as true and the other names are
    as before; after an error, the error names a rule of the order, the
    rules before it succeeded and are the ones recorded, and the named
    rule failed with the cause the error wraps. *)
Theorem X6_recorded_results (order : list (string * Rule)) (e : Engine') :
  match runRules' order e with
  | (Ok _, e') =>
      forall k,
        GetRuleResult (GetAllRuleResults (ruleResults World e')) k =
          if existsb (String.eqb k) (List.map fst order) then (true, true)
          else GetRuleResult (ruleResults World e) k
  | (Err err, e') =>
      exists pre ruleName rule rest cause,
        order = (pre ++ (ruleName, rule) :: rest)%list /\
        err = ErrExecuteRule ruleName cause /\
        fst (runRules' pre e) = Ok tt /\
        fst (executeRule' ruleName rule (snd (runRules' pre e))) = Err cause /\
        forall k,
          GetRuleResult (GetAllRuleResults (ruleResults World e')) k =
            if existsb (String.eqb k) (List.map fst pre) then (true, true)
            else GetRuleResult (ruleResults World e) k
  end.
Proof.
  pose proof (runRules_records order e) as Hrun.
  destruct (runRules' order e) as [[u | err] e'].
  - intros k. unfold GetRuleResult, GetAllRuleResults.
    rewrite Hrun, recordAll_lookup.
    destruct (existsb _ _); reflexivity.
  - destruct Hrun as (pre & n & r & rest & c & Ho & He & Hpre & Hfail & Hres).
    exists pre, n, r, rest, c. repeat (split; [assumption|]).
    intros k. unfold GetRuleResult, GetAllRuleResults.
    rewrite Hres, recordAll_lookup.
    destruct (existsb _ _); reflexivity.
Qed.

Lemma GetRetryCount_positive (rule : Rule) : 1 <= GetRetryCount rule.
Proof.
  unfold GetRetryCount. destruct (Z.leb_spec (RetryCount rule) 0); lia.
Qed.

(** X7: a target that lets every attempt of a rule fail ends the run,
    for a rule whose retry count is below MaxInt64 (with the count
    MaxInt64 the loop counter wraps around and the request never gives
    up).  The rule makes one attempt more than its retry count (which
    is at least 1), the error of [Execute] names the rule and wraps the
    error of the request with the error of the last attempt inside, the
    rule is not recorded, the stored cookies are as before, and no later
    rule is requested. *)
Theorem X7_request_failure_is_fatal (config : POCConfig)
    (pre rest : list (string * Rule)) (ruleName : string) (rule : Rule)
    (e e1 : Engine') (err : error) (w' : World) :
  GetRetryCount rule < MaxInt64 ->
  runRules' pre e = (Ok tt, e1) ->
  attemptsFail transport
    (buildRequest canonicalKey baseURL (cookies World e1) (ruleOptions rule))
    (Z.to_nat (GetRetryCount rule + 1)) (world World (eff World e1))
    ErrNil err w' ->
  Execute' config (pre ++ (ruleName, rule) :: rest) e =
    (Err (ErrExecuteRule ruleName
            (ErrHTTPRequest (ErrRetriesExhausted (GetRetryCount rule) err))),
     {| ruleResults := ruleResults World e1;
        cookies := cookies World e1;
        eff := {| slept :=
                    slept World (eff World e1) ++
                    List.map (fun k => retryDelay (Z.of_nat k))
                      (seq 1 (Z.to_nat (GetRetryCount rule)));
                  attempts :=
                    attempts World (eff World e1) + GetRetryCount rule + 1;
                  world := w' |} |}).
Proof.
  intros Hmax Hpre Hfail.
  apply (Execute_stops Regexp regexpCompile FindStringSubmatch World transport
           canonicalKey baseURL config pre rest _ _ e e1); [exact Hpre|].
  pose proof (GetRetryCount_positive rule) as Hpos.
  unfold executeRule, ExecuteRequest. cbn [optRetryCount ruleOptions].
  rewrite (retryLoop_attemptsFail World transport _ _ _ _ 0 ErrNil err
             (eff World e1) w' Hfail);
    [ | lia | lia | lia | exact Hmax ].
  replace (Z.to_nat (GetRetryCount rule + 1))
    with (S (Z.to_nat (GetRetryCount rule))) by lia.
  rewrite waitsOver_zero. do 3 f_equal. lia.
Qed.

(** X8: the cookie a rule extracts.  When [ExtractCookie] returns a
    cookie that is not empty, it replaces the stored one, whether the
    rule then succeeds or fails, and it is the cookie the validation of
    the same rule looks at unless the rule names one of its own; an empty
    result leaves the stored cookie as it was. *)
Theorem X8_extracted_cookie_is_stored (ruleName : string) (rule : Rule)
    (e : Engine') (response : Response) (eff' : effects World) (c : string) :
  ExtractCookie_expr rule <> "" ->
  ExecuteRequest' (cookies World e) (ruleOptions rule) (eff World e)
    = (Ok response, eff') ->
  ExtractCookie Regexp regexpCompile FindStringSubmatch
    (ExtractCookie_expr rule) (Some response) = Ok c ->
  let after := cookies World (snd (executeRule' ruleName rule e)) in
  (c = "" -> after = cookies World e) /\
  (c <> "" ->
   after = StoreCookie (cookies World e) c /\
   GetStoredCookie after = c /\
   (UseCookie rule = "" \/ UseCookie rule = "response.extracted_cookie" ->
    cookieToValidate rule after = c)).
Proof.
  intros Hexpr Hreq Hext. apply String.eqb_neq in Hexpr. cbv zeta.
  assert (Hafter : cookies World (snd (executeRule' ruleName rule e)) =
                   extractStep' rule response (cookies World e)).
  { rewrite (executeRule_after_response Regexp regexpCompile FindStringSubmatch
               World transport canonicalKey baseURL _ _ _ _ _ Hreq).
    cbv zeta.
    destruct (validateStep rule _); [|reflexivity].
    destruct (expressionStep rule response _); reflexivity. }
  rewrite Hafter. unfold extractStep. rewrite Hexpr, Hext. cbn [negb].
  split.
  - intros ->. reflexivity.
  - intros Hc. apply String.eqb_neq in Hc. rewrite Hc. cbn [negb].
    assert (Hget : GetStoredCookie (StoreCookie (cookies World e) c) = c).
    { unfold GetStoredCookie, StoreCookie. rewrite lookup_insert_eq. reflexivity. }
    split; [reflexivity|]. split; [exact Hget|].
    intros [Hu | Hu]; unfold cookieToValidate; rewrite Hu; exact Hget.
Qed.

End EngineMore.

Lemma X5_no_false_outcome_witness :
  fst (Execute unit noRegexp noSubmatch Z siteTransport id "http://target"
         {| Rules := Rules chainConfig; MainExpression := "" |}
         declaredOrder (NewEngine Z 0))
    = Ok true.
Proof.
  destruct (X5_no_false_outcome unit noRegexp noSubmatch Z siteTransport id
              "http://target"
              {| Rules := Rules chainConfig; MainExpression := "" |}
              declaredOrder (NewEngine Z 0) eq_refl) as (_ & _ & Hmain).
  destruct (Hmain eq_refl) as [Hok | (n & c & Herr)]; [exact Hok|].
  vm_compute in Herr. discriminate Herr.
Defined.

Lemma X7_request_failure_is_fatal_witness :
  Execute unit noRegexp noSubmatch unit deadTransport id "http://target"
    chainConfig declaredOrder (NewEngine unit tt) =
  (Err (ErrExecuteRule "r0" (ErrHTTPRequest (ErrRetriesExhausted 3 ErrDo))),
   {| ruleResults := ∅; cookies := ∅;
      eff := {| slept := [2 * Second; 4 * Second; 6 * Second];
                attempts := 4; world := tt |} |}).
Proof.
  apply (X7_request_failure_is_fatal unit noRegexp noSubmatch unit deadTransport
           id "http://target" chainConfig [] [("r1", adminRule)] "r0" loginRule
           (NewEngine unit tt) (NewEngine unit tt) ErrDo tt
           ltac:(vm_compute; reflexivity) eq_refl).
  repeat (eapply fail_more; [reflexivity | reflexivity |]).
  apply fail_none.
Defined.

Lemma X8_extracted_cookie_is_stored_witness :
  GetStoredCookie
    (cookies Z
       (snd (executeRule unit noRegexp noSubmatch Z siteTransport id
               "http://target" "r0" loginRule (NewEngine Z 0))))
    = "sid=42; Path=/".
Proof.
  destruct (X8_extracted_cookie_is_stored unit noRegexp noSubmatch Z
              siteTransport id "http://target" "r0" loginRule (NewEngine Z 0)
              loginResponse {| slept := []; attempts := 1; world := 1 |}
              "sid=42; Path=/"
              ltac:(discriminate) ltac:(reflexivity) ltac:(reflexivity))
    as (_ & Hstored).
  destruct (Hstored ltac:(discriminate)) as (_ & Hget & _). exact Hget.
Defined.

(* ===================================================================== *)
(** ** Further properties: calls in expressions *)
(* ===================================================================== *)

Lemma spanNonQuote_app (t rest : string) (q : ascii) :
  quoteFree t = true -> isQuote q = true ->
  spanNonQuote (t ++ String q rest) = (t, String q rest).
Proof.
  intros Ht Hq. induction t as [|c t IH]; simpl.
  - rewrite Hq. reflexivity.
  - simpl in Ht. apply andb_true_iff in Ht as [Hc Ht].
    apply negb_true_iff in Hc. rewrite Hc, (IH Ht). reflexivity.
Qed.

Lemma spanNonQuote_quoteFree (s : string) :
  quoteFree (fst (spanNonQuote s)) = true.
Proof.
  induction s as [|c s IH]; simpl; [reflexivity|].
  destruct (isQuote c) eqn:Hc; [reflexivity|].
  destruct (spanNonQuote s) as [a r]. simpl in *. rewrite Hc, IH. reflexivity.
Qed.

Lemma drop_app (s t : string) : drop (String.length s) (s ++ t) = t.
Proof. induction s as [|c s IH]; simpl; [destruct t; reflexivity | exact IH]. Qed.

Lemma matchCallAt_callText (fname text post : string) (q q' : ascii) :
  text <> "" -> quoteFree text = true ->
  isQuote q = true -> isQuote q' = true ->
  matchCallAt fname (callText fname q text q' ++ post) = Some text.
Proof.
  intros Hne Ht Hq Hq'. unfold matchCallAt, callText.
  assert (Hs : ((fname ++ "(" ++ String q (text ++ String q' ")")) ++ post)%string =
               ((fname ++ "(") ++ String q (text ++ String q' (String ")" post)))%string).
  { rewrite <- !append_assoc. cbn [append]. rewrite <- append_assoc. reflexivity. }
  rewrite Hs, HasPrefix_app.
  replace (String.length fname + 1)%nat with (String.length (fname ++ "("))
    by (rewrite length_append; reflexivity).
  rewrite drop_app, Hq, (spanNonQuote_app _ _ _ Ht Hq'), Hq'.
  destruct text; [congruence | reflexivity].
Qed.

Lemma findCall_callText (fname text post : string) (q q' : ascii) :
  text <> "" -> quoteFree text = true ->
  isQuote q = true -> isQuote q' = true ->
  findCall fname (callText fname q text q' ++ post) = Some text.
Proof.
  intros Hne Ht Hq Hq'.
  pose proof (matchCallAt_callText fname text post q q' Hne Ht Hq Hq') as Hm.
  destruct (callText fname q text q' ++ post)%string; simpl; rewrite Hm; reflexivity.
Qed.

Lemma matchCallAt_Some (fname s t : string) :
  matchCallAt fname s = Some t -> t <> "" /\ quoteFree t = true.
Proof.
  unfold matchCallAt. destruct (HasPrefix s (fname ++ "(")); [|discriminate].
  destruct (drop _ s) as [|q rest]; [discriminate|].
  destruct (isQuote q); [|discriminate].
  pose proof (spanNonQuote_quoteFree rest) as Hq.
  destruct (spanNonQuote rest) as [arg r]. cbn [fst] in Hq.
  destruct arg as [|c arg]; [discriminate|].
  destruct r as [|q' [|c' r]]; try discriminate.
  destruct (isQuote q' && Ascii.eqb c' ")"); [|discriminate].
  intros [= <-]. split; [discriminate | exact Hq].
Qed.

Lemma findCall_Some (fname s t : string) :
  findCall fname s = Some t -> t <> "" /\ quoteFree t = true.
Proof.
  induction s as [|c s IH]; simpl.
  - destruct (matchCallAt fname "") eqn:Hm; [|discriminate].
    intros [= <-]. apply (matchCallAt_Some _ _ _ Hm).
  - destruct (matchCallAt fname (String c s)) eqn:Hm.
    + intros [= <-]. apply (matchCallAt_Some _ _ _ Hm).
    + exact IH.
Qed.

(** X9: the three calls of the expression language.  For a text that is
    not empty and holds no quote, between two quotes of either kind (they
    need not be the same), and whatever follows the closing parenthesis:
    [response.body.contains] tells whether the body contains the text and
    is false, not an error, without a response; [cookie.contains] tells
    whether the cookie contains it; [response.headers.get] yields the
    empty text without a response and, when the text and the header names
    of the response are ASCII, the first value of the first header whose
    name equals the text up to the case of the letters. *)
Theorem X9_calls_in_expressions (response : option Response)
    (cookie text post : string) (q q' : ascii) :
  text <> "" -> quoteFree text = true ->
  isQuote q = true -> isQuote q' = true ->
  evaluateContains response
      (callText "response.body.contains" q text q' ++ post) =
    Ok (match response with
        | Some r => Contains (RespBody r) text
        | None => false
        end) /\
  evaluateCookieContains cookie
      (callText "cookie.contains" q text q' ++ post) =
    Ok (Contains cookie text) /\
  evaluateHeaderGet None
      (callText "response.headers.get" q text q' ++ post) = Ok "" /\
  (forall r,
     isASCII text = true -> asciiKeys (RespHeaders r) = true ->
     evaluateHeaderGet (Some r)
         (callText "response.headers.get" q text q' ++ post) =
       Ok (firstHeaderValue (ToLower text) (RespHeaders r))).
Proof.
  intros Hne Ht Hq Hq'.
  unfold evaluateContains, evaluateCookieContains, evaluateHeaderGet.
  rewrite !(findCall_callText _ text post q q' Hne Ht Hq Hq').
  destruct response; repeat split; reflexivity.
Qed.

Lemma X9_calls_in_expressions_witness :
  evaluateContains (Some lowerResponse)
    (callText "response.body.contains" squote "admin" dquote ++ " == false")
    = Ok true /\
  evaluateCookieContains "sid=42" "cookie.contains('lang')" = Ok false /\
  evaluateHeaderGet (Some lowerResponse) "response.headers.get('Set-Cookie')"
    = Ok "sid=42".
Proof.
  destruct (X9_calls_in_expressions (Some lowerResponse) "sid=42" "admin"
              " == false" squote dquote ltac:(discriminate) eq_refl eq_refl eq_refl)
    as (H1 & _ & _).
  destruct (X9_calls_in_expressions (Some lowerResponse) "sid=42" "lang"
              "" squote squote ltac:(discriminate) eq_refl eq_refl eq_refl)
    as (_ & H2 & _).
  destruct (X9_calls_in_expressions (Some lowerResponse) "sid=42" "Set-Cookie"
              "" squote squote ltac:(discriminate) eq_refl eq_refl eq_refl)
    as (_ & _ & _ & H3).
  split; [exact H1|]. split; [exact H2|].
  exact (H3 lowerResponse eq_refl eq_refl).
Defined.

(* ===================================================================== *)
(** ** Further properties: headers and the cookie extractor *)
(* ===================================================================== *)

Lemma lowerByte_idempotent (c : ascii) : lowerByte (lowerByte c) = lowerByte c.
Proof. destruct c as [[] [] [] [] [] [] [] []]; reflexivity. Qed.

Lemma ToLower_idempotent (s : string) : ToLower (ToLower s) = ToLower s.
Proof.
  induction s as [|c s IH]; simpl; [reflexivity|].
  rewrite lowerByte_idempotent, IH. reflexivity.
Qed.

Lemma firstHeaderValue_lowerKeys (l : string) (hs : list (string * list string)) :
  firstHeaderValue l (lowerKeys hs) = firstHeaderValue l hs.
Proof.
  induction hs as [|[k v] hs IH]; [reflexivity|].
  cbn [lowerKeys List.map firstHeaderValue fst snd].
  fold (lowerKeys hs). rewrite ToLower_idempotent, IH. reflexivity.
Qed.

Lemma joinedHeaderValue_lowerKeys (l : string) (hs : list (string * list string)) :
  joinedHeaderValue l (lowerKeys hs) = joinedHeaderValue l hs.
Proof.
  induction hs as [|[k v] hs IH]; [reflexivity|].
  cbn [lowerKeys List.map joinedHeaderValue fst snd].
  fold (lowerKeys hs). rewrite ToLower_idempotent, IH. reflexivity.
Qed.

Lemma Contains_prefix (s t : string) : Contains (s ++ t) s = true.
Proof.
  destruct (s ++ t)%string eqn:E; simpl; rewrite <- E, HasPrefix_app; reflexivity.
Qed.

Lemma Contains_callText (fname text post : string) (q q' : ascii) :
  Contains (callText fname q text q' ++ post) fname = true.
Proof.
  unfold callText. rewrite <- append_assoc. apply Contains_prefix.
Qed.

Lemma header_present (l : string) (pre rest : list (string * list string))
    (k v0 : string) (vs : list string) :
  (forall kv, In kv pre -> ToLower (fst kv) <> l) ->
  ToLower k = l ->
  firstHeaderValue l (pre ++ (k, v0 :: vs) :: rest) = v0 /\
  joinedHeaderValue l (pre ++ (k, v0 :: vs) :: rest) = Some (Join (v0 :: vs) "; ").
Proof.
  intros Hpre Hk. induction pre as [|[k' v'] pre IH]; cbn [app firstHeaderValue joinedHeaderValue].
  - rewrite Hk, String.eqb_refl. split; reflexivity.
  - assert (Hne : String.eqb (ToLower k') l = false).
    { apply String.eqb_neq. apply (Hpre (k', v')). left. reflexivity. }
    rewrite Hne. apply IH. intros kv Hin. apply Hpre. right. exact Hin.
Qed.

Lemma header_absent (l : string) (hs : list (string * list string)) :
  (forall kv, In kv hs -> ToLower (fst kv) <> l) ->
  firstHeaderValue l hs = "" /\ joinedHeaderValue l hs = None.
Proof.
  intros Hhs. induction hs as [|[k v] hs IH]; [split; reflexivity|].
  cbn [firstHeaderValue joinedHeaderValue].
  assert (Hne : String.eqb (ToLower k) l = false).
  { apply String.eqb_neq. apply (Hhs (k, v)). left. reflexivity. }
  rewrite Hne. apply IH. intros kv Hin. apply Hhs. right. exact Hin.
Qed.

Section ExtractionMore.

Variable Regexp : Type.
Variable regexpCompile : string -> option Regexp.
Variable FindStringSubmatch : Regexp -> string -> list string.

Abbreviation ExtractCookie' :=
  (ExtractCookie Regexp regexpCompile FindStringSubmatch).

Lemma ExtractCookie_header_mode (r : Response) (text post : string) (q q' : ascii) :
  text <> "" -> quoteFree text = true ->
  isQuote q = true -> isQuote q' = true ->
  ExtractCookie' (callText "response.headers.get" q text q' ++ post) (Some r) =
    match joinedHeaderValue (ToLower text) (RespHeaders r) with
    | Some joined => Ok joined
    | None =>
        match Cookies r with
        | _ :: _ => Ok (Join (Cookies r) "; ")
        | [] => Ok ""
        end
    end.
Proof.
  intros Hne Ht Hq Hq'. unfold ExtractCookie.
  rewrite Contains_callText, (findCall_callText _ text post q q' Hne Ht Hq Hq').
  reflexivity.
Qed.

(** X10: the lookup of a header does not see the case of ASCII
    letters, neither in the name the expression asks for nor in the
    names of the response.  For names of ASCII bytes and a response
    whose header names are ASCII: two names that are equal up to the
    case of the letters give the same result, in [evaluateHeaderGet] and
    in [ExtractCookie], also after every header name of the response is
    put in lower case; and a header whose name equals the asked one up
    to the case of the letters is found, when none before it does. *)
Theorem X10_header_lookup_ignores_case (r : Response)
    (text text' : string) (q q' : ascii) :
  text <> "" -> quoteFree text = true ->
  text' <> "" -> quoteFree text' = true ->
  isQuote q = true -> isQuote q' = true ->
  isASCII text = true -> isASCII text' = true ->
  asciiKeys (RespHeaders r) = true ->
  ToLower text = ToLower text' ->
  let lowered := withHeaders r (lowerKeys (RespHeaders r)) in
  evaluateHeaderGet (Some r) (callText "response.headers.get" q text q') =
    evaluateHeaderGet (Some lowered) (callText "response.headers.get" q text' q') /\
  ExtractCookie' (callText "response.headers.get" q text q') (Some r) =
    ExtractCookie' (callText "response.headers.get" q text' q') (Some lowered) /\
  (forall pre rest k v0 vs,
     RespHeaders r = (pre ++ (k, v0 :: vs) :: rest)%list ->
     (forall kv, In kv pre -> ToLower (fst kv) <> ToLower text) ->
     ToLower k = ToLower text ->
     evaluateHeaderGet (Some r) (callText "response.headers.get" q text q')
       = Ok v0).
Proof.
  intros Hne Ht Hne' Ht' Hq Hq' _ _ _ Hlow. cbv zeta.
  assert (Hget : forall resp t, t <> "" -> quoteFree t = true ->
            evaluateHeaderGet (Some resp) (callText "response.headers.get" q t q') =
            Ok (firstHeaderValue (ToLower t) (RespHeaders resp))).
  { intros resp t Hn Hf. unfold evaluateHeaderGet.
    rewrite <- (append_empty_r (callText _ q t q')).
    rewrite (findCall_callText _ t "" q q' Hn Hf Hq Hq'). reflexivity. }
  assert (Hext : forall resp t, t <> "" -> quoteFree t = true ->
            ExtractCookie' (callText "response.headers.get" q t q') (Some resp) =
            match joinedHeaderValue (ToLower t) (RespHeaders resp) with
            | Some joined => Ok joined
            | None =>
                match Cookies resp with
                | _ :: _ => Ok (Join (Cookies resp) "; ")
                | [] => Ok ""
                end
            end).
  { intros resp t Hn Hf.
    rewrite <- (append_empty_r (callText _ q t q')).
    apply ExtractCookie_header_mode; assumption. }
  split; [|split].
  - rewrite (Hget r text Hne Ht), (Hget _ text' Hne' Ht'), Hlow.
    cbn [withHeaders RespHeaders]. rewrite firstHeaderValue_lowerKeys. reflexivity.
  - rewrite (Hext r text Hne Ht), (Hext _ text' Hne' Ht'), Hlow.
    cbn [withHeaders RespHeaders Cookies].
    rewrite joinedHeaderValue_lowerKeys. reflexivity.
  - intros pre rest k v0 vs Hhs Hpre Hk.
    rewrite (Hget r text Hne Ht), Hhs.
    rewrite (proj1 (header_present _ pre rest k v0 vs Hpre Hk)). reflexivity.
Qed.

(** X11: [ExtractCookie] with a header lookup.  Without a response it
    is an error, whatever the expression.  With one it never is; for a
    name of ASCII bytes and a response whose header names are ASCII it
    yields the values of the first header of that name, up to the case
    of the letters, that has any, joined by a semicolon and a space;
    without such a header, the cookies of the response joined the same
    way; and without cookies the empty text. *)
Theorem X11_extraction_from_header (r : Response) (text post : string)
    (q q' : ascii) :
  text <> "" -> quoteFree text = true ->
  isQuote q = true -> isQuote q' = true ->
  let expr := (callText "response.headers.get" q text q' ++ post)%string in
  (forall e, ExtractCookie' e None = Err ErrNilResponse) /\
  (isASCII text = true -> asciiKeys (RespHeaders r) = true ->
   (forall pre rest k v0 vs,
      RespHeaders r = (pre ++ (k, v0 :: vs) :: rest)%list ->
      (forall kv, In kv pre -> ToLower (fst kv) <> ToLower text) ->
      ToLower k = ToLower text ->
      ExtractCookie' expr (Some r) = Ok (Join (v0 :: vs) "; ")) /\
   ((forall kv, In kv (RespHeaders r) -> ToLower (fst kv) <> ToLower text) ->
    ExtractCookie' expr (Some r) =
      Ok (match Cookies r with [] => "" | _ :: _ => Join (Cookies r) "; " end))) /\
  is_err (ExtractCookie' expr (Some r)) = false.
Proof.
  intros Hne Ht Hq Hq'. cbv zeta.
  rewrite (ExtractCookie_header_mode r text post q q' Hne Ht Hq Hq').
  split; [reflexivity|]. split; [intros _ _; split|].
  - intros pre rest k v0 vs Hhs Hpre Hk. rewrite Hhs.
    rewrite (proj2 (header_present _ pre rest k v0 vs Hpre Hk)). reflexivity.
  - intros Habs. rewrite (proj2 (header_absent _ _ Habs)).
    destruct (Cookies r); reflexivity.
  - destruct (joinedHeaderValue _ _); [reflexivity|].
    destruct (Cookies r); reflexivity.
Qed.

Lemma HasPrefix_quote2 (t : string) (c q : ascii) :
  quoteFree t = true -> isQuote q = true ->
  HasPrefix t (String c (String q "")) = false.
Proof.
  intros Ht Hq. destruct t as [|a [|b t]]; simpl; try reflexivity.
  - rewrite andb_false_r. reflexivity.
  - simpl in Ht. apply andb_true_iff in Ht as [_ Ht].
    apply andb_true_iff in Ht as [Hb _]. apply negb_true_iff in Hb.
    destruct (Ascii.eqb_spec q b) as [-> | _]; [congruence|].
    rewrite andb_false_r. reflexivity.
Qed.

Lemma quoteFree_app (s t : string) :
  quoteFree (s ++ t) = quoteFree s && quoteFree t.
Proof.
  induction s as [|c s IH]; simpl; [reflexivity|].
  rewrite IH. apply andb_assoc.
Qed.

Lemma quoteFree_reverse (s : string) : quoteFree (reverse s) = quoteFree s.
Proof.
  induction s as [|c s IH]; [reflexivity|].
  unfold reverse. simpl. rewrite rev_acc_app, quoteFree_app, IH. simpl.
  rewrite andb_true_r. apply andb_comm.
Qed.

Lemma HasSuffix_quote (t : string) (q : ascii) :
  quoteFree t = true -> isQuote q = true ->
  HasSuffix t (String q "") = false.
Proof.
  intros Ht Hq. unfold HasSuffix. change (reverse (String q "")) with (String q "").
  rewrite <- quoteFree_reverse in Ht.
  destruct (reverse t) as [|a t']; simpl; [reflexivity|].
  simpl in Ht. apply andb_true_iff in Ht as [Ha _]. apply negb_true_iff in Ha.
  destruct (Ascii.eqb_spec q a) as [-> | _]; [congruence | reflexivity].
Qed.

Lemma convertRustRegex_quoteFree (pattern : string) :
  quoteFree pattern = true -> convertRustRegex pattern = pattern.
Proof.
  intros Hp. unfold convertRustRegex, TrimPrefix.
  rewrite !(HasPrefix_quote2 pattern) by (assumption || reflexivity).
  rewrite (TrimSuffix_absent pattern (String squote ""))
    by (apply HasSuffix_quote; [assumption | reflexivity]).
  rewrite (TrimSuffix_absent pattern (String dquote ""))
    by (apply HasSuffix_quote; [assumption | reflexivity]).
  reflexivity.
Qed.

(** X12: [ExtractCookie] with a pattern.  The pattern the expression
    holds between its quotes cannot contain a quote, so
    [convertRustRegex] returns it as it is, and it is compiled as
    written.  A pattern that does not compile is an error; otherwise the
    result is the first group of the first match in the body, and the
    empty text, not an error, when nothing matches or the pattern has no
    group. *)
Theorem X12_extraction_by_pattern (r : Response) (expr pattern : string) :
  Contains expr "response.headers.get" = false ->
  Contains expr "response.body.extract" = true ->
  findCall "response.body.extract" expr = Some pattern ->
  convertRustRegex pattern = pattern /\
  ExtractCookie' expr (Some r) =
    match regexpCompile pattern with
    | None => Err (ErrInvalidRegexp pattern)
    | Some regex => Ok (nth 1 (FindStringSubmatch regex (RespBody r)) "")
    end.
Proof.
  intros Hh Hb Hfind.
  destruct (findCall_Some _ _ _ Hfind) as [_ Hq].
  pose proof (convertRustRegex_quoteFree pattern Hq) as Hconv.
  split; [exact Hconv|].
  unfold ExtractCookie. rewrite Hh, Hb, Hfind, Hconv.
  destruct (regexpCompile pattern) as [regex|]; [|reflexivity].
  destruct (FindStringSubmatch regex (RespBody r)) as [|m0 [|m1 ms]]; reflexivity.
Qed.

End ExtractionMore.

Lemma X10_header_lookup_ignores_case_witness :
  evaluateHeaderGet (Some lowerResponse) "response.headers.get('Set-Cookie')"
    = Ok "sid=42" /\
  ExtractCookie unit noRegexp noSubmatch
    "response.headers.get('SET-COOKIE')" (Some lowerResponse)
  = ExtractCookie unit noRegexp noSubmatch
      "response.headers.get('set-cookie')" (Some lowerResponse).
Proof.
  destruct (X10_header_lookup_ignores_case unit noRegexp noSubmatch lowerResponse
              "Set-Cookie" "set-cookie" squote squote
              ltac:(discriminate) eq_refl ltac:(discriminate) eq_refl
              eq_refl eq_refl eq_refl eq_refl eq_refl eq_refl)
    as (_ & _ & Hfound).
  destruct (X10_header_lookup_ignores_case unit noRegexp noSubmatch lowerResponse
              "SET-COOKIE" "set-cookie" squote squote
              ltac:(discriminate) eq_refl ltac:(discriminate) eq_refl
              eq_refl eq_refl eq_refl eq_refl eq_refl eq_refl)
    as (_ & Hsame & _).
  split.
  - apply (Hfound [("content-type", ["text/html"])] [] "set-cookie" "sid=42"
             ["lang=en"] eq_refl); [|reflexivity].
    intros kv [<- | []]. vm_compute. discriminate.
  - exact Hsame.
Defined.

Lemma X11_extraction_from_header_witness :
  ExtractCookie unit noRegexp noSubmatch
    "response.headers.get('Set-Cookie')" (Some lowerResponse)
    = Ok "sid=42; lang=en" /\
  ExtractCookie unit noRegexp noSubmatch
    "response.headers.get('X-Token')" (Some lowerResponse)
    = Ok "theme=dark".
Proof.
  destruct (X11_extraction_from_header unit noRegexp noSubmatch lowerResponse
              "Set-Cookie" "" squote squote
              ltac:(discriminate) eq_refl eq_refl eq_refl) as (_ & Hascii & _).
  destruct (Hascii eq_refl eq_refl) as (Hfound & _).
  destruct (X11_extraction_from_header unit noRegexp noSubmatch lowerResponse
              "X-Token" "" squote squote
              ltac:(discriminate) eq_refl eq_refl eq_refl) as (_ & Hascii' & _).
  destruct (Hascii' eq_refl eq_refl) as (_ & Habsent).
  split.
  - apply (Hfound [("content-type", ["text/html"])] [] "set-cookie" "sid=42"
             ["lang=en"] eq_refl); [|reflexivity].
    intros kv [<- | []]. vm_compute. discriminate.
  - apply Habsent.
    intros kv [<- | [<- | []]]; vm_compute; discriminate.
Defined.

Lemma X12_extraction_by_pattern_witness :
  ExtractCookie unit sessionCompile sessionSubmatch
    "response.body.extract('sid=(\d+)')" (Some loginResponse) = Ok "" /\
  ExtractCookie unit sessionCompile sessionSubmatch
    "response.body.extract('sid=(\d+')" (Some loginResponse)
    = Err (ErrInvalidRegexp "sid=(\d+").
Proof.
  split.
  - apply (X12_extraction_by_pattern unit sessionCompile sessionSubmatch
             loginResponse "response.body.extract('sid=(\d+)')" "sid=(\d+)"
             eq_refl eq_refl eq_refl).
  - apply (X12_extraction_by_pattern unit sessionCompile sessionSubmatch
             loginResponse "response.body.extract('sid=(\d+')" "sid=(\d+"
             eq_refl eq_refl eq_refl).
Defined.

(* ===================================================================== *)
(** ** Further properties: the evaluator *)
(* ===================================================================== *)

Section EvaluatorMore.

Variable response : option Response.
Variable cookie : string.

Abbreviation bounded := (Evaluate_bounded response cookie).
Abbreviation single_with := (evaluateSingle_with response cookie).

Lemma andLoop_ext (f g : string -> res bool) (parts : list string) :
  (forall p, In p parts -> f (TrimSpace p) = g (TrimSpace p)) ->
  forall result, andLoop f parts result = andLoop g parts result.
Proof.
  induction parts as [|p parts IH]; intros H result; [reflexivity|].
  cbn [andLoop]. rewrite (H p (or_introl eq_refl)).
  destruct (g (TrimSpace p)); [|reflexivity]. cbn [bind].
  apply IH. intros q Hq. apply H. right. exact Hq.
Qed.

Lemma orLoop_ext (f g : string -> res bool) (parts : list string) :
  (forall p, In p parts -> f (TrimSpace p) = g (TrimSpace p)) ->
  forall result, orLoop f parts result = orLoop g parts result.
Proof.
  induction parts as [|p parts IH]; intros H result; [reflexivity|].
  cbn [orLoop]. rewrite (H p (or_introl eq_refl)).
  destruct (g (TrimSpace p)) as [val|]; [|reflexivity]. cbn [bind].
  destruct (result || val); [reflexivity|].
  apply IH. intros q Hq. apply H. right. exact Hq.
Qed.

Lemma single_with_ext (E1 E2 : string -> res bool) (expr : string) :
  (forall e, (String.length e < String.length expr)%nat -> E1 e = E2 e) ->
  single_with E1 expr = single_with E2 expr.
Proof.
  intros H. unfold evaluateSingle_with.
  destruct (HasPrefix (TrimSpace expr) "(" && HasSuffix (TrimSpace expr) ")")
    eqn:Hparen; [|reflexivity].
  apply andb_true_iff in Hparen as [Hp _]. apply H.
  pose proof (length_Trim_parenthesized _ Hp).
  pose proof (length_TrimSpace expr). lia.
Qed.

(** The result does not depend on the bound once it exceeds the length. *)
Lemma Evaluate_bounded_stable (d1 : nat) :
  forall (d2 : nat) (expr : string),
    (String.length expr < d1)%nat -> (String.length expr < d2)%nat ->
    bounded d1 expr = bounded d2 expr.
Proof.
  induction d1 as [|d1 IH]; intros d2 expr H1 H2; [lia|].
  destruct d2 as [|d2]; [lia|]. cbn [Evaluate_bounded].
  set (e := TrimSpace (removeComments expr)).
  assert (He : (String.length e <= String.length expr)%nat).
  { subst e. pose proof (length_TrimSpace (removeComments expr)).
    pose proof (length_removeComments expr). lia. }
  assert (Hs : forall p, (String.length p <= String.length e)%nat ->
            single_with (bounded d1) p = single_with (bounded d2) p).
  { intros p Hp. apply single_with_ext. intros x Hx. apply IH; lia. }
  destruct (Contains e "||").
  { unfold evaluateOr_with. apply orLoop_ext. intros p Hp. apply Hs.
    apply length_Split in Hp. pose proof (length_TrimSpace p). lia. }
  destruct (Contains e "&&").
  { unfold evaluateAnd_with. apply andLoop_ext. intros p Hp. apply Hs.
    apply length_Split in Hp. pose proof (length_TrimSpace p). lia. }
  apply Hs. lia.
Qed.

Lemma single_with_own_bound (d : nat) (p : string) :
  (String.length p <= d)%nat ->
  single_with (bounded d) p = evaluateSingle response cookie p.
Proof.
  intros Hd. unfold evaluateSingle. apply single_with_ext.
  intros x Hx. apply Evaluate_bounded_stable; lia.
Qed.

Lemma Evaluate_equation (expr : string) :
  Evaluate response cookie expr =
    (let e := TrimSpace (removeComments expr) in
     if Contains e "||"
     then orLoop (evaluateSingle response cookie) (Split e "||") false
     else if Contains e "&&"
     then andLoop (evaluateSingle response cookie) (Split e "&&") true
     else evaluateSingle response cookie e).
Proof.
  unfold Evaluate. cbn [Evaluate_bounded]. cbv zeta.
  set (e := TrimSpace (removeComments expr)).
  assert (He : (String.length e <= String.length expr)%nat).
  { subst e. pose proof (length_TrimSpace (removeComments expr)).
    pose proof (length_removeComments expr). lia. }
  destruct (Contains e "||").
  { unfold evaluateOr_with. apply orLoop_ext. intros p Hp.
    apply single_with_own_bound.
    apply length_Split in Hp. pose proof (length_TrimSpace p). lia. }
  destruct (Contains e "&&").
  { unfold evaluateAnd_with. apply andLoop_ext. intros p Hp.
    apply single_with_own_bound.
    apply length_Split in Hp. pose proof (length_TrimSpace p). lia. }
  apply single_with_own_bound. exact He.
Qed.

Lemma evaluateSingle_parenthesized (expr : string) :
  HasPrefix (TrimSpace expr) "(" && HasSuffix (TrimSpace expr) ")" = true ->
  evaluateSingle response cookie expr =
    Evaluate response cookie (Trim (TrimSpace expr) "()").
Proof.
  intros Hparen.
  unfold evaluateSingle, evaluateSingle_with. rewrite Hparen.
  unfold Evaluate. apply andb_true_iff in Hparen as [Hp _].
  pose proof (length_Trim_parenthesized _ Hp).
  pose proof (length_TrimSpace expr).
  apply Evaluate_bounded_stable; lia.
Qed.

(** X13: [Evaluate] and [evaluateSingle] satisfy the equations the
    source writes for them, with no bound left: [Evaluate] strips the
    comment and the white space and, in this order, splits at [||], or
    splits at [&&], or takes the expression as one clause; a clause in
    parentheses is what [Evaluate] makes of it once all leading and
    trailing parentheses are removed. *)
Theorem X13_evaluate_equations (expr : string) :
  Evaluate response cookie expr =
    (let e := TrimSpace (removeComments expr) in
     if Contains e "||"
     then orLoop (evaluateSingle response cookie) (Split e "||") false
     else if Contains e "&&"
     then andLoop (evaluateSingle response cookie) (Split e "&&") true
     else evaluateSingle response cookie e) /\
  (let e := TrimSpace expr in
   HasPrefix e "(" && HasSuffix e ")" = true ->
   evaluateSingle response cookie expr =
     Evaluate response cookie (Trim e "()")).
Proof.
  split; [apply Evaluate_equation | apply evaluateSingle_parenthesized].
Qed.

Lemma orLoop_stops (f : string -> res bool) (pre rest : list string) (p : string)
    (r : res bool) :
  (forall q, In q pre -> f (TrimSpace q) = Ok false) ->
  f (TrimSpace p) = r -> r <> Ok false ->
  orLoop f (pre ++ p :: rest) false = r.
Proof.
  intros Hpre Hp Hr. induction pre as [|q pre IH]; cbn [app orLoop].
  - rewrite Hp. destruct r as [[|] | err]; [reflexivity | congruence | reflexivity].
  - rewrite (Hpre q (or_introl eq_refl)). cbn [bind orb].
    apply IH. intros x Hx. apply Hpre. right. exact Hx.
Qed.

Lemma orLoop_all_false (f : string -> res bool) (parts : list string) :
  (forall q, In q parts -> f (TrimSpace q) = Ok false) ->
  orLoop f parts false = Ok false.
Proof.
  intros H. induction parts as [|q parts IH]; [reflexivity|].
  cbn [orLoop]. rewrite (H q (or_introl eq_refl)). cbn [bind orb].
  apply IH. intros x Hx. apply H. right. exact Hx.
Qed.

Lemma andLoop_all (f : string -> res bool) (parts : list string) (bs : list bool) :
  Forall2 (fun p b => f (TrimSpace p) = Ok b) parts bs ->
  forall result, andLoop f parts result = Ok (result && forallb id bs).
Proof.
  induction 1 as [|p b parts bs Hp _ IH]; intros result.
  - cbn [andLoop forallb]. rewrite andb_true_r. reflexivity.
  - cbn [andLoop forallb]. rewrite Hp. cbn [bind]. rewrite IH.
    unfold id at 2. rewrite andb_assoc. reflexivity.
Qed.

Lemma andLoop_error (f : string -> res bool) (pre rest : list string)
    (bs : list bool) (p : string) (err : error) :
  Forall2 (fun q b => f (TrimSpace q) = Ok b) pre bs ->
  f (TrimSpace p) = Err err ->
  forall result, andLoop f (pre ++ p :: rest) result = Err err.
Proof.
  induction 1 as [|q b pre bs Hq _ IH]; intros Hp result; cbn [app andLoop].
  - rewrite Hp. reflexivity.
  - rewrite Hq. cbn [bind]. apply IH, Hp.
Qed.

(** X15: a disjunction is evaluated from the left and only as far as
    needed.  After parts that are false, a part that is true makes the
    whole true and a part that is an error makes the whole that error;
    the parts after it are not evaluated, so a malformed part behind a
    true one goes unnoticed.  When all parts are false, so is the whole. *)
Theorem X15_disjunction_stops_early (expr : string)
    (pre rest : list string) (p : string) :
  let e := TrimSpace (removeComments expr) in
  Contains e "||" = true ->
  (forall q, In q pre -> evaluateSingle response cookie (TrimSpace q) = Ok false) ->
  (Split e "||" = (pre ++ p :: rest)%list ->
   (evaluateSingle response cookie (TrimSpace p) = Ok true ->
    Evaluate response cookie expr = Ok true) /\
   (forall err,
      evaluateSingle response cookie (TrimSpace p) = Err err ->
      Evaluate response cookie expr = Err err)) /\
  (Split e "||" = pre -> Evaluate response cookie expr = Ok false).
Proof.
  cbv zeta. intros Hor Hpre. rewrite Evaluate_equation. cbv zeta. rewrite Hor.
  split.
  - intros ->. split.
    + intros Hp. apply (orLoop_stops _ pre rest p _ Hpre Hp). discriminate.
    + intros err Hp. apply (orLoop_stops _ pre rest p _ Hpre Hp). discriminate.
  - intros ->. apply orLoop_all_false, Hpre.
Qed.

(** X16: a conjunction is evaluated to its end.  When every part has a
    value, the whole is true exactly when all of them are; when a part is
    an error and the parts before it have values, the whole is that
    error, also when one of those values is false: a false part does not
    keep a malformed part behind it from ending the evaluation. *)
Theorem X16_conjunction_runs_through (expr : string)
    (pre rest : list string) (bs : list bool) (p : string) :
  let e := TrimSpace (removeComments expr) in
  Contains e "||" = false ->
  Contains e "&&" = true ->
  Forall2 (fun q b => evaluateSingle response cookie (TrimSpace q) = Ok b) pre bs ->
  (Split e "&&" = pre -> Evaluate response cookie expr = Ok (forallb id bs)) /\
  (Split e "&&" = (pre ++ p :: rest)%list ->
   forall err,
     evaluateSingle response cookie (TrimSpace p) = Err err ->
     Evaluate response cookie expr = Err err).
Proof.
  cbv zeta. intros Hor Hand Hpre. rewrite Evaluate_equation. cbv zeta.
  rewrite Hor, Hand. split.
  - intros ->. rewrite (andLoop_all _ pre bs Hpre). reflexivity.
  - intros -> err Hp. apply (andLoop_error _ pre rest bs p err Hpre Hp).
Qed.

End EvaluatorMore.

Lemma X13_evaluate_equations_witness :
  evaluateSingle (Some okResponse) "" " ((response.status==200)) " =
  Evaluate (Some okResponse) "" "response.status==200".
Proof.
  apply (proj2 (X13_evaluate_equations (Some okResponse) ""
                  " ((response.status==200)) ")).
  reflexivity.
Defined.

Lemma X15_disjunction_stops_early_witness :
  Evaluate (Some okResponse) "" "response.status==200 || status is fine" = Ok true /\
  Evaluate (Some okResponse) "" "response.status==404 || response.status==500"
    = Ok false.
Proof.
  split.
  - apply (proj1 (X15_disjunction_stops_early (Some okResponse) ""
             "response.status==200 || status is fine"
             [] [" status is fine"] "response.status==200 "
             eq_refl ltac:(intros q []))); reflexivity.
  - apply (proj2 (X15_disjunction_stops_early (Some okResponse) ""
             "response.status==404 || response.status==500"
             ["response.status==404 "; " response.status==500"] [] ""
             eq_refl
             ltac:(intros q [<- | [<- | []]]; reflexivity))).
    reflexivity.
Defined.

Lemma X16_conjunction_runs_through_witness :
  Evaluate (Some okResponse) "" "response.status==404 && status is fine"
    = Err (ErrUnsupportedExpression "status is fine") /\
  Evaluate (Some okResponse) "" "response.status==200 && response.status<300"
    = Ok true.
Proof.
  split.
  - apply (proj2 (X16_conjunction_runs_through (Some okResponse) ""
             "response.status==404 && status is fine"
             ["response.status==404 "] [] [false] " status is fine"
             eq_refl eq_refl
             ltac:(repeat constructor))); reflexivity.
  - apply (proj1 (X16_conjunction_runs_through (Some okResponse) ""
             "response.status==200 && response.status<300"
             ["response.status==200 "; " response.status<300"] [] [true; true] ""
             eq_refl eq_refl
             ltac:(repeat constructor))); reflexivity.
Defined.

(* ===================================================================== *)
(** ** Further properties: comments *)
(* ===================================================================== *)

Lemma Index_lower_bound (s sub : string) : -1 <= Index s sub.
Proof.
  induction s as [|c s IH]; cbn [Index].
  - destruct (HasPrefix "" sub); lia.
  - destruct (HasPrefix (String c s) sub); [lia|].
    destruct (Z.eqb_spec (Index s sub) (-1)); lia.
Qed.

Lemma removeComments_cons (c : ascii) (s : string) :
  removeComments (String c s) =
    if Ascii.eqb c "#" then "" else String c (removeComments s).
Proof.
  unfold removeComments. cbn [Index HasPrefix]. rewrite andb_true_r.
  rewrite (Ascii.eqb_sym "#" c).
  destruct (Ascii.eqb c "#"); [reflexivity|].
  pose proof (Index_lower_bound s "#") as Hlow.
  destruct (Z.eqb_spec (Index s "#") (-1)) as [Hi | Hi]; [reflexivity|].
  cbn [negb]. destruct (Z.eqb_spec (Index s "#" + 1) (-1)); [lia|].
  cbn [negb]. unfold slice_to.
  replace (Z.to_nat (Index s "#" + 1)) with (S (Z.to_nat (Index s "#"))) by lia.
  reflexivity.
Qed.

Lemma removeComments_append_hash (e t : string) :
  removeComments (e ++ String "#" t) = removeComments e.
Proof.
  induction e as [|c e IH]; [reflexivity|].
  cbn [append]. rewrite !removeComments_cons, IH. reflexivity.
Qed.

Lemma removeComments_no_hash (s : string) :
  Contains (removeComments s) "#" = false.
Proof.
  induction s as [|c s IH]; [reflexivity|].
  rewrite removeComments_cons. destruct (Ascii.eqb c "#") eqn:E; [reflexivity|].
  cbn [Contains HasPrefix]. rewrite (Ascii.eqb_sym "#" c), E, IH. reflexivity.
Qed.

Lemma removeComments_idempotent (s : string) :
  removeComments (removeComments s) = removeComments s.
Proof.
  induction s as [|c s IH]; [reflexivity|].
  rewrite removeComments_cons. destruct (Ascii.eqb c "#") eqn:E; [reflexivity|].
  rewrite removeComments_cons, E, IH. reflexivity.
Qed.

(** X14: everything from the first [#] on is a comment, for the
    expression of a rule and for the main expression alike: text put
    behind a [#] at the end of an expression never changes its result,
    what [removeComments] returns holds no [#], and removing comments twice
    is removing them once.  The [#] is not protected by quotes. *)
Theorem X14_comments_are_ignored (response : option Response) (cookie : string)
    (results : gmap string bool) (expr comment : string) :
  Evaluate response cookie (expr ++ String "#" comment) =
    Evaluate response cookie expr /\
  evaluateMainExpression results (expr ++ String "#" comment) =
    evaluateMainExpression results expr /\
  Contains (removeComments expr) "#" = false /\
  removeComments (removeComments expr) = removeComments expr.
Proof.
  split; [|split; [|split]].
  - rewrite !Evaluate_equation. cbv zeta.
    rewrite removeComments_append_hash. reflexivity.
  - unfold evaluateMainExpression, substituteRules.
    rewrite removeComments_append_hash. reflexivity.
  - apply removeComments_no_hash.
  - apply removeComments_idempotent.
Qed.

(* ===================================================================== *)
(** ** Further properties: the main expression *)
(* ===================================================================== *)

Lemma mainOrLoop_true (parts : list string) :
  mainOrLoop parts = true <->
  exists part, In part parts /\ TrimSpace part = "true".
Proof.
  induction parts as [|p parts IH]; simpl.
  - split; [discriminate | intros (? & [] & _)].
  - destruct (String.eqb (TrimSpace p) "true") eqn:E.
    + apply String.eqb_eq in E. split; [|reflexivity].
      intros _. exists p. split; [left; reflexivity | exact E].
    + apply String.eqb_neq in E. rewrite IH. split.
      * intros (q & Hq & Hf). exists q. split; [right; exact Hq | exact Hf].
      * intros (q & [Hq | Hq] & Hf); [subst q; contradiction|].
        exists q. split; assumption.
Qed.

(** X17: the main expression without [&&].  With [||] in the text after
    the replacements the result is true exactly when some part between
    the [||], once trimmed, is the text [true]; without any operator it is
    true exactly when the whole text is [true].  The evaluation of the
    main expression never returns an error: text that is no expression at
    all counts as false. *)
Theorem X17_main_expression_disjunction (results : gmap string bool) (expr : string) :
  is_err (evaluateMainExpression results expr) = false /\
  (Contains (substituteRules results expr) "&&" = false ->
   (Contains (substituteRules results expr) "||" = true ->
    evaluateMainExpression results expr =
      Ok (mainOrLoop (Split (substituteRules results expr) "||")) /\
    (evaluateMainExpression results expr = Ok true <->
     exists part,
       In part (Split (substituteRules results expr) "||") /\
       TrimSpace part = "true")) /\
   (Contains (substituteRules results expr) "||" = false ->
    evaluateMainExpression results expr =
      Ok (String.eqb (substituteRules results expr) "true"))).
Proof.
  unfold evaluateMainExpression. split.
  - destruct (Contains _ "&&"); [reflexivity|].
    destruct (Contains _ "||"); reflexivity.
  - intros ->. split.
    + intros ->. split; [reflexivity|].
      rewrite <- mainOrLoop_true. split; [congruence | intros ->; reflexivity].
    + intros ->. reflexivity.
Qed.

Lemma X17_main_expression_disjunction_witness :
  evaluateMainExpression results_r0_r1 "r1 || r0" = Ok true /\
  evaluateMainExpression results_r0_r1 "r0 or r1" = Ok false.
Proof.
  destruct (X17_main_expression_disjunction results_r0_r1 "r1 || r0")
    as (_ & Hor).
  destruct (X17_main_expression_disjunction results_r0_r1 "r0 or r1")
    as (_ & Hplain).
  split.
  - destruct (proj1 (Hor eq_refl) eq_refl) as [Hval _]. exact Hval.
  - exact (proj2 (Hplain eq_refl) eq_refl).
Defined.

Lemma removeComments_word_app (w rest : string) :
  allWordChars w = true ->
  removeComments (w ++ rest) = (w ++ removeComments rest)%string.
Proof.
  intros Hw. induction w as [|c w IH]; [reflexivity|].
  simpl in Hw. apply andb_true_iff in Hw as [Hc Hw].
  cbn [append]. rewrite removeComments_cons, (Ascii.eqb_sym c "#"),
    (wordChar_not_hash c Hc), (IH Hw). reflexivity.
Qed.

Lemma TrimSpace_guarded (s : string) :
  trimLeftSpace spaceEncodings 0 s = s ->
  trimLeftSpace (List.map reverse spaceEncodings) 0 (reverse s) = reverse s ->
  TrimSpace s = s.
Proof.
  intros Hl Hr. unfold TrimSpace. rewrite Hl, Hr. apply reverse_involutive.
Qed.

Lemma trimLeftSpace_rparen (s : string) :
  trimLeftSpace (List.map reverse spaceEncodings) 0 (String ")" s) = String ")" s.
Proof. reflexivity. Qed.

Lemma TrimSpace_word_rparen (c : ascii) (s : string) :
  isWordChar c = true ->
  TrimSpace (String c (s ++ ")")) = String c (s ++ ")").
Proof.
  intros Hc. apply TrimSpace_guarded.
  - cbn [trimLeftSpace]. rewrite (proj1 (wordChar_spaceWidth c _ Hc)). reflexivity.
  - change (String c (s ++ ")")) with (String c s ++ ")")%string.
    rewrite reverse_app. change (reverse ")") with ")".
    cbn [append]. apply trimLeftSpace_rparen.
Qed.

Lemma replaceAllCalls_call (f : string -> string) (w : string) :
  forall cur : string,
    allWordChars w = true ->
    rev_acc w cur <> "" ->
    replaceAllCalls f cur (w ++ "()") = f (reverse (rev_acc w cur) ++ "()").
Proof.
  induction w as [|c w IH]; intros cur Hw Hne.
  - cbn [append replaceAllCalls rev_acc] in *.
    change (isWordChar "(") with false. cbv iota.
    destruct cur as [|a cur]; [congruence|].
    cbn [String.eqb negb andb]. change (Ascii.eqb "(" "(") with true.
    change (Ascii.eqb ")" ")") with true. cbv iota.
    cbn [replaceAllCalls]. change (reverse "") with "".
    apply append_empty_r.
  - simpl in Hw. apply andb_true_iff in Hw as [Hc Hw].
    cbn [append replaceAllCalls]. rewrite Hc. apply IH; assumption.
Qed.

Lemma Contains_word_operator (w sub : string) (c : ascii) :
  allWordChars w = true -> isWordChar c = false ->
  Contains w (String c sub) = false.
Proof.
  intros Hw Hc. induction w as [|a w IH]; [reflexivity|].
  simpl in Hw. apply andb_true_iff in Hw as [Ha Hw].
  cbn [Contains HasPrefix].
  destruct (Ascii.eqb_spec c a) as [-> | _]; [congruence|].
  cbn [andb orb]. apply IH, Hw.
Qed.

Lemma ruleResultText_value (results : gmap string bool) (ruleName : string) :
  ruleResultText results ruleName =
    if fst (GetRuleResult results ruleName) then "true" else "false".
Proof.
  unfold ruleResultText, GetRuleResult.
  destruct (results !! ruleName) as [[|]|]; reflexivity.
Qed.

Lemma substituteRules_call (results : gmap string bool) (name : string) :
  allWordChars name = true ->
  name <> "" ->
  substituteRules results (name ++ "()") = ruleResultText results name.
Proof.
  intros Hw Hne. unfold substituteRules.
  rewrite (removeComments_word_app name "()" Hw).
  change (removeComments "()") with "()".
  destruct name as [|c name]; [congruence|].
  pose proof Hw as Hw'. simpl in Hw'. apply andb_true_iff in Hw' as [Hc _].
  change (String c name ++ "()")%string with (String c (name ++ "(" ++ ")")).
  rewrite append_assoc, (TrimSpace_word_rparen c _ Hc), <- append_assoc.
  change (String c (name ++ "(" ++ ")")) with (String c name ++ "()")%string.
  rewrite (replaceAllCalls_call _ (String c name) "" Hw).
  2:{ fold (reverse (String c name)). intros Hrev.
      apply (f_equal reverse) in Hrev. rewrite reverse_involutive in Hrev.
      discriminate Hrev. }
  fold (reverse (String c name)). rewrite reverse_involutive.
  unfold callReplacement. rewrite TrimSuffix_app.
  rewrite ruleResultText_value.
  destruct (fst (GetRuleResult results (String c name))); reflexivity.
Qed.

Lemma evaluateMainExpression_call (results : gmap string bool) (name : string) :
  allWordChars name = true ->
  name <> "" ->
  evaluateMainExpression results (name ++ "()") =
    Ok (fst (GetRuleResult results name)).
Proof.
  intros Hw Hne. unfold evaluateMainExpression.
  rewrite (substituteRules_call results name Hw Hne), ruleResultText_value.
  destruct (fst (GetRuleResult results name)); reflexivity.
Qed.

(** X18: a rule in the main expression, alone.  A call [name()] stands
    for the recorded result of the rule [name], and for false when there
    is none, for every name of word characters.  A bare name stands for
    the result only when it reads [r] and digits; any other bare word is
    false, whatever is recorded for it, unless it is the word [true]. *)
Theorem X18_single_rule_reference (results : gmap string bool) (name : string) :
  allWordChars name = true ->
  name <> "" ->
  substituteRules results (name ++ "()") = ruleResultText results name /\
  evaluateMainExpression results (name ++ "()") =
    Ok (fst (GetRuleResult results name)) /\
  evaluateMainExpression results name =
    Ok (if isRuleName name then fst (GetRuleResult results name)
        else String.eqb name "true").
Proof.
  intros Hw Hne.
  split; [apply substituteRules_call; assumption|].
  split; [apply evaluateMainExpression_call; assumption|].
  unfold evaluateMainExpression. rewrite (substituteRules_word results name Hw).
  destruct (isRuleName name).
  - rewrite ruleResultText_value.
    destruct (fst (GetRuleResult results name)); reflexivity.
  - rewrite !(Contains_word_operator name _ _ Hw) by reflexivity.
    reflexivity.
Qed.

Lemma X18_single_rule_reference_witness :
  evaluateMainExpression results_login "login()" = Ok false /\
  evaluateMainExpression (<["check" := true]> ∅) "check()" = Ok true /\
  evaluateMainExpression (<["check" := true]> ∅) "check" = Ok false.
Proof.
  destruct (X18_single_rule_reference results_login "login" eq_refl
              ltac:(discriminate)) as (_ & Hcall & _).
  destruct (X18_single_rule_reference (<["check" := true]> ∅) "check" eq_refl
              ltac:(discriminate)) as (_ & Hcall' & Hbare).
  split; [exact Hcall|]. split; [exact Hcall' | exact Hbare].
Defined.

(* ===================================================================== *)
(** ** Further properties: containment tests, end to end *)
(* ===================================================================== *)

Lemma callText_shape (fname text : string) (q q' : ascii) :
  callText fname q text q' =
    ((fname ++ "(" ++ String q (text ++ String q' "")) ++ ")")%string.
Proof.
  unfold callText. rewrite <- !append_assoc. cbn [append].
  rewrite <- append_assoc. reflexivity.
Qed.

Lemma TrimSpace_callText (c : ascii) (fname text : string) (q q' : ascii) :
  isWordChar c = true ->
  TrimSpace (callText (String c fname) q text q') = callText (String c fname) q text q'.
Proof.
  intros Hc. rewrite callText_shape. cbn [append].
  apply (TrimSpace_word_rparen c _ Hc).
Qed.

Lemma removeComments_absent (s : string) :
  Contains s "#" = false -> removeComments s = s.
Proof.
  induction s as [|c s IH]; [reflexivity|].
  cbn [Contains HasPrefix]. rewrite andb_true_r. intros H.
  apply orb_false_iff in H as [Hc Hs].
  rewrite removeComments_cons, (Ascii.eqb_sym c "#"), Hc, (IH Hs). reflexivity.
Qed.

(** X19: a containment test as the whole expression.  When the call, with
    a text that is not empty and holds no quote, contains no [#], no [||]
    and no [&&], then [response.body.contains] is true exactly when the
    body contains the text, and false without a response;
    [cookie.contains] is true exactly when the cookie contains the text,
    in the expression of a rule and in [ValidateCookie], as long as the
    text does not itself spell [response.body.contains]; and the empty
    validation expression accepts every cookie. *)
Theorem X19_containment_tests (response : option Response)
    (cookie text : string) (q q' : ascii) :
  text <> "" -> quoteFree text = true ->
  isQuote q = true -> isQuote q' = true ->
  let inBody := callText "response.body.contains" q text q' in
  let inCookie := callText "cookie.contains" q text q' in
  (Contains inBody "#" = false ->
   Contains inBody "||" = false ->
   Contains inBody "&&" = false ->
   Evaluate response cookie inBody =
     Ok (match response with
         | Some r => Contains (RespBody r) text
         | None => false
         end)) /\
  (Contains inCookie "#" = false ->
   Contains inCookie "||" = false ->
   Contains inCookie "&&" = false ->
   Contains inCookie "response.body.contains" = false ->
   Evaluate response cookie inCookie = Ok (Contains cookie text) /\
   ValidateCookie inCookie cookie = Ok (Contains cookie text)) /\
  ValidateCookie "" cookie = Ok true.
Proof.
  intros Hne Ht Hq Hq'. cbv zeta. split; [|split; [|reflexivity]].
  - intros Hh Hor Hand.
    rewrite Evaluate_equation. cbv zeta.
    rewrite (removeComments_absent _ Hh).
    rewrite (TrimSpace_callText "r" _ text q q' eq_refl), Hor, Hand.
    unfold evaluateSingle, evaluateSingle_with.
    rewrite (TrimSpace_callText "r" _ text q q' eq_refl).
    change (HasPrefix (callText "response.body.contains" q text q') "(") with false.
    cbn [andb].
    rewrite <- (append_empty_r (callText "response.body.contains" q text q')) at 1.
    rewrite Contains_callText.
    unfold evaluateContains.
    rewrite <- (append_empty_r (callText "response.body.contains" q text q')).
    rewrite (findCall_callText _ text "" q q' Hne Ht Hq Hq').
    destruct response; reflexivity.
  - intros Hh Hor Hand Hbody.
    assert (Hev : forall resp,
              Evaluate resp cookie (callText "cookie.contains" q text q') =
              Ok (Contains cookie text)).
    { intros resp. rewrite Evaluate_equation. cbv zeta.
      rewrite (removeComments_absent _ Hh).
      rewrite (TrimSpace_callText "c" _ text q q' eq_refl), Hor, Hand.
      unfold evaluateSingle, evaluateSingle_with.
      rewrite (TrimSpace_callText "c" _ text q q' eq_refl).
      change (HasPrefix (callText "cookie.contains" q text q') "(") with false.
      cbn [andb]. rewrite Hbody.
      rewrite <- (append_empty_r (callText "cookie.contains" q text q')) at 1.
      rewrite Contains_callText.
      unfold evaluateCookieContains.
      rewrite <- (append_empty_r (callText "cookie.contains" q text q')).
      rewrite (findCall_callText _ text "" q q' Hne Ht Hq Hq').
      reflexivity. }
    split; [apply Hev|].
    unfold ValidateCookie.
    change (String.eqb (callText "cookie.contains" q text q') "") with false.
    apply Hev.
Qed.

Lemma X19_containment_tests_witness :
  Evaluate (Some lowerResponse) "" "response.body.contains('admin')" = Ok true /\
  ValidateCookie "cookie.contains('sid')" "lang=en" = Ok false.
Proof.
  destruct (X19_containment_tests (Some lowerResponse) "" "admin" squote squote
              ltac:(discriminate) eq_refl eq_refl eq_refl) as (Hbody & _).
  destruct (X19_containment_tests None "lang=en" "sid" squote squote
              ltac:(discriminate) eq_refl eq_refl eq_refl) as (_ & Hcookie & _).
  split.
  - exact (Hbody eq_refl eq_refl eq_refl).
  - exact (proj2 (Hcookie eq_refl eq_refl eq_refl eq_refl)).
Defined.

(* ===================================================================== *)
(** ** Further properties: words as expressions, and the verdict *)
(* ===================================================================== *)

Lemma HasPrefix_word (w sub : string) :
  allWordChars w = true -> HasPrefix w sub = true -> allWordChars sub = true.
Proof.
  revert w. induction sub as [|c sub IH]; intros w Hw Hp; [reflexivity|].
  destruct w as [|a w]; [discriminate|].
  simpl in Hw, Hp. apply andb_true_iff in Hw as [Ha Hw].
  apply andb_true_iff in Hp as [Hc Hp]. apply Ascii.eqb_eq in Hc. subst a.
  simpl. rewrite Ha. apply (IH w Hw Hp).
Qed.

Lemma Contains_word (w sub : string) :
  allWordChars w = true -> allWordChars sub = false -> Contains w sub = false.
Proof.
  intros Hw Hsub.
  assert (Hpre : forall x, allWordChars x = true -> HasPrefix x sub = false).
  { intros x Hx. destruct (HasPrefix x sub) eqn:E; [|reflexivity].
    rewrite (HasPrefix_word x sub Hx E) in Hsub. discriminate. }
  induction w as [|a w IH]; cbn [Contains].
  - rewrite (Hpre "" eq_refl). reflexivity.
  - rewrite (Hpre _ Hw). simpl in Hw. apply andb_true_iff in Hw as [_ Hw].
    apply IH, Hw.
Qed.

(** X20: a word is no expression for a rule.  For every text of word
    characters, the names of rules and the words [true] and [false]
    among them, [Evaluate] returns the error for an unsupported
    expression; the words that the main expression understands are not
    understood here. *)
Theorem X20_words_are_not_expressions (response : option Response)
    (cookie w : string) :
  allWordChars w = true ->
  Evaluate response cookie w = Err (ErrUnsupportedExpression w) /\
  evaluateSingle response cookie w = Err (ErrUnsupportedExpression w).
Proof.
  intros Hw.
  assert (Hs : evaluateSingle response cookie w = Err (ErrUnsupportedExpression w)).
  { unfold evaluateSingle, evaluateSingle_with. rewrite (TrimSpace_word w Hw).
    rewrite !(Contains_word w _ Hw) by reflexivity.
    destruct (HasPrefix w "(") eqn:Hp.
    - apply (HasPrefix_word w "(" Hw) in Hp. discriminate Hp.
    - reflexivity. }
  split; [|exact Hs].
  rewrite Evaluate_equation. cbv zeta.
  rewrite (removeComments_word w Hw), (TrimSpace_word w Hw).
  rewrite !(Contains_word w _ Hw) by reflexivity. exact Hs.
Qed.

Lemma X20_words_are_not_expressions_witness :
  Evaluate (Some okResponse) "" "true" = Err (ErrUnsupportedExpression "true").
Proof.
  apply (proj1 (X20_words_are_not_expressions (Some okResponse) "" "true" eq_refl)).
Defined.

Section VerdictMore.

Variable Regexp : Type.
Variable regexpCompile : string -> option Regexp.
Variable FindStringSubmatch : Regexp -> string -> list string.
Variable World : Type.
Variable transport : Request -> World -> attempt_outcome * World.
Variable canonicalKey : string -> string.
Variable baseURL : string.

Abbreviation runRules'' :=
  (runRules Regexp regexpCompile FindStringSubmatch World transport
     canonicalKey baseURL).
Abbreviation Execute'' :=
  (Execute Regexp regexpCompile FindStringSubmatch World transport
     canonicalKey baseURL).

(** X21: the verdict of a run whose main expression is the call of one
    name.  When all rules of the run succeed, the verdict is true if the
    name is one of them, and otherwise what was recorded for the name
    before the run, false when nothing was: a call of a rule that does
    not exist is false, not an error. *)
Theorem X21_verdict_of_a_call (config : POCConfig)
    (order : list (string * Rule)) (e e' : Engine World) (name : string) :
  allWordChars name = true ->
  name <> "" ->
  MainExpression config = (name ++ "()")%string ->
  runRules'' order e = (Ok tt, e') ->
  Execute'' config order e =
    (Ok (if existsb (String.eqb name) (List.map fst order) then true
         else fst (GetRuleResult (ruleResults World e) name)),
     e').
Proof.
  intros Hw Hne Hmain Hrun. unfold Execute. rewrite Hrun, Hmain.
  assert (Hnonempty : String.eqb (name ++ "()") "" = false).
  { destruct name; [congruence | reflexivity]. }
  rewrite Hnonempty. cbn [negb].
  rewrite (evaluateMainExpression_call _ name Hw Hne).
  pose proof (runRules_records Regexp regexpCompile FindStringSubmatch World
                transport canonicalKey baseURL order e) as Hrec.
  rewrite Hrun in Hrec.
  unfold GetRuleResult. rewrite Hrec, recordAll_lookup.
  destruct (existsb _ _); reflexivity.
Qed.

End VerdictMore.

Lemma X21_verdict_of_a_call_witness :
  fst (Execute unit noRegexp noSubmatch Z siteTransport id "http://target"
         (oneRuleConfig "r0" loginRule "r0()") [("r0", loginRule)] (NewEngine Z 0))
    = Ok true /\
  fst (Execute unit noRegexp noSubmatch Z siteTransport id "http://target"
         (oneRuleConfig "r0" loginRule "r7()") [("r0", loginRule)] (NewEngine Z 0))
    = Ok false.
Proof.
  split.
  - rewrite (X21_verdict_of_a_call unit noRegexp noSubmatch Z siteTransport id
               "http://target" (oneRuleConfig "r0" loginRule "r0()")
               [("r0", loginRule)] (NewEngine Z 0) _ "r0"
               eq_refl ltac:(discriminate) eq_refl eq_refl).
    reflexivity.
  - rewrite (X21_verdict_of_a_call unit noRegexp noSubmatch Z siteTransport id
               "http://target" (oneRuleConfig "r0" loginRule "r7()")
               [("r0", loginRule)] (NewEngine Z 0) _ "r7"
               eq_refl ltac:(discriminate) eq_refl eq_refl).
    reflexivity.
Defined.

(* ===================================================================== *)
(** ** Further properties: literals, and the cookie store *)
(* ===================================================================== *)

Lemma trimLeftCutset_quoteFree (q : ascii) (x : string) :
  isQuote q = true -> quoteFree x = true ->
  trimLeftCutset (String q "") x = x.
Proof.
  intros Hq Hx. destruct x as [|a x]; [reflexivity|].
  simpl in Hx. apply andb_true_iff in Hx as [Ha _]. apply negb_true_iff in Ha.
  cbn [trimLeftCutset inCutset list_ascii_of_string existsb].
  destruct (Ascii.eqb_spec a q) as [-> | _]; [congruence | reflexivity].
Qed.

Lemma Trim_quoted (q : ascii) (t : string) :
  isQuote q = true -> quoteFree t = true ->
  Trim (String q (t ++ String q "")) (String q "") = t.
Proof.
  intros Hq Ht. unfold Trim.
  assert (Hleft : trimLeftCutset (String q "") (String q (t ++ String q "")) =
                  trimLeftCutset (String q "") (t ++ String q "")).
  { cbn [trimLeftCutset inCutset list_ascii_of_string existsb].
    rewrite Ascii.eqb_refl. reflexivity. }
  rewrite Hleft. destruct t as [|a t].
  - cbn [append trimLeftCutset inCutset list_ascii_of_string existsb].
    rewrite Ascii.eqb_refl. reflexivity.
  - assert (Hfirst : trimLeftCutset (String q "") (String a t ++ String q "") =
                     (String a t ++ String q "")%string).
    { simpl in Ht. apply andb_true_iff in Ht as [Ha _]. apply negb_true_iff in Ha.
      cbn [append trimLeftCutset inCutset list_ascii_of_string existsb].
      destruct (Ascii.eqb_spec a q) as [-> | _]; [congruence | reflexivity]. }
    rewrite Hfirst, reverse_app. change (reverse (String q "")) with (String q "").
    cbn [append trimLeftCutset inCutset list_ascii_of_string existsb].
    rewrite Ascii.eqb_refl. cbn [orb].
    rewrite (trimLeftCutset_quoteFree q (reverse (String a t)) Hq)
      by (rewrite quoteFree_reverse; exact Ht).
    apply reverse_involutive.
Qed.

Lemma TrimSpace_quoted (q : ascii) (t : string) :
  isQuote q = true ->
  TrimSpace (String q (t ++ String q "")) = String q (t ++ String q "").
Proof.
  intros Hq.
  assert (Hcases : q = squote \/ q = dquote).
  { unfold isQuote in Hq. apply orb_true_iff in Hq as [H | H];
      apply Ascii.eqb_eq in H; auto. }
  apply TrimSpace_guarded.
  - destruct Hcases as [-> | ->]; reflexivity.
  - change (String q (t ++ String q "")) with (String q t ++ String q "")%string.
    rewrite reverse_app. change (reverse (String q "")) with (String q "").
    cbn [append]. destruct Hcases as [-> | ->]; reflexivity.
Qed.

(** X22: a quoted text is a value.  A text without quotes, between two
    single or two double quotes, evaluates to the text, with or without a
    response; in an ordering comparison it is the integer it parses as,
    and an error when it does not parse. *)
Theorem X22_quoted_literals (response : option Response) (cookie t : string)
    (q : ascii) :
  isQuote q = true ->
  quoteFree t = true ->
  let literal := String q (t ++ String q "") in
  evaluateValue response cookie literal = Ok (VString t) /\
  evaluateNumericValue response cookie literal =
    match Atoi t with
    | Some n => Ok n
    | None => Err (ErrAtoi t)
    end.
Proof.
  intros Hq Ht. cbv zeta.
  assert (Hv : evaluateValue response cookie (String q (t ++ String q ""))
               = Ok (VString t)).
  { unfold evaluateValue. rewrite (TrimSpace_quoted q t Hq).
    assert (Hsuf : HasSuffix (String q (t ++ String q "")) (String q "") = true).
    { change (String q (t ++ String q "")) with (String q t ++ String q "")%string.
      apply HasSuffix_app. }
    unfold isQuote in Hq. apply orb_true_iff in Hq as [H | H];
      apply Ascii.eqb_eq in H; subst q.
    - cbn [HasPrefix]. rewrite Ascii.eqb_refl, Hsuf. cbn [andb].
      rewrite (Trim_quoted squote t eq_refl Ht). reflexivity.
    - cbn [HasPrefix]. change (Ascii.eqb squote dquote) with false. cbn [andb].
      rewrite Ascii.eqb_refl, Hsuf. cbn [andb].
      rewrite (Trim_quoted dquote t eq_refl Ht). reflexivity. }
  split; [exact Hv|].
  unfold evaluateNumericValue. rewrite Hv. reflexivity.
Qed.

Lemma X22_quoted_literals_witness :
  evaluateValue None "" "'200'" = Ok (VString "200") /\
  evaluateNumericValue None "" "'200'" = Ok 200.
Proof.
  exact (X22_quoted_literals None "" "200" squote eq_refl eq_refl).
Defined.

Section CookieStoreMore.

Variable Regexp : Type.
Variable regexpCompile : string -> option Regexp.
Variable FindStringSubmatch : Regexp -> string -> list string.
Variable World : Type.
Variable transport : Request -> World -> attempt_outcome * World.
Variable canonicalKey : string -> string.
Variable baseURL : string.

Abbreviation executeRule''' :=
  (executeRule Regexp regexpCompile FindStringSubmatch World transport
     canonicalKey baseURL).
Abbreviation runRules''' :=
  (runRules Regexp regexpCompile FindStringSubmatch World transport
     canonicalKey baseURL).

Lemma executeRule_without_extraction (ruleName : string) (rule : Rule)
    (e : Engine World) :
  ExtractCookie_expr rule = "" ->
  cookies World (snd (executeRule''' ruleName rule e)) = cookies World e.
Proof.
  intros Hx. unfold executeRule.
  destruct (ExecuteRequest World transport canonicalKey baseURL
              (cookies World e) (ruleOptions rule) (eff World e))
    as [[response | err] eff']; [|reflexivity].
  assert (Hstep : extractStep Regexp regexpCompile FindStringSubmatch rule
                    response (cookies World e) = cookies World e).
  { unfold extractStep. rewrite Hx. reflexivity. }
  rewrite Hstep.
  destruct (validateStep rule _); [|reflexivity].
  destruct (expressionStep rule response _); reflexivity.
Qed.

(** X23: only an extraction changes the stored cookies.  After a run
    over rules none of which has an extraction expression, whether it
    ends in success or in an error, the stored cookies are the ones from
    before the run. *)
Theorem X23_cookies_change_only_by_extraction
    (order : list (string * Rule)) (e : Engine World) :
  (forall nr, In nr order -> ExtractCookie_expr (snd nr) = "") ->
  cookies World (snd (runRules''' order e)) = cookies World e.
Proof.
  revert e. induction order as [|[ruleName rule] order IH]; intros e Hno;
    [reflexivity|].
  cbn [runRules].
  pose proof (executeRule_without_extraction ruleName rule e
                (Hno (ruleName, rule) (or_introl eq_refl))) as Hkeep.
  destruct (executeRule''' ruleName rule e) as [[success | err] e1];
    cbn [snd] in Hkeep |- *; [|exact Hkeep].
  rewrite IH; [exact Hkeep|].
  intros nr Hin. apply Hno. right. exact Hin.
Qed.

End CookieStoreMore.

Lemma X23_cookies_change_only_by_extraction_witness :
  cookies Z
    (snd (runRules unit noRegexp noSubmatch Z siteTransport id "http://target"
            [("r0", sessionRule); ("r1", notFoundRule)]
            {| ruleResults := ∅; cookies := StoreCookie ∅ "sid=1";
               eff := {| slept := []; attempts := 0; world := 0 |} |}))
  = StoreCookie ∅ "sid=1".
Proof.
  apply (X23_cookies_change_only_by_extraction unit noRegexp noSubmatch Z
           siteTransport id "http://target").
  intros nr [<- | [<- | []]]; reflexivity.
Defined.

(* ===================================================================== *)
(** ** The library functions and the evaluator on sample inputs *)
(* ===================================================================== *)

Example Split_and : Split "a && b&&c" "&&" = ["a "; " b"; "c"].
Proof. reflexivity. Qed.

Example Split_overlap : Split "a&&&b" "&&" = ["a"; "&b"].
Proof. reflexivity. Qed.

Example Split_absent : Split "abc" "&&" = ["abc"].
Proof. reflexivity. Qed.

Example Split_only : Split "&&" "&&" = [""; ""].
Proof. reflexivity. Qed.

Example TrimSpace_ascii : TrimSpace (bytes [32; 9; 97; 32; 98; 13; 10]%N) = "a b".
Proof. vm_compute. reflexivity. Qed.

Example TrimSpace_unicode :
  TrimSpace (bytes [194; 160; 97; 226; 128; 128]%N) = "a".
Proof. vm_compute. reflexivity. Qed.

Example Trim_parentheses : Trim "((a)b)" "()" = "a)b".
Proof. reflexivity. Qed.

Example Index_found : Index "ab#c" "#" = 2.
Proof. reflexivity. Qed.

Example Index_absent : Index "abc" "#" = -1.
Proof. reflexivity. Qed.

Example removeComments_cut : removeComments "r0() && r1() # both" = "r0() && r1() ".
Proof. reflexivity. Qed.

Example TrimSuffix_call : TrimSuffix "r0()" "()" = "r0".
Proof. reflexivity. Qed.

Example Atoi_plain : Atoi "200" = Some 200.
Proof. reflexivity. Qed.

Example Atoi_signed : Atoi "-7" = Some (-7).
Proof. reflexivity. Qed.

Example Atoi_sign_only : Atoi "+" = None.
Proof. reflexivity. Qed.

Example Atoi_range : Atoi "9223372036854775808" = None.
Proof. reflexivity. Qed.

Example Atoi_text : Atoi "2a" = None.
Proof. reflexivity. Qed.

Example Itoa_status : Itoa 404 = "404".
Proof. reflexivity. Qed.

Example Itoa_negative : Itoa (-15) = "-15".
Proof. reflexivity. Qed.

Example findCall_contains :
  findCall "response.body.contains" "response.body.contains('admin')"
  = Some "admin".
Proof. reflexivity. Qed.

Example findCall_unclosed :
  findCall "response.body.contains" "response.body.contains('admin'" = None.
Proof. reflexivity. Qed.

Example substitute_mixed :
  substituteRules results_login "login() && login && r0 && xr0 && r0_ && r10 # c"
  = "false && login && true && xr0 && r0_ && false".
Proof. vm_compute. reflexivity. Qed.

Example Evaluate_conjunction :
  Evaluate (Some loginResponse) ""
    "response.status==200 && response.body.contains('welcome')" = Ok true.
Proof. vm_compute. reflexivity. Qed.

Example Evaluate_parentheses :
  Evaluate (Some okResponse) "" "(response.status==404 || (response.status<=200))"
  = Ok true.
Proof. vm_compute. reflexivity. Qed.

Example Evaluate_malformed :
  Evaluate (Some okResponse) "" "response.status##"
  = Err (ErrUnsupportedExpression "response.status").
Proof. vm_compute. reflexivity. Qed.

Example Evaluate_header :
  Evaluate (Some loginResponse) "" "response.headers.get('set-cookie') != ''"
  = Ok true.
Proof. vm_compute. reflexivity. Qed.

Example Execute_end_to_end :
  Execute unit noRegexp noSubmatch Z siteTransport id "http://target/"
    (oneRuleConfig "r0" (plainRule 0 0) "") [("r0", plainRule 0 0)]
    (NewEngine Z 0) =
  (Ok true,
   {| ruleResults := <["r0" := true]> ∅; cookies := ∅;
      eff := {| slept := []; attempts := 1; world := 1 |} |}).
Proof. vm_compute. reflexivity. Qed.
